(** * Databricks Genie Teams bot: cache layer and visualization pipeline

    A shallow embedding of the stateful core of [app_azure.py]: the
    OBO token cache ([UserTokenManager]), the two bounded artifact
    stores of [GenieBot], the visualization directive parser
    ([parse_viz_spec]), the column resolution and pie-chart collapsing of
    [ChartGenerator], and the pagination arithmetic of
    [create_paginated_card]; then the session logic of [GenieBot]
    ([_handle_message] with its commands, the token exchange invoke and
    the card handlers), the two calls of [GenieClient], and the two
    chart endpoints.

    Conventions.  Python [int] is [Z]; a Python [float] is a rational of
    [Q], which has the finite values and none of [nan], the infinities
    or the rounding of float arithmetic; Python [str] is [string], read
    as a sequence of code points below 256; a Python [dict] whose
    iteration order matters is an association list kept in insertion
    order; [None] is [None]; an exception caught by the function under
    study is folded into its result, as the source does.  What lies
    outside the program (the clock, the identity provider, the Genie
    service, number parsing, plotting, base64 decoding, the HTML
    template) is a parameter of the function that uses it. *)

From Stdlib Require Import ZArith QArith Qround String Ascii List Bool Lia.
From Stdlib Require Import Decimal DecimalString DecimalZ.
From stdpp Require Import base list strings gmap sorting.

Import ListNotations.
Local Open Scope string_scope.
Local Open Scope list_scope.
Local Open Scope Z_scope.

(** ** Python built-ins used by the program *)

Module Py.

(** [str(n)] for an [int]. *)
Definition str_of_int (z : Z) : string :=
  NilEmpty.string_of_int (Z.to_int z).

(** [len(l)] as a Python integer. *)
Definition len {A} (l : list A) : Z := Z.of_nat (length l).

(** Bound of a slice: a negative index counts from the end, and the
    result is clamped into [0, len]. *)
Definition slice_index (n i : Z) : Z :=
  if i <? 0 then Z.max 0 (n + i) else Z.min i n.

(** [l[start:stop]]; an omitted bound is [None]. *)
Definition slice {A} (l : list A) (start stop : option Z) : list A :=
  let n := len l in
  let lo := match start with None => 0 | Some i => slice_index n i end in
  let hi := match stop with None => n | Some i => slice_index n i end in
  take (Z.to_nat (hi - lo)) (drop (Z.to_nat lo) l).

(** *** Strings *)

(** [':' in s], for a single character. *)
Fixpoint contains_char (c : ascii) (s : string) : bool :=
  match s with
  | EmptyString => false
  | String a s' => Ascii.eqb a c || contains_char c s'
  end.

(** The characters Python counts as whitespace, among the code points
    below 256 ([str.isspace], and [\s] of [re] on [str] patterns). *)
Definition is_space (a : ascii) : bool :=
  let n := N_of_ascii a in
  ((9 <=? n) && (n <=? 13) || (28 <=? n) && (n <=? 32)
   || (n =? 133) || (n =? 160))%N.

Fixpoint lstrip (s : string) : string :=
  match s with
  | EmptyString => EmptyString
  | String a s' => if is_space a then lstrip s' else s
  end.

Fixpoint rstrip (s : string) : string :=
  match s with
  | EmptyString => EmptyString
  | String a s' =>
      match rstrip s' with
      | EmptyString => if is_space a then EmptyString else String a EmptyString
      | r => String a r
      end
  end.

(** [s.strip()] *)
Definition strip (s : string) : string := rstrip (lstrip s).

(** Lower case of one code point below 256. *)
Definition lower_char (a : ascii) : ascii :=
  let n := N_of_ascii a in
  if ((65 <=? n) && (n <=? 90)
      || (192 <=? n) && (n <=? 222) && negb (n =? 215))%N
  then ascii_of_N (n + 32) else a.

(** [s.lower()] *)
Fixpoint lower (s : string) : string :=
  match s with
  | EmptyString => EmptyString
  | String a s' => String (lower_char a) (lower s')
  end.

(** [s.split(c)] for a one-character separator: never empty. *)
Fixpoint split (c : ascii) (s : string) : list string :=
  match s with
  | EmptyString => [EmptyString]
  | String a s' =>
      if Ascii.eqb a c then EmptyString :: split c s'
      else match split c s' with
           | [] => [String a EmptyString]
           | w :: ws => String a w :: ws
           end
  end.

(** [s.split(c, 1)] when [c] occurs in [s]: the text before the first
    [c] and the text after it. *)
Fixpoint split_once (c : ascii) (s : string) : option (string * string) :=
  match s with
  | EmptyString => None
  | String a s' =>
      if Ascii.eqb a c then Some (EmptyString, s')
      else match split_once c s' with
           | Some (k, v) => Some (String a k, v)
           | None => None
           end
  end.

(** [s[start:stop]] on a string. *)
Definition str_slice (s : string) (start stop : option Z) : string :=
  string_of_list_ascii (slice (list_ascii_of_string s) start stop).

(** [len(s)] on a string. *)
Definition str_len (s : string) : Z := Z.of_nat (String.length s).

(** *** Insertion-ordered dictionaries with string keys *)

Abbreviation dict V := (list (string * V)).

Section Dict.
Context {V : Type}.

(** [d.get(k)] *)
Fixpoint dict_get (k : string) (d : dict V) : option V :=
  match d with
  | [] => None
  | (k', v) :: d' => if String.eqb k k' then Some v else dict_get k d'
  end.

(** [k in d] *)
Definition dict_mem (k : string) (d : dict V) : bool :=
  match dict_get k d with Some _ => true | None => false end.

(** [d[k] = v]: an existing key keeps its position, a new key goes
    to the end. *)
Fixpoint dict_set (k : string) (v : V) (d : dict V) : dict V :=
  match d with
  | [] => [(k, v)]
  | (k', v') :: d' =>
      if String.eqb k k' then (k, v) :: d' else (k', v') :: dict_set k v d'
  end.

(** [del d[k]] for a key that is present. *)
Fixpoint dict_del (k : string) (d : dict V) : dict V :=
  match d with
  | [] => []
  | (k', v') :: d' =>
      if String.eqb k k' then d' else (k', v') :: dict_del k d'
  end.

(** [list(d.keys())] *)
Definition dict_keys (d : dict V) : list string := d.*1.

(** [for key in ks: del d[key]] *)
Definition dict_del_all (ks : list string) (d : dict V) : dict V :=
  fold_left (fun acc key => dict_del key acc) ks d.
End Dict.

End Py.

(** ** The artifact stores of [GenieBot] *)

Module ArtifactStore.
Import Py.

(** A cell of the tabular result: a string, or [None] for SQL NULL. *)
Definition cell : Type := option string.

(** The result dictionary built by [GenieClient._parse_response]. *)
Record QueryResult : Type := {
  text : string;
  sql : option string;
  columns : list string;
  data_rows : list (list cell);
  conversation_id : option string;
  suggested_questions : list string;
  viz_spec : option (dict string);
  error : bool
}.

(** The fields of [GenieBot] that hold artifacts. *)
Record GenieBot : Type := {
  query_results : dict QueryResult;
  _result_counter : Z;
  chart_images : dict string;
  _chart_counter : Z
}.

(** [GenieBot.__init__] *)
Definition init : GenieBot :=
  {| query_results := []; _result_counter := 0;
     chart_images := []; _chart_counter := 0 |}.

(** [f"result_{self._result_counter}"] and [f"chart_{self._chart_counter}"] *)
Definition result_id_of (n : Z) : string := "result_" +:+ str_of_int n.
Definition chart_id_of (n : Z) : string := "chart_" +:+ str_of_int n.

(** [GenieBot._store_result] *)
Definition _store_result (result : QueryResult) (bot : GenieBot)
  : string * GenieBot :=
  let counter := _result_counter bot + 1 in
  let result_id := result_id_of counter in
  let stored := dict_set result_id result (query_results bot) in
  let stored :=
    if 50 <? len stored then
      let oldest_keys := slice (dict_keys stored) None (Some (-50)) in
      dict_del_all oldest_keys stored
    else stored in
  (result_id,
   {| query_results := stored; _result_counter := counter;
      chart_images := chart_images bot;
      _chart_counter := _chart_counter bot |}).

(** [GenieBot.store_chart] *)
Definition store_chart (chart_base64 : string) (bot : GenieBot)
  : string * GenieBot :=
  let counter := _chart_counter bot + 1 in
  let chart_id := chart_id_of counter in
  let stored := dict_set chart_id chart_base64 (chart_images bot) in
  let stored :=
    if 100 <? len stored then
      let oldest_keys := slice (dict_keys stored) None (Some (-100)) in
      dict_del_all oldest_keys stored
    else stored in
  (chart_id,
   {| query_results := query_results bot;
      _result_counter := _result_counter bot;
      chart_images := stored; _chart_counter := counter |}).

(** [GenieBot.get_chart] *)
Definition get_chart (chart_id : string) (bot : GenieBot) : option string :=
  dict_get chart_id (chart_images bot).

(** [BOT.query_results.get(result_id)], the read of the result store. *)
Definition get_result (result_id : string) (bot : GenieBot)
  : option QueryResult :=
  dict_get result_id (query_results bot).

(** A put on either store. *)
Inductive put_call : Type :=
| PutResult (result : QueryResult)
| PutChart (chart_base64 : string).

Definition put (call : put_call) (bot : GenieBot) : string * GenieBot :=
  match call with
  | PutResult result => _store_result result bot
  | PutChart chart_base64 => store_chart chart_base64 bot
  end.

(** A sequence of puts, in any interleaving of the two stores: the log
    of each call with the id it was given, and the final state. *)
Fixpoint run (calls : list put_call) (bot : GenieBot)
  : list (put_call * string) * GenieBot :=
  match calls with
  | [] => ([], bot)
  | call :: calls' =>
      let '(i, bot') := put call bot in
      let '(log, bot'') := run calls' bot' in
      ((call, i) :: log, bot'')
  end.

(** The entries put in the result store, under their ids, oldest
    first; and the same for the chart store. *)
Definition results_put (log : list (put_call * string)) : dict QueryResult :=
  omap (fun e => match e with
                 | (PutResult r, i) => Some (i, r)
                 | _ => None
                 end) log.

Definition charts_put (log : list (put_call * string)) : dict string :=
  omap (fun e => match e with
                 | (PutChart c, i) => Some (i, c)
                 | _ => None
                 end) log.

(** The counter values [c+1, ..., c+n]. *)
Definition counters_after (c : Z) (n : nat) : list Z :=
  seqZ (c + 1) (Z.of_nat n).

(** What a bounded store is expected to hold when [history] lists
    everything that was ever put, oldest first: the [cap] most recent
    entries, in insertion order. *)
Definition retained {V} (cap : nat) (history : dict V) : dict V :=
  drop (length history - cap) history.

End ArtifactStore.

(** ** The token cache of [UserTokenManager] *)

Module TokenCache.

(** A cache entry [{'token': ..., 'expires_at': ...}].  Timestamps are
    seconds since the epoch; the source holds them in floating point,
    here they are rationals. *)
Record CachedToken : Type := {
  token : string;
  expires_at : Q
}.

(** What [msal_app.acquire_token_on_behalf_of] can do: return a result
    with an ["access_token"] (and maybe an ["expires_in"]), return a
    result without one, or raise. *)
Inductive obo_result : Type :=
| OboToken (access_token : string) (expires_in : option Z)
| OboError (error_description : string)
| OboRaised.

(** The manager: its cache, and the user assertions it has sent to the
    identity provider so far (the trace of the external call). *)
Record UserTokenManager : Type := {
  user_tokens : gmap string CachedToken;
  obo_requests : list string
}.

(** [cached.get('expires_at', 0) > now] *)
Definition unexpired (now : Q) (cached : CachedToken) : bool :=
  negb (Qle_bool (expires_at cached) now).

(** [UserTokenManager.exchange_for_databricks_token].  [now] is the
    clock when the cache is checked, [now'] the clock when a fresh token
    is cached, [acquire] the answer of the identity provider. *)
Definition exchange_for_databricks_token
    (now now' : Q) (acquire : string -> obo_result)
    (user_id user_token : string) (mgr : UserTokenManager)
  : option string * UserTokenManager :=
  let cached := user_tokens mgr !! user_id in
  if match cached with Some c => unexpired now c | None => false end
  then (token <$> cached, mgr)
  else
    let requests := obo_requests mgr ++ [user_token] in
    match acquire user_token with
    | OboToken access_token expires_in =>
        let expires_in := default 3600 expires_in in
        let entry := {| token := access_token;
                        expires_at := (now' + inject_Z expires_in - 60)%Q |} in
        (Some access_token,
         {| user_tokens := <[user_id := entry]> (user_tokens mgr);
            obo_requests := requests |})
    | OboError _ | OboRaised =>
        (None,
         {| user_tokens := user_tokens mgr; obo_requests := requests |})
    end.

(** [UserTokenManager.clear_user_token] *)
Definition clear_user_token (user_id : string) (mgr : UserTokenManager)
  : UserTokenManager :=
  {| user_tokens := delete user_id (user_tokens mgr);
     obo_requests := obo_requests mgr |}.

(** The call is answered from the cache. *)
Definition cache_hit (now : Q) (user_id : string) (mgr : UserTokenManager)
  : Prop :=
  exists c, user_tokens mgr !! user_id = Some c /\ (now < expires_at c)%Q.

(** The identity provider did not grant a token. *)
Definition obo_failed (r : obo_result) : Prop :=
  match r with OboToken _ _ => False | _ => True end.

End TokenCache.

(** ** Paginated table cards *)

Module Pagination.
Import Py ArtifactStore.

(** The JSON-like value an Adaptive Card is built from. *)
#[local] Unset Elimination Schemes.
Inductive json : Type :=
| JNull
| JBool (b : bool)
| JInt (n : Z)
| JStr (s : string)
| JList (items : list json)
| JObj (fields : list (string * json)).
#[local] Set Elimination Schemes.

Definition PAGE_SIZE : Z := 20.

(** The local variables of [create_paginated_card]. *)
Definition total_pages (total_rows page_size : Z) : Z :=
  Z.max 1 ((total_rows + page_size - 1) / page_size).

Definition clamp_page (page total_pages : Z) : Z :=
  Z.max 0 (Z.min page (total_pages - 1)).

Definition page_rows (all_rows : list (list cell)) (page page_size : Z)
  : list (list cell) :=
  let total_rows := len all_rows in
  let start_idx := page * page_size in
  let end_idx := Z.min (start_idx + page_size) total_rows in
  slice all_rows (Some start_idx) (Some end_idx).

(** ["-" if val is None else str(val)[:50] + ("..." if len(str(val)) > 50 else "")] *)
Definition display_val (val : cell) : string :=
  match val with
  | None => "-"
  | Some s =>
      str_slice s None (Some 50) +:+ (if 50 <? str_len s then "..." else "")
  end.

Definition text_block (t : string) (extra : list (string * json)) : json :=
  JObj ([("type", JStr "TextBlock"); ("text", JStr t)] ++ extra).

Definition table_cell (item : json) : json :=
  JObj [("type", JStr "TableCell"); ("items", JList [item])].

Definition opt_str (o : option string) : json :=
  match o with Some s => JStr s | None => JNull end.

(** [create_paginated_card]; [None] stands for the [ZeroDivisionError]
    of a zero [page_size]. *)
Definition create_paginated_card
    (result : QueryResult) (page page_size : Z) (result_id : option string)
  : option json :=
  if page_size =? 0 then None else
  let columns := columns result in
  let all_rows := data_rows result in
  let total_rows := len all_rows in
  let total_pages := total_pages total_rows page_size in
  let page := clamp_page page total_pages in
  let page_rows := page_rows all_rows page page_size in
  let header :=
    if 0 <? total_rows then
      [text_block
         ("Results: Page " +:+ str_of_int (page + 1) +:+ " of "
          +:+ str_of_int total_pages +:+ " (" +:+ str_of_int total_rows
          +:+ " total rows)")
         [("weight", JStr "Bolder"); ("size", JStr "Medium")]]
    else [] in
  let table :=
    match columns, page_rows with
    | _ :: _, _ :: _ =>
        let table_columns := map (fun _ => JObj [("width", JInt 1)]) columns in
        let header_cells :=
          map (fun col => table_cell
                 (text_block col [("weight", JStr "Bolder"); ("wrap", JBool true)]))
              columns in
        let data :=
          map (fun row =>
                 JObj [("type", JStr "TableRow");
                       ("cells",
                        JList (map (fun val => table_cell
                                      (text_block (display_val val)
                                                  [("wrap", JBool true)])) row))])
              page_rows in
        [JObj [("type", JStr "Table");
               ("columns", JList table_columns);
               ("rows", JList (JObj [("type", JStr "TableRow");
                                     ("cells", JList header_cells);
                                     ("style", JStr "accent")] :: data));
               ("gridStyle", JStr "accent");
               ("firstRowAsHeader", JBool true);
               ("showGridLines", JBool true);
               ("spacing", JStr "Medium")]]
    | _, _ => []
    end in
  let body := header ++ table in
  let action (title direction : string) (target : Z) :=
    JObj [("type", JStr "Action.Submit"); ("title", JStr title);
          ("data", JObj [("action", JStr "pagination");
                         ("direction", JStr direction);
                         ("page", JInt target);
                         ("result_id", opt_str result_id)])] in
  let actions :=
    (if 0 <? page then [action "< Previous" "prev" (page - 1)] else [])
    ++ (if page <? total_pages - 1 then [action "Next >" "next" (page + 1)] else []) in
  Some (JObj ([("$schema", JStr "http://adaptivecards.io/schemas/adaptive-card.json");
               ("type", JStr "AdaptiveCard");
               ("version", JStr "1.5");
               ("body", JList body);
               ("msteams", JObj [("width", JStr "Full")])]
              ++ match actions with
                 | [] => []
                 | _ => [("actions", JList actions)]
                 end)).

End Pagination.

(** ** The chart generator *)

Module Chart.
Import Py ArtifactStore.

(** The outcome of a block that runs under [try]: a value, or an
    exception on its way to the [except Exception] clause. *)
Inductive outcome (A : Type) : Type :=
| Return (a : A)
| Raise.
Arguments Return {A} a.
Arguments Raise {A}.

#[export] Instance outcome_bind : MBind outcome :=
  fun A B (k : A -> outcome B) (c : outcome A) =>
    match c with Return a => k a | Raise => Raise end.

(** [[f(x) for x in l]] where [f] can raise. *)
Fixpoint traverse {A B} (f : A -> outcome B) (l : list A) : outcome (list B) :=
  match l with
  | [] => Return []
  | x :: l' => y ← f x; ys ← traverse f l'; Return (y :: ys)
  end.

(** [row[i]]: an [IndexError] past the end. *)
Definition index {A} (row : list A) (i : nat) : outcome A :=
  match row !! i with Some a => Return a | None => Raise end.

(** [list.sort] is stable; [before a b] says that [a] has to come
    strictly before [b]. *)
Fixpoint insert_sorted {A} (before : A -> A -> bool) (x : A) (l : list A)
  : list A :=
  match l with
  | [] => [x]
  | y :: l' =>
      if before y x then y :: insert_sorted before x l' else x :: y :: l'
  end.

Fixpoint stable_sort {A} (before : A -> A -> bool) (l : list A) : list A :=
  match l with
  | [] => []
  | x :: l' => insert_sorted before x (stable_sort before l')
  end.

(** [x < y] on numbers.  A number is a rational: the finite values of a
    Python [float], compared exactly.  [nan], which compares false with
    everything, and the infinities have no counterpart. *)
Definition Qltb (x y : Q) : bool := negb (Qle_bool y x).

(** [paired.sort(key=lambda x: x[1], reverse=...)] on numeric values.
    With a [nan] among the values [list.sort] promises no order; that
    case is outside this definition. *)
Definition sort_by_value (reverse : bool) (paired : list (string * Q))
  : list (string * Q) :=
  stable_sort (fun a b => if reverse then Qltb b.2 a.2 else Qltb a.2 b.2)
              paired.

(** [sum(...)] of numbers, exact: it is the program's sum as long as no
    float addition rounds, as on integral values of moderate size. *)
Definition sum (l : list Q) : Q := fold_left Qplus l 0%Q.

Inductive chart_kind : Type := Bar | Line | Pie | Scatter | Area.

(** [ChartGenerator._get_column_index] *)
Fixpoint column_index_from (i : nat) (columns : list string)
    (col_name_lower : string) : option nat :=
  match columns with
  | [] => None
  | col :: columns' =>
      if String.eqb (lower col) col_name_lower then Some i
      else column_index_from (S i) columns' col_name_lower
  end.

Definition _get_column_index (columns : list string) (col_name : string)
  : option nat :=
  column_index_from 0 columns (lower col_name).

(** The first lines of the pie renderer: with more than [max_slices]
    categories, keep the largest [max_slices - 1] and add their
    remainder as ["Other"]. *)
Definition pie_slices (x_data : list string) (y_data : list Q)
  : list string * list Q :=
  let max_slices := 8 in
  if max_slices <? len x_data then
    let paired := sort_by_value true (zip x_data y_data) in
    let top_items := slice paired None (Some (max_slices - 1)) in
    let other_sum := sum (snd <$> slice paired (Some (max_slices - 1)) None) in
    ((fst <$> top_items) ++ ["Other"], (snd <$> top_items) ++ [other_sum])
  else (x_data, y_data).

(** The first lines of the bar renderer. *)
Definition bar_bars (x_data : list string) (y_data : list Q)
  : list string * list Q :=
  let max_bars := 15 in
  if max_bars <? len x_data
  then (slice x_data None (Some max_bars), slice y_data None (Some max_bars))
  else (x_data, y_data).

(** The effective axis names of a spec, as [generate] computes them. *)
Definition x_col (viz_spec : dict string) : string :=
  default "" (dict_get "x_axis" viz_spec).

Definition y_col (viz_spec : dict string) : string :=
  let y_col := default "" (dict_get "y_axis" viz_spec) in
  if contains_char "," y_col
  then strip (default "" (head (split "," y_col)))
  else y_col.

(** Some column equals [name] once both are lower-cased. *)
Definition matches_column (columns : list string) (name : string) : bool :=
  existsb (fun col => String.eqb (lower col) (lower name)) columns.

Section Generator.
(** [float(s)]: the number read, or [None] for a [ValueError].  A text
    that [float] reads as [nan] or as an infinity has no value here. *)
Variable float_of_string : string -> option Q.

(** The plotting library: figure, axes and PNG encoding of a prepared
    series; it returns the base64 text or raises. *)
Variable draw :
  chart_kind -> list string -> list Q -> string -> string -> string ->
  outcome string.

(** [ChartGenerator._to_numeric] on a cell.  The euro sign of the
    source's character class lies outside the code points modelled. *)
Definition _to_numeric (value : cell) : Q :=
  match value with
  | None => 0%Q
  | Some s =>
      let symbols := ["$"; ","; "163"; "%"]%char in
      let cleaned :=
        string_of_list_ascii
          (filter (fun a => negb (existsb (Ascii.eqb a) symbols))
                  (list_ascii_of_string s)) in
      default 0%Q (float_of_string cleaned)
  end.

(** The five renderers.  What they do before plotting is spelled out;
    the plotting itself is [draw]. *)
Definition _create_bar_chart
    (x_data : list string) (y_data : list Q) (title x_label y_label : string)
  : outcome string :=
  let '(x_data, y_data) := bar_bars x_data y_data in
  draw Bar x_data y_data title x_label y_label.

Definition _create_line_chart
    (x_data : list string) (y_data : list Q) (title x_label y_label : string)
  : outcome string :=
  draw Line x_data y_data title x_label y_label.

Definition _create_pie_chart
    (x_data : list string) (y_data : list Q) (title x_label y_label : string)
  : outcome string :=
  let '(x_data, y_data) := pie_slices x_data y_data in
  draw Pie x_data y_data title x_label y_label.

Definition _create_scatter_chart
    (x_data : list string) (y_data : list Q) (title x_label y_label : string)
  : outcome string :=
  draw Scatter x_data y_data title x_label y_label.

Definition _create_area_chart
    (x_data : list string) (y_data : list Q) (title x_label y_label : string)
  : outcome string :=
  draw Area x_data y_data title x_label y_label.

(** [chart_methods.get(chart_type, self._create_bar_chart)] *)
Definition chart_methods (chart_type : string)
  : list string -> list Q -> string -> string -> string -> outcome string :=
  if String.eqb chart_type "bar" then _create_bar_chart
  else if String.eqb chart_type "line" then _create_line_chart
  else if String.eqb chart_type "pie" then _create_pie_chart
  else if String.eqb chart_type "scatter" then _create_scatter_chart
  else if String.eqb chart_type "area" then _create_area_chart
  else _create_bar_chart.

(** The body of [generate], inside its [try]. *)
Definition generate_body (viz_spec : dict string) (columns : list string)
    (data_rows : list (list cell)) : outcome (option string) :=
  let chart_type := lower (default "bar" (dict_get "chart_type" viz_spec)) in
  let x_col := x_col viz_spec in
  let y_col := y_col viz_spec in
  let title := default "Chart" (dict_get "title" viz_spec) in
  let x_label := default x_col (dict_get "x_label" viz_spec) in
  let y_label := default y_col (dict_get "y_label" viz_spec) in
  let sort_order := lower (default "none" (dict_get "sort" viz_spec)) in
  match _get_column_index columns x_col, _get_column_index columns y_col with
  | Some x_idx, Some y_idx =>
      xs ← traverse (fun row => index row x_idx) data_rows;
      let x_data := omap id xs in
      ys ← traverse
              (fun row =>
                 x ← index row x_idx;
                 match x with
                 | Some _ => y ← index row y_idx; Return (Some (_to_numeric y))
                 | None => Return None
                 end) data_rows;
      let y_data := omap id ys in
      match x_data, y_data with
      | _ :: _, _ :: _ =>
          let '(x_data, y_data) :=
            if String.eqb sort_order "asc" || String.eqb sort_order "desc"
            then
              let paired :=
                sort_by_value (String.eqb sort_order "desc") (zip x_data y_data) in
              (fst <$> paired, snd <$> paired)
            else (x_data, y_data) in
          img ← chart_methods chart_type x_data y_data title x_label y_label;
          Return (Some img)
      | _, _ => Return None
      end
  | _, _ => Return None
  end.

(** [ChartGenerator.generate]: any exception becomes [None]. *)
Definition generate (viz_spec : dict string) (columns : list string)
    (data_rows : list (list cell)) : option string :=
  match generate_body viz_spec columns data_rows with
  | Return r => r
  | Raise => None
  end.
End Generator.

End Chart.

(** ** Regular expressions, as far as the parser uses them *)

Module Re.
Import Py.

(** The classes [.] (with or without [DOTALL]) and [\s]. *)
Inductive cls : Type :=
| Dot (dotall : bool)
| Space.

Definition cls_match (c : cls) (a : ascii) : bool :=
  match c with
  | Dot dotall => dotall || negb (Ascii.eqb a "010")
  | Space => is_space a
  end.

(** Patterns.  Repetition is only ever applied to a class; [c+] is
    [One c] followed by [Star c]; there is one capturing group. *)
Inductive regex : Type :=
| Eps
| Chr (a : ascii)
| One (c : cls)
| Star (c : cls) (lazy : bool)
| Group (r : regex)
| Ahead (r : regex)
| Alt (r1 r2 : regex)
| Cat (r1 r2 : regex)
| Eol.

(** A literal word. *)
Fixpoint lit (w : string) : regex :=
  match w with
  | EmptyString => Eps
  | String a w' => Cat (Chr a) (lit w')
  end.

(** [r1|r2|...]; the join of no alternative is the empty pattern. *)
Fixpoint alternatives (rs : list regex) : regex :=
  match rs with
  | [] => Eps
  | [r] => r
  | r :: rs' => Alt r (alternatives rs')
  end.

(** Literal comparison under [re.IGNORECASE]. *)
Definition chr_match (a b : ascii) : bool :=
  Ascii.eqb (lower_char a) (lower_char b).

(** [$] without [MULTILINE]: at the end, or before a final newline. *)
Definition at_end (s : string) : bool :=
  match s with
  | EmptyString => true
  | String a EmptyString => Ascii.eqb a "010"
  | _ => false
  end.

(** What a pattern consumed, between the input [s] it started on and
    the input [s'] it left. *)
Definition consumed (s s' : string) : string :=
  String.substring 0 (String.length s - String.length s') s.

Definition orelse {R} (x y : option R) : option R :=
  match x with Some _ => x | None => y end.

(** [c*] and [c*?] followed by [k]: the greedy star tries the longest
    run first, the lazy star the shortest. *)
Fixpoint star {R} (c : cls) (lazy : bool) (s : string)
    (k : string -> option R) : option R :=
  match s with
  | EmptyString => k s
  | String a s' =>
      if cls_match c a then
        if lazy then orelse (k s) (star c lazy s' k)
        else orelse (star c lazy s' k) (k s)
      else k s
  end.

(** Backtracking match of [r] at the start of [s], in the order of
    Python's engine, with [re.IGNORECASE]; [g] is the group captured so
    far, [k] what has to match after [r]. *)
Fixpoint exec (r : regex) {R : Type} (s : string) (g : option string)
    (k : string -> option string -> option R) {struct r} : option R :=
  match r with
  | Eps => k s g
  | Chr a =>
      match s with
      | String b s' => if chr_match a b then k s' g else None
      | EmptyString => None
      end
  | One c =>
      match s with
      | String b s' => if cls_match c b then k s' g else None
      | EmptyString => None
      end
  | Star c lazy => star c lazy s (fun s' => k s' g)
  | Group r1 => exec r1 s g (fun s' _ => k s' (Some (consumed s s')))
  | Ahead r1 =>
      match exec r1 s g (fun _ g' => Some g') with
      | Some g' => k s g'
      | None => None
      end
  | Alt r1 r2 => orelse (exec r1 s g k) (exec r2 s g k)
  | Cat r1 r2 => exec r1 s g (fun s' g' => exec r2 s' g' k)
  | Eol => if at_end s then k s g else None
  end.

(** A match: the text before it, its group, the text after it. *)
Record found : Type := {
  before : string;
  group1 : option string;
  after : string
}.

(** [r] matched at the start of [s]. *)
Definition match_here (r : regex) (s : string) : option (option string * string) :=
  exec r s None (fun s' g => Some (g, s')).

(** [re.search]: the match at the leftmost position that has one. *)
Fixpoint search (r : regex) (s : string) : option found :=
  match match_here r s with
  | Some (g, rest) =>
      Some {| before := EmptyString; group1 := g; after := rest |}
  | None =>
      match s with
      | EmptyString => None
      | String a s' =>
          match search r s' with
          | Some f => Some {| before := String a (before f);
                              group1 := group1 f; after := after f |}
          | None => None
          end
      end
  end.

(** [re.sub(r, '', s)] for a pattern whose matches are not empty:
    [skip] counts the characters still covered by the last match. *)
Fixpoint remove_all (r : regex) (skip : nat) (s : string) : string :=
  match s with
  | EmptyString => EmptyString
  | String a s' =>
      match skip with
      | S n => remove_all r n s'
      | O =>
          match match_here r s with
          | Some (_, rest) =>
              match (String.length s - String.length rest)%nat with
              | S n => remove_all r n s'
              | O => String a (remove_all r 0 s')
              end
          | None => String a (remove_all r 0 s')
          end
      end
  end.

(** [m.group(1)] of a pattern whose group takes part in every match. *)
Definition group (f : found) : string := default EmptyString (group1 f).

(** Every match of [r] covers at least one character and leaves a
    suffix of its input. *)
Definition consuming (r : regex) : Prop :=
  forall s g rest, match_here r s = Some (g, rest) ->
    exists p, p <> EmptyString /\ s = p +:+ rest.

(** [out] is [s] without its matches of [r], taken from left to right,
    each search resuming after the match before. *)
Inductive matches_removed (r : regex) : string -> string -> Prop :=
| removed_none s :
    search r s = None -> matches_removed r s s
| removed_next s m out :
    search r s = Some m -> matches_removed r (after m) out ->
    matches_removed r s (before m +:+ out).

End Re.

(** ** The visualization directive parser *)

Module VizParser.
Import Py Re.

(** [r'\[VIZ_START\](.*?)\[VIZ_END\]'] with [re.DOTALL | re.IGNORECASE] *)
Definition pattern : regex :=
  Cat (lit "[VIZ_START]")
      (Cat (Group (Star (Dot true) true)) (lit "[VIZ_END]")).

Definition known_fields : list string :=
  ["chart_type"; "x_label"; "y_label"; "x_axis"; "y_axis"; "title"; "sort"].

Definition required_fields : list string :=
  ["chart_type"; "x_axis"; "y_axis"].

(** [rf'{field}\s*:\s*(.+?)(?=\s+(?:{lookahead})\s*:|$)'] with
    [re.IGNORECASE] *)
Definition field_pattern (field : string) : regex :=
  let other_fields :=
    filter (fun f => negb (String.eqb f field)) known_fields in
  let lookahead := alternatives (lit <$> other_fields) in
  Cat (lit field)
    (Cat (Star Space false)
      (Cat (Chr ":")
        (Cat (Star Space false)
          (Cat (Group (Cat (One (Dot false)) (Star (Dot false) true)))
               (Ahead
                  (Alt (Cat (One Space)
                         (Cat (Star Space false)
                           (Cat lookahead
                             (Cat (Star Space false) (Chr ":")))))
                       Eol)))))).

(** [s] starts with a directive block: an opening marker, [body], a
    closing marker (markers in any letter case), and then [rest]. *)
Definition block_at (s body rest : string) : Prop :=
  exists o c, s = o +:+ body +:+ c +:+ rest
              /\ lower o = "[viz_start]" /\ lower c = "[viz_end]".

(** [m] is the first block of [text]: no block starts further left,
    and no block starting at the same place has a shorter body. *)
Definition is_first_block (text : string) (m : found) : Prop :=
  exists body q,
    group1 m = Some body
    /\ text = before m +:+ q
    /\ block_at q body (after m)
    /\ (forall body' rest', block_at q body' rest' ->
          (String.length body <= String.length body')%nat)
    /\ (forall p' q' body' rest', text = p' +:+ q' -> block_at q' body' rest' ->
          (String.length (before m) <= String.length p')%nat).

(** The loop over the lines of a block that contains a newline. *)
Definition parse_lines (viz_block : string) : dict string :=
  fold_left
    (fun spec line =>
       let line := strip line in
       if contains_char ":" line then
         match split_once ":" line with
         | Some (key, value) => dict_set (lower (strip key)) (strip value) spec
         | None => spec
         end
       else spec)
    (split "010" viz_block) [].

(** The loop over the known fields for a block on one line. *)
Definition parse_inline (viz_block : string) : dict string :=
  fold_left
    (fun spec field =>
       match search (field_pattern field) viz_block with
       | Some field_match => dict_set field (strip (group field_match)) spec
       | None => spec
       end)
    known_fields [].

(** The key/value pairs a block yields. *)
Definition parse_block (viz_block : string) : dict string :=
  if contains_char "010" viz_block
  then parse_lines viz_block
  else parse_inline viz_block.

Definition has_required (spec : dict string) : bool :=
  forallb (fun field => dict_mem field spec) required_fields.

(** [parse_viz_spec] *)
Definition parse_viz_spec (text : string) : option (dict string) * string :=
  match text with
  | EmptyString => (None, text)
  | _ =>
      match search pattern text with
      | None => (None, text)
      | Some m =>
          let viz_block := strip (group m) in
          let spec := parse_block viz_block in
          if has_required spec
          then (Some spec, strip (remove_all pattern 0 text))
          else (None, text)
      end
  end.

End VizParser.

(** ** Views of cards, rows and strings used in the statements *)

Module CardView.
Import Py Pagination.

(** [j[k]] on a JSON object. *)
Definition json_field (k : string) (j : json) : option json :=
  match j with
  | JObj fields => dict_get k fields
  | _ => None
  end.

(** The page a navigation button asks for: [action["data"]["page"]]. *)
Definition nav_target (action : json) : option Z :=
  match json_field "data" action with
  | Some data =>
      match json_field "page" data with
      | Some (JInt n) => Some n
      | _ => None
      end
  | None => None
  end.

(** The pages the buttons of a card lead to, in the order of the
    buttons. *)
Definition nav_targets (card : json) : list Z :=
  match json_field "actions" card with
  | Some (JList actions) => omap nav_target actions
  | _ => []
  end.

(** The elements of the body of a card: [card["body"]]. *)
Definition card_body (card : json) : list json :=
  match json_field "body" card with
  | Some (JList elements) => elements
  | _ => []
  end.

(** The text of a text block: [block["text"]]. *)
Definition block_text (block : json) : option string :=
  match json_field "text" block with
  | Some (JStr s) => Some s
  | _ => None
  end.

(** The texts a card shows outside its tables, from top to bottom. *)
Definition card_captions (card : json) : list string :=
  omap block_text (card_body card).

(** The texts of the cells of a table row, from left to right:
    [item["text"] for cell in row["cells"] for item in cell["items"]]. *)
Definition row_texts (row : json) : list string :=
  match json_field "cells" row with
  | Some (JList cells) =>
      flat_map (fun cell =>
                  match json_field "items" cell with
                  | Some (JList items) => omap block_text items
                  | _ => []
                  end) cells
  | _ => []
  end.

(** The rows of a table element, the header row first. *)
Definition table_texts (element : json) : option (list (list string)) :=
  match json_field "type" element, json_field "rows" element with
  | Some (JStr "Table"), Some (JList rows) => Some (row_texts <$> rows)
  | _, _ => None
  end.

(** The tables a card shows, from top to bottom. *)
Definition card_tables (card : json) : list (list (list string)) :=
  omap table_texts (card_body card).
End CardView.


Module ChartView.
Import Py ArtifactStore.

(** [row[x_idx] is not None], for a row that has an x cell. *)
Definition has_x (x_idx : nat) (row : list (option string)) : bool :=
  match row !! x_idx with Some (Some _) => true | _ => false end.

End ChartView.

Module StringView.
Import Py.

(** The string does not begin with whitespace. *)
Definition starts_clean (s : string) : Prop :=
  match s with EmptyString => True | String a _ => is_space a = false end.

End StringView.

(** ** The Genie client *)

Module Genie.
Import Py ArtifactStore.

Definition nl : string := String "010" EmptyString.
Definition dq : string := String "034" EmptyString.

(** What the SDK call followed by [_parse_response] comes to inside
    the [try] of [ask_question] and [follow_up]: the parsed result
    dictionary, or an exception with its [str(e)]. *)
Inductive reply : Type :=
| Parsed (result : QueryResult)
| Failed (str_e : string).

(** [f"{question}"]: the handler passes [activity.text], which is
    [None] for an activity without text. *)
Definition format_str (s : option string) : string := default "None" s.

(** [result["conversation_id"] = c], [result['text'] = t] and
    [result['viz_spec'] = v] *)
Definition set_conversation_id (c : option string) (r : QueryResult)
  : QueryResult :=
  {| text := text r; sql := sql r; columns := columns r;
     data_rows := data_rows r; conversation_id := c;
     suggested_questions := suggested_questions r;
     viz_spec := viz_spec r; error := error r |}.

Definition set_text (t : string) (r : QueryResult) : QueryResult :=
  {| text := t; sql := sql r; columns := columns r;
     data_rows := data_rows r; conversation_id := conversation_id r;
     suggested_questions := suggested_questions r;
     viz_spec := viz_spec r; error := error r |}.

Definition set_viz_spec (v : dict string) (r : QueryResult) : QueryResult :=
  {| text := text r; sql := sql r; columns := columns r;
     data_rows := data_rows r; conversation_id := conversation_id r;
     suggested_questions := suggested_questions r;
     viz_spec := Some v; error := error r |}.

(** The dictionary of the [except] branches. *)
Definition error_result (str_e : string) (c : option string) : QueryResult :=
  {| text := "Sorry, I encountered an error: " +:+ str_e;
     sql := None; columns := []; data_rows := [];
     conversation_id := c; suggested_questions := [];
     viz_spec := None; error := true |}.

Section Client.
(** The two calls of the SDK, by the content sent (and the
    conversation it is sent to). *)
Variable start_conversation_and_wait : string -> reply.
Variable create_message_and_wait : string -> string -> reply.

(** [GenieClient.ask_question] *)
Definition ask_question (question : option string) : QueryResult :=
  let question_with_viz :=
    format_str question +:+
    nl +:+ nl +:+
    "**IMPORTANT** Make sure to include [VIZ_START] visualization block in your response." in
  match start_conversation_and_wait question_with_viz with
  | Parsed result => result
  | Failed str_e => error_result str_e None
  end.

(** [GenieClient.follow_up] *)
Definition follow_up (conversation_id : string) (question : option string)
  : QueryResult :=
  let question_with_viz :=
    format_str question +:+
    nl +:+ nl +:+
    "Make sure to include [VIZ_START] visualization block in your response." in
  match create_message_and_wait conversation_id question_with_viz with
  | Parsed result => set_conversation_id (Some conversation_id) result
  | Failed str_e => error_result str_e (Some conversation_id)
  end.
End Client.

End Genie.

(** ** The bot: sessions, commands and queries *)

Module Bot.
Import Py ArtifactStore Pagination Chart VizParser Genie.

(** What a handler sends with [turn_context.send_activity]: a text
    message, a message with an Adaptive Card attached, the typing
    indicator, or the response to an invoke.  Sending is taken to
    succeed. *)
Inductive activity : Type :=
| Text (s : string)
| Card (content : json)
| Typing
| InvokeResponse (status : Z) (body : option json).

(** A call of the Genie client: the token its workspace client was
    built with, the conversation ([None] for [ask_question]) and the
    question. *)
Record request : Type := {
  bearer : string;
  conversation : option string;
  question : option string
}.

(** The fields of [GenieBot], the module-level [TOKEN_MANAGER], and
    the calls of the Genie client made so far.  The preferences hold
    Booleans: [show_sql] is the only option the program sets. *)
Record BotState : Type := {
  user_conversations : gmap string string;
  user_preferences : gmap string (gmap string bool);
  user_tokens : gmap string string;
  artifacts : GenieBot;
  TOKEN_MANAGER : option TokenCache.UserTokenManager;
  genie_requests : list request
}.

(** [GenieBot()] and [TOKEN_MANAGER], which exists when the app id and
    password are configured. *)
Definition start (configured : bool) : BotState :=
  {| user_conversations := ∅; user_preferences := ∅; user_tokens := ∅;
     artifacts := init;
     TOKEN_MANAGER :=
       if configured
       then Some {| TokenCache.user_tokens := ∅; TokenCache.obo_requests := [] |}
       else None;
     genie_requests := [] |}.

(** What a turn depends on outside the bot: the clock and the identity
    provider of the token exchange, the Genie service behind a client
    built with a given token, number parsing and plotting of the chart
    generator, [str.title], and the configured public URL. *)
Record Env : Type := {
  env_now : Q;
  env_now' : Q;
  env_acquire : string -> TokenCache.obo_result;
  env_start_conversation_and_wait : string -> string -> reply;
  env_create_message_and_wait : string -> string -> string -> reply;
  env_float : string -> option Q;
  env_draw :
    chart_kind -> list string -> list Q -> string -> string -> string ->
    outcome string;
  env_title : string -> string;
  BOT_PUBLIC_URL : string
}.

(** The truth value of an optional string: [None] and the empty
    string are false. *)
Definition truthy (s : option string) : option string :=
  match s with
  | Some ((String _ _) as v) => Some v
  | _ => None
  end.

(** The truth value of an optional dictionary: [None] and the empty
    dictionary are false. *)
Definition truthy_dict {V} (d : option (dict V)) : option (dict V) :=
  match d with
  | Some ((_ :: _) as v) => Some v
  | _ => None
  end.

Definition non_empty {A} (l : list A) : bool :=
  match l with [] => false | _ :: _ => true end.

Definition non_empty_str (s : string) : bool :=
  match s with EmptyString => false | String _ _ => true end.

Section Preferences.
Context {V : Type}.

(** [GenieBot._get_user_pref] *)
Definition _get_user_pref (user_preferences : gmap string (gmap string V))
    (user_id key : string) (default_value : V) : V :=
  default default_value (default ∅ (user_preferences !! user_id) !! key).

(** [GenieBot._set_user_pref] *)
Definition _set_user_pref (user_preferences : gmap string (gmap string V))
    (user_id key : string) (value : V) : gmap string (gmap string V) :=
  let user_preferences :=
    match user_preferences !! user_id with
    | None => <[user_id := ∅]> user_preferences
    | Some _ => user_preferences
    end in
  <[user_id := <[key := value]> (default ∅ (user_preferences !! user_id))]>
    user_preferences.
End Preferences.

(** [GenieBot._exchange_for_databricks_token] *)
Definition _exchange_for_databricks_token (env : Env)
    (user_id user_token : string)
    (manager : option TokenCache.UserTokenManager)
  : option string * option TokenCache.UserTokenManager :=
  match manager with
  | None => (None, None)
  | Some manager =>
      let '(databricks_token, manager) :=
        TokenCache.exchange_for_databricks_token
          (env_now env) (env_now' env) (env_acquire env)
          user_id user_token manager in
      (databricks_token, Some manager)
  end.

(** [GenieBot._create_signin_card] *)
Definition _create_signin_card : json :=
  JObj [("$schema", JStr "http://adaptivecards.io/schemas/adaptive-card.json");
        ("type", JStr "AdaptiveCard");
        ("version", JStr "1.5");
        ("body",
         JList [JObj [("type", JStr "TextBlock");
                      ("text", JStr "Authentication Required");
                      ("weight", JStr "Bolder");
                      ("size", JStr "Large")];
                JObj [("type", JStr "TextBlock");
                      ("text", JStr "Please sign in to access Databricks Genie and query your data.");
                      ("wrap", JBool true)];
                JObj [("type", JStr "TextBlock");
                      ("text", JStr "Your queries will run with your own identity and permissions.");
                      ("wrap", JBool true);
                      ("size", JStr "Small");
                      ("isSubtle", JBool true)]]);
        ("actions",
         JList [JObj [("type", JStr "Action.Submit");
                      ("title", JStr "Sign In");
                      ("data", JObj [("action", JStr "signin")])]]);
        ("msteams", JObj [("width", JStr "Full")])].

(** [create_chart_card]; [title_case] is [str.title]. *)
Definition create_chart_card (title_case : string -> string)
    (chart_image_base64 title result_id chart_type : string)
    (interactive_url : option string) : json :=
  let image_url := "data:image/png;base64," +:+ chart_image_base64 in
  let actions :=
    [JObj [("type", JStr "Action.Submit");
           ("title", JStr "View Data Table");
           ("data", JObj [("action", JStr "view_data");
                          ("result_id", JStr result_id)])]] in
  let actions :=
    match truthy interactive_url with
    | Some interactive_url =>
        JObj [("type", JStr "Action.OpenUrl");
              ("title", JStr "Open Interactive Chart");
              ("url", JStr interactive_url)] :: actions
    | None => actions
    end in
  JObj [("$schema", JStr "http://adaptivecards.io/schemas/adaptive-card.json");
        ("type", JStr "AdaptiveCard");
        ("version", JStr "1.5");
        ("body",
         JList [JObj [("type", JStr "TextBlock"); ("text", JStr title);
                      ("weight", JStr "Bolder"); ("size", JStr "Large");
                      ("wrap", JBool true)];
                JObj [("type", JStr "Image"); ("url", JStr image_url);
                      ("size", JStr "Stretch");
                      ("altText",
                       JStr (title_case chart_type +:+ " chart: " +:+ title))]]);
        ("actions", JList actions);
        ("msteams", JObj [("width", JStr "Full")])].

(** [create_paginated_card(result, page=page, result_id=result_id)]
    with the default page size, for which the card always exists. *)
Definition paginated_card (result : QueryResult) (page : Z)
    (result_id : option string) : json :=
  default JNull (create_paginated_card result page PAGE_SIZE result_id).

(** [message and message.lower().strip() in commands] *)
Definition said (message : option string) (commands : list string) : bool :=
  match truthy message with
  | Some message => bool_decide (strip (lower message) ∈ commands)
  | None => false
  end.

(** The fixed replies of [_handle_message]. *)
Definition authentication_error : string :=
  "**Authentication Error**" +:+ nl +:+ nl +:+
  "Failed to authenticate with Databricks. Please try signing in again.".

Definition new_conversation_started : string :=
  "**New conversation started!**" +:+ nl +:+ nl +:+
  "Ask me anything about your data.".

Definition sql_display_on : string :=
  "**SQL display is now ON.** Generated SQL queries will be shown.".

Definition sql_display_off : string :=
  "**SQL display is now OFF.** SQL queries will be hidden.".

Definition signed_out : string :=
  "**Signed out successfully.**" +:+ nl +:+ nl +:+
  "You'll need to sign in again to continue.".

Definition chart_note : string :=
  "_Note: Could not generate chart. Showing data table instead._".

Definition no_results : string :=
  "I processed your question but didn't find any results.".

(** The text of the [/help] reply. *)
Definition help_text (show_sql : bool) : string :=
  let sql_status := if show_sql then "ON" else "OFF" in
  "**Databricks Genie Bot Help**" +:+ nl +:+ nl +:+
  "I can answer questions about your data using natural language." +:+ nl +:+
  nl +:+ "**Commands:**" +:+ nl +:+
  "- Just type your question to ask about your data" +:+ nl +:+
  "- `/new` or `/reset` - Start a new conversation" +:+ nl +:+
  "- `/sql on` - Show generated SQL queries" +:+ nl +:+
  "- `/sql off` - Hide generated SQL queries" +:+ nl +:+
  "- `/help` - Show this help message" +:+ nl +:+ nl +:+
  "**Current Settings:** SQL display is **" +:+
  sql_status +:+
  "**" +:+ nl +:+ nl +:+ "**Tips:**" +:+ nl +:+
  "- Ask follow-up questions to refine your results" +:+ nl +:+
  "- Be specific about time periods, metrics, and filters".

(** The lines added for the suggested questions. *)
Definition try_asking (questions : list string) : string :=
  nl +:+ nl +:+ "---" +:+ nl +:+ "**Try asking:**" +:+
  String.concat EmptyString
    (imap (fun i question =>
             nl +:+ str_of_int (Z.of_nat i + 1) +:+ ". " +:+ question)
          questions).

(** The text message of an answer, if one is sent. *)
Definition text_response (clean_text : string) (result : QueryResult)
    (show_sql : bool) : option string :=
  if non_empty_str clean_text
     || non_empty (suggested_questions result)
  then
    let text_response := clean_text in
    let text_response :=
      if non_empty (suggested_questions result)
      then text_response +:+ try_asking (suggested_questions result)
      else text_response in
    let text_response :=
      match show_sql, truthy (sql result) with
      | true, Some sql =>
          text_response +:+
          nl +:+ nl +:+ "---" +:+ nl +:+ "**Generated SQL:**" +:+ nl +:+
          "```sql" +:+ nl +:+
          sql +:+ nl +:+ "```"
      | _, _ => text_response
      end in
    if non_empty_str (strip text_response) then Some text_response else None
  else None.


(** Assignments to the fields of the bot. *)
Definition set_user_conversations (c : gmap string string) (bot : BotState)
  : BotState :=
  {| user_conversations := c;
     user_preferences := user_preferences bot;
     user_tokens := user_tokens bot;
     artifacts := artifacts bot;
     TOKEN_MANAGER := TOKEN_MANAGER bot;
     genie_requests := genie_requests bot |}.

Definition set_user_preferences (p : gmap string (gmap string bool))
    (bot : BotState) : BotState :=
  {| user_conversations := user_conversations bot;
     user_preferences := p;
     user_tokens := user_tokens bot;
     artifacts := artifacts bot;
     TOKEN_MANAGER := TOKEN_MANAGER bot;
     genie_requests := genie_requests bot |}.

Definition set_user_tokens (t : gmap string string) (bot : BotState)
  : BotState :=
  {| user_conversations := user_conversations bot;
     user_preferences := user_preferences bot;
     user_tokens := t;
     artifacts := artifacts bot;
     TOKEN_MANAGER := TOKEN_MANAGER bot;
     genie_requests := genie_requests bot |}.

Definition set_artifacts (a : GenieBot) (bot : BotState) : BotState :=
  {| user_conversations := user_conversations bot;
     user_preferences := user_preferences bot;
     user_tokens := user_tokens bot;
     artifacts := a;
     TOKEN_MANAGER := TOKEN_MANAGER bot;
     genie_requests := genie_requests bot |}.

Definition set_TOKEN_MANAGER (m : option TokenCache.UserTokenManager)
    (bot : BotState) : BotState :=
  {| user_conversations := user_conversations bot;
     user_preferences := user_preferences bot;
     user_tokens := user_tokens bot;
     artifacts := artifacts bot;
     TOKEN_MANAGER := m;
     genie_requests := genie_requests bot |}.

Definition add_genie_request (r : request) (bot : BotState) : BotState :=
  {| user_conversations := user_conversations bot;
     user_preferences := user_preferences bot;
     user_tokens := user_tokens bot;
     artifacts := artifacts bot;
     TOKEN_MANAGER := TOKEN_MANAGER bot;
     genie_requests := genie_requests bot ++ [r] |}.

(** [self.user_tokens.pop(user_id, None)] followed by
    [if TOKEN_MANAGER: TOKEN_MANAGER.clear_user_token(user_id)] *)
Definition forget_tokens (user_id : string) (bot : BotState) : BotState :=
  set_TOKEN_MANAGER (TokenCache.clear_user_token user_id <$> TOKEN_MANAGER bot)
    (set_user_tokens (delete user_id (user_tokens bot)) bot).

(** The call of the Genie client in [_handle_message]: a follow-up in
    the conversation of the user if there is one, a new conversation
    otherwise. *)
Definition genie_answer (env : Env) (user_id databricks_token : string)
    (message : option string) (bot : BotState) : QueryResult :=
  match truthy (user_conversations bot !! user_id) with
  | Some genie_conversation_id =>
      follow_up (env_create_message_and_wait env databricks_token)
                genie_conversation_id message
  | None =>
      ask_question (env_start_conversation_and_wait env databricks_token)
                   message
  end.

(** The part of [_handle_message] after the commands.  The workspace
    client is taken to be constructed; [ask_question], [follow_up] and
    [generate] catch their own exceptions and the default page size is
    not zero, so nothing in the [try] raises. *)
Definition process_query (env : Env) (user_id databricks_token : string)
    (message : option string) (bot : BotState)
  : list activity * BotState :=
  let genie_conversation_id := truthy (user_conversations bot !! user_id) in
  let result := genie_answer env user_id databricks_token message bot in
  let conversations :=
    match truthy (conversation_id result), error result with
    | Some c, false => <[user_id := c]> (user_conversations bot)
    | _, _ => user_conversations bot
    end in
  let '(viz_spec, clean_text) := parse_viz_spec (text result) in
  let viz_spec := truthy_dict viz_spec in
  let result := set_text clean_text result in
  let has_data := non_empty (data_rows result) && non_empty (columns result) in
  let '(result, result_id, store) :=
    if has_data then
      let result :=
        match viz_spec with
        | Some spec => set_viz_spec spec result
        | None => result
        end in
      let '(result_id, store) := _store_result result (artifacts bot) in
      (result, truthy (Some result_id), store)
    else (result, None, artifacts bot) in
  let show_sql := _get_user_pref (user_preferences bot) user_id "show_sql" true in
  let text_sent :=
    match text_response clean_text result show_sql with
    | Some text_response => [Text text_response]
    | None => []
    end in
  let '(chart_sent, chart_generated) :=
    match viz_spec, has_data, result_id with
    | Some viz_spec, true, Some result_id =>
        let chart_image :=
          generate (env_float env) (env_draw env) viz_spec
                   (columns result) (data_rows result) in
        match truthy chart_image with
        | Some chart_image =>
            let chart_title := default "Query Results" (dict_get "title" viz_spec) in
            let chart_type := default "bar" (dict_get "chart_type" viz_spec) in
            let interactive_url :=
              BOT_PUBLIC_URL env +:+ "/interactive-chart/" +:+ result_id in
            ([Card (create_chart_card (env_title env) chart_image chart_title
                                      result_id chart_type
                                      (Some interactive_url))],
             true)
        | None =>
            ([Text chart_note], false)
        end
    | _, _, _ => ([], false)
    end in
  let table_sent :=
    match chart_generated, has_data, result_id with
    | false, true, Some result_id =>
        [Card (paginated_card result 0 (Some result_id))]
    | _, _, _ =>
        if negb (non_empty_str (text result))
           && negb (non_empty (data_rows result))
        then [Text no_results]
        else []
    end in
  (Typing :: text_sent ++ chart_sent ++ table_sent,
   add_genie_request
     {| bearer := databricks_token;
        conversation := genie_conversation_id;
        question := message |}
     (set_artifacts store (set_user_conversations conversations bot))).

(** The part of [_handle_message] after the token exchange: the
    commands, then the query. *)
Definition handle_authenticated (env : Env) (user_id databricks_token : string)
    (message : option string) (bot : BotState)
  : list activity * BotState :=
  if said message ["/new"; "/reset"; "new conversation"; "start over"] then
    ([Text new_conversation_started],
     set_user_conversations (delete user_id (user_conversations bot)) bot)
  else if said message ["/sql on"] then
    ([Text sql_display_on],
     set_user_preferences
       (_set_user_pref (user_preferences bot) user_id "show_sql" true) bot)
  else if said message ["/sql off"] then
    ([Text sql_display_off],
     set_user_preferences
       (_set_user_pref (user_preferences bot) user_id "show_sql" false) bot)
  else if said message ["/help"; "help"] then
    let show_sql := _get_user_pref (user_preferences bot) user_id "show_sql" true in
    ([Text (help_text show_sql)], bot)
  else if said message ["/signout"; "/logout"] then
    ([Text signed_out],
     set_user_conversations (delete user_id (user_conversations bot))
       (forget_tokens user_id bot))
  else process_query env user_id databricks_token message bot.

(** [GenieBot._handle_message] *)
Definition _handle_message (env : Env) (user_id : string)
    (message : option string) (bot : BotState)
  : list activity * BotState :=
  match truthy (user_tokens bot !! user_id) with
  | None => ([Card _create_signin_card], bot)
  | Some user_token =>
      let '(databricks_token, manager) :=
        _exchange_for_databricks_token env user_id user_token
                                       (TOKEN_MANAGER bot) in
      match truthy databricks_token with
      | None =>
          ([Text authentication_error; Card _create_signin_card],
           forget_tokens user_id (set_TOKEN_MANAGER manager bot))
      | Some databricks_token =>
          handle_authenticated env user_id databricks_token message
                               (set_TOKEN_MANAGER manager bot)
      end
  end.

(** The gate at the head of [_handle_message]: the Databricks token
    the turn goes on with and the token manager after the exchange, or
    [None] when the sender is sent back to sign in. *)
Definition authenticate (env : Env) (user_id : string) (bot : BotState)
  : option (string * option TokenCache.UserTokenManager) :=
  match truthy (user_tokens bot !! user_id) with
  | None => None
  | Some user_token =>
      let '(databricks_token, manager) :=
        _exchange_for_databricks_token env user_id user_token
                                       (TOKEN_MANAGER bot) in
      match truthy databricks_token with
      | None => None
      | Some databricks_token => Some (databricks_token, manager)
      end
  end.

(** The entry of the token manager for a user, when there is a
    manager and it holds one. *)
Definition cached_token (user_id : string) (bot : BotState)
  : option TokenCache.CachedToken :=
  TOKEN_MANAGER bot ≫= fun manager => TokenCache.user_tokens manager !! user_id.

(** What the session state of a running bot satisfies: the token
    manager exists exactly when it was configured; a Databricks token is
    cached only for users who hold a Teams token; no stored Teams token
    or conversation id is empty; Genie was never asked with an empty
    token; and without a token manager Genie was never asked, nothing
    was stored and no conversation exists. *)
Definition consistent (configured : bool) (bot : BotState) : Prop :=
  (is_Some (TOKEN_MANAGER bot) ↔ configured = true)
  ∧ (∀ u, is_Some (cached_token u bot) → is_Some (user_tokens bot !! u))
  ∧ (∀ u, user_tokens bot !! u ≠ Some EmptyString)
  ∧ (∀ u, user_conversations bot !! u ≠ Some EmptyString)
  ∧ (∀ req, req ∈ genie_requests bot → bearer req ≠ EmptyString)
  ∧ (configured = false →
       genie_requests bot = [] ∧ artifacts bot = init
       ∧ user_conversations bot = ∅).

(** Every command [_handle_message] knows. *)
Definition commands : list string :=
  ["/new"; "/reset"; "new conversation"; "start over"; "/sql on"; "/sql off";
   "/help"; "help"; "/signout"; "/logout"].

(** The cards among the activities sent. *)
Definition cards (sent : list activity) : list json :=
  omap (fun a => match a with Card content => Some content | _ => None end) sent.

(** [GenieBot._handle_token_exchange]: [user_id] is the sender of the
    activity, [token] and [id] are [value.get("token")] and
    [value.get("id")]. *)
Definition _handle_token_exchange (user_id token : option string)
    (id : option json) (bot : BotState) : list activity * BotState :=
  match truthy token, truthy user_id with
  | Some token, Some user_id =>
      ([InvokeResponse 200 (Some (JObj [("id", default JNull id)]));
        Text "You're now signed in. Ask me anything about your data!"],
       set_user_tokens (<[user_id := token]> (user_tokens bot)) bot)
  | _, _ =>
      ([InvokeResponse 400 (Some (JObj [("error", JStr "Token not provided")]))],
       bot)
  end.

Definition data_not_found : string :=
  "Sorry, I couldn't find the data. Please run the query again.".

Definition data_expired : string :=
  "Chart data has expired. Please run the query again.".

(** [GenieBot._handle_pagination]: [result_id] and [page] are
    [value.get("result_id")] and [value.get("page", 0)]. *)
Definition _handle_pagination (result_id : option string) (page : option Z)
    (bot : BotState) : list activity :=
  let page := default 0 page in
  match truthy result_id with
  | Some result_id =>
      match dict_get result_id (query_results (artifacts bot)) with
      | Some result => [Card (paginated_card result page (Some result_id))]
      | None => [Text data_not_found]
      end
  | None => [Text data_not_found]
  end.

(** [GenieBot._handle_view_data] *)
Definition _handle_view_data (result_id : option string) (bot : BotState)
  : list activity :=
  match truthy result_id with
  | Some result_id =>
      match dict_get result_id (query_results (artifacts bot)) with
      | Some result => [Card (paginated_card result 0 (Some result_id))]
      | None => [Text data_not_found]
      end
  | None => [Text data_not_found]
  end.

(** [GenieBot._handle_task_fetch]: [result_id], [url] and [title] are
    the entries of [data]. *)
Definition _handle_task_fetch (result_id url title : option string)
    (bot : BotState) : list activity :=
  let title := default "Interactive Chart" title in
  let response :=
    if match truthy result_id with
       | Some result_id => dict_mem result_id (query_results (artifacts bot))
       | None => false
       end
    then
      JObj [("task",
             JObj [("type", JStr "continue");
                   ("value",
                    JObj [("title", JStr title); ("height", JInt 600);
                          ("width", JInt 900); ("url", opt_str url)])])]
    else
      JObj [("task",
             JObj [("type", JStr "message");
                   ("value", JStr data_expired)])] in
  [InvokeResponse 200 (Some response)].

(** [GenieBot._handle_conversation_update]: one welcome per added
    member other than the bot itself. *)
Definition welcome_text : string :=
  "**Welcome to Databricks Genie Bot!**" +:+ nl +:+ nl +:+
  "I can help you explore and analyze your data using natural language." +:+
  nl +:+ nl +:+ "**Getting Started:**" +:+ nl +:+
  "1. Send any message to begin" +:+ nl +:+
  "2. You'll be asked to sign in (one-time)" +:+ nl +:+
  "3. Your queries will run with your own permissions" +:+ nl +:+ nl +:+
  "**Example questions:**" +:+ nl +:+ "- " +:+ dq +:+
  "What were our top 10 products last month?" +:+ dq +:+ nl +:+ "- " +:+
  dq +:+ "Show me sales by region" +:+ dq +:+ nl +:+ "- " +:+ dq +:+
  "Compare this quarter to last quarter" +:+ dq +:+ nl +:+ nl +:+
  "Type `/help` for more commands. Let's get started!".

Definition _handle_conversation_update (members_added : list string)
    (recipient : string) : list activity :=
  (fun _ => Text welcome_text)
    <$> filter (fun member => negb (String.eqb member recipient)) members_added.

(** What reaches the handlers of the bot. *)
Inductive event : Type :=
| MessageReceived (env : Env) (user_id : string) (message : option string)
| TokenExchange (user_id token : option string) (id : option json)
| PageRequested (result_id : option string) (page : option Z)
| DataRequested (result_id : option string)
| TaskFetched (result_id url title : option string)
| MembersAdded (members_added : list string) (recipient : string).

Definition handle (e : event) (bot : BotState) : list activity * BotState :=
  match e with
  | MessageReceived env user_id message => _handle_message env user_id message bot
  | TokenExchange user_id token id => _handle_token_exchange user_id token id bot
  | PageRequested result_id page => (_handle_pagination result_id page bot, bot)
  | DataRequested result_id => (_handle_view_data result_id bot, bot)
  | TaskFetched result_id url title =>
      (_handle_task_fetch result_id url title bot, bot)
  | MembersAdded members_added recipient =>
      (_handle_conversation_update members_added recipient, bot)
  end.

(** The bot after a sequence of events. *)
Definition after (events : list event) (bot : BotState) : BotState :=
  fold_left (fun bot e => (handle e bot).2) events bot.

End Bot.

(** ** The web endpoints for charts *)

Module Web.
Import Py ArtifactStore Chart.

Record Response : Type := {
  status : Z;
  body : string;
  content_type : option string;
  headers : list (string * string)
}.

(** A value of the y series: [float(...)], or the integer [0] appended
    when the cell is not a number. *)
Inductive number : Type :=
| Float (q : Q)
| Int (n : Z).

Definition number_value (n : number) : Q :=
  match n with Float q => q | Int n => inject_Z n end.

Section Endpoints.
(** [base64.b64decode], which raises on malformed input; [float];
    and [INTERACTIVE_CHART_TEMPLATE.format] over the title, the series
    (through [json.dumps]), the chart type and the two labels. *)
Variable b64decode : string -> option string.
Variable float_of_string : string -> option Q.
Variable format_template :
  string -> list string -> list number -> string -> string -> string -> string.

(** [serve_chart] *)
Definition serve_chart (chart_id : string) (bot : GenieBot) : Response :=
  match chart_id with
  | EmptyString =>
      {| status := 400; body := "Missing chart_id";
         content_type := None; headers := [] |}
  | _ =>
      match Bot.truthy (get_chart chart_id bot) with
      | None =>
          {| status := 404; body := "Chart not found";
             content_type := None; headers := [] |}
      | Some chart_base64 =>
          match b64decode chart_base64 with
          | Some chart_binary =>
              {| status := 200; body := chart_binary;
                 content_type := Some "image/png";
                 headers := [("Cache-Control", "public, max-age=3600")] |}
          | None =>
              {| status := 500; body := "Error serving chart";
                 content_type := None; headers := [] |}
          end
      end
  end.

(** [float(re.sub(r'[$,€£%]', '', str(val)))], or [0] on a
    [ValueError]; the euro sign lies outside the code points
    modelled. *)
Definition to_number (val : cell) : number :=
  let symbols := ["$"; ","; "163"; "%"]%char in
  let cleaned :=
    string_of_list_ascii
      (filter (fun a => negb (existsb (Ascii.eqb a) symbols))
              (list_ascii_of_string (default "None" val))) in
  match float_of_string cleaned with
  | Some q => Float q
  | None => Int 0
  end.

(** [interactive_chart]; [Raise] is the [IndexError] of a row that is
    too short, which the endpoint does not catch. *)
Definition interactive_chart (result_id : string) (bot : GenieBot)
  : outcome Response :=
  match result_id with
  | EmptyString =>
      Return {| status := 400; body := "Missing result_id";
                content_type := None; headers := [] |}
  | _ =>
      match dict_get result_id (query_results bot) with
      | None =>
          Return {| status := 404;
                    body := "<html><body><h1>Chart data not found</h1><p>The data may have expired. Please run the query again.</p></body></html>";
                    content_type := Some "text/html"; headers := [] |}
      | Some result =>
          let viz_spec := default [] (viz_spec result) in
          let columns := columns result in
          let data_rows := data_rows result in
          match columns, data_rows with
          | first :: others, _ :: _ =>
              let x_col := default first (dict_get "x_axis" viz_spec) in
              let y_col :=
                default (match others with second :: _ => second | [] => first end)
                        (dict_get "y_axis" viz_spec) in
              let y_col :=
                if contains_char "," y_col
                then strip (default "" (head (split "," y_col)))
                else y_col in
              let x_idx := default 0%nat (_get_column_index columns x_col) in
              let y_idx :=
                default (if 1 <? len columns then 1%nat else 0%nat)
                        (_get_column_index columns y_col) in
              xs ← traverse (fun row => index row x_idx) data_rows;
              let x_data := omap id xs in
              ys ← traverse
                      (fun row =>
                         x ← index row x_idx;
                         match x with
                         | Some _ =>
                             y ← index row y_idx; Return (Some (to_number y))
                         | None => Return None
                         end) data_rows;
              let y_data := omap id ys in
              Return
                {| status := 200;
                   body :=
                     format_template
                       (default "Query Results" (dict_get "title" viz_spec))
                       x_data y_data
                       (default "bar" (dict_get "chart_type" viz_spec))
                       (default x_col (dict_get "x_label" viz_spec))
                       (default y_col (dict_get "y_label" viz_spec));
                   content_type := Some "text/html"; headers := [] |}
          | _, _ =>
              Return {| status := 400;
                        body := "<html><body><h1>No data available</h1></body></html>";
                        content_type := Some "text/html"; headers := [] |}
          end
      end
  end.
End Endpoints.

End Web.

(** ** Sample values *)

Module Examples.
Import Py ArtifactStore Pagination Chart Genie Bot.

(** An answer with a table and a chart directive. *)
Definition sales_answer : QueryResult :=
  {| text := "Sales by region [VIZ_START] chart_type: bar x_axis: Region y_axis: Sales title: Sales [VIZ_END]";
     sql := Some "SELECT region, sales FROM t";
     columns := ["Region"; "Sales"];
     data_rows := [[Some "East"; Some "10"]; [Some "West"; Some "20"]];
     conversation_id := Some "conv-1";
     suggested_questions := ["Which region grew fastest?"];
     viz_spec := None; error := false |}.

(** A turn in which the identity provider grants a token, Genie
    answers every question with [sales_answer], and the plotting
    library returns an image. *)
Definition granting_env : Env :=
  {| env_now := 1000; env_now' := 1001;
     env_acquire := fun t => TokenCache.OboToken ("dbx-" +:+ t) (Some 3600);
     env_start_conversation_and_wait := fun _ _ => Parsed sales_answer;
     env_create_message_and_wait := fun _ _ _ => Parsed sales_answer;
     env_float :=
       fun s => if String.eqb s "10" then Some 10%Q
                else if String.eqb s "20" then Some 20%Q else None;
     env_draw := fun _ _ _ _ _ _ => Return "iVBORw0KGgo=";
     env_title := fun s => s;
     BOT_PUBLIC_URL := "https://bot.example" |}.

(** [sales_answer] as [_handle_message] stores it. *)
Definition stored_sales_answer : QueryResult :=
  {| text := "Sales by region";
     sql := Some "SELECT region, sales FROM t";
     columns := ["Region"; "Sales"];
     data_rows := [[Some "East"; Some "10"]; [Some "West"; Some "20"]];
     conversation_id := Some "conv-1";
     suggested_questions := ["Which region grew fastest?"];
     viz_spec :=
       Some [("chart_type", "bar"); ("x_axis", "Region"); ("y_axis", "Sales");
             ("title", "Sales")];
     error := false |}.

(** A turn in which the identity provider refuses. *)
Definition refusing_env : Env :=
  {| env_now := 5000; env_now' := 5001;
     env_acquire := fun _ => TokenCache.OboError "invalid_grant";
     env_start_conversation_and_wait := fun _ _ => Failed "unreachable";
     env_create_message_and_wait := fun _ _ _ => Failed "unreachable";
     env_float := fun _ => None;
     env_draw := fun _ _ _ _ _ _ => Raise;
     env_title := fun s => s;
     BOT_PUBLIC_URL := "https://bot.example" |}.

(** A bot with two users signed in to Teams; one has a conversation,
    the other a preference and a cached Databricks token. *)
Definition two_users : BotState :=
  {| user_conversations := {["ann" := "c-1"; "bob" := "c-2"]};
     user_preferences := {["bob" := {["show_sql" := false]}]};
     user_tokens := {["ann" := "teams-ann"; "bob" := "teams-bob"]};
     artifacts := init;
     TOKEN_MANAGER :=
       Some {| TokenCache.user_tokens :=
                 {["bob" := {| TokenCache.token := "dbx-bob";
                               TokenCache.expires_at := 5000 |}]};
               TokenCache.obo_requests := ["teams-bob"] |};
     genie_requests := [] |}.

(** A bot with one user signed in to Teams and nothing else. *)
Definition signed_in : BotState :=
  {| user_conversations := ∅;
     user_preferences := ∅;
     user_tokens := {["ann" := "teams-ann"]};
     artifacts := init;
     TOKEN_MANAGER :=
       Some {| TokenCache.user_tokens := ∅; TokenCache.obo_requests := [] |};
     genie_requests := [] |}.

(** The bot after a user signed in and asked one question. *)
Definition after_first_answer : BotState :=
  after [TokenExchange (Some "ann") (Some "teams-ann") None;
         MessageReceived granting_env "ann" (Some "show sales")]
        (start true).

End Examples.

(* ===================================================================== *)
(** * Properties *)

(** ** Facts about the Python built-ins *)

Module PyFacts.
Import Py.

Lemma str_of_int_inj : Inj (=) (=) str_of_int.
Proof.
  intros a b Hab. unfold str_of_int in Hab.
  assert (Hi : Z.to_int a = Z.to_int b).
  { apply (f_equal NilEmpty.int_of_string) in Hab.
    rewrite !NilEmpty.isi in Hab. congruence. }
  apply (f_equal Z.of_int) in Hi. by rewrite !DecimalZ.of_to in Hi.
Qed.

Lemma slice_drop_last {A} (l : list A) (c : nat) :
  slice l None (Some (- Z.of_nat (S c))) = take (length l - S c) l.
Proof.
  unfold slice, slice_index, len.
  replace (- Z.of_nat (S c) <? 0) with true by (symmetry; apply Z.ltb_lt; lia).
  simpl drop. f_equal. lia.
Qed.

Section DictFacts.
Context {V : Type}.
Implicit Types (d : dict V) (k : string) (v : V).

Lemma dict_get_None k d : k ∉ dict_keys d → dict_get k d = None.
Proof.
  induction d as [|[k' v'] d IH]; simpl; [done|].
  intros Hk. apply not_elem_of_cons in Hk as [Hne Hk].
  destruct (String.eqb_spec k k'); [done|]. by apply IH.
Qed.

Lemma dict_get_Some k d : k ∈ dict_keys d → is_Some (dict_get k d).
Proof.
  induction d as [|[k' v'] d IH]; simpl.
  - intros H. by apply elem_of_nil in H.
  - intros Hk. destruct (String.eqb_spec k k'); [by eexists|].
    apply elem_of_cons in Hk as [?|?]; [done|]. by apply IH.
Qed.

Lemma dict_get_lookup (i : nat) k v d :
  NoDup (dict_keys d) → d !! i = Some (k, v) → dict_get k d = Some v.
Proof.
  revert i. induction d as [|[k' v'] d IH]; intros i Hnd Hi; [done|].
  simpl in Hnd. apply NoDup_cons in Hnd as [Hk' Hnd]. simpl.
  destruct i as [|i]; simpl in Hi.
  - injection Hi as -> ->. by rewrite String.eqb_refl.
  - destruct (String.eqb_spec k k') as [->|_]; [|by eapply IH].
    exfalso. apply Hk'. apply list_elem_of_fmap. exists (k', v).
    split; [done|]. by eapply list_elem_of_lookup_2.
Qed.

(** Setting a key that is not yet present appends the entry. *)
Lemma dict_set_fresh k v d :
  k ∉ dict_keys d → dict_set k v d = d ++ [(k, v)].
Proof.
  induction d as [|[k' v'] d IH]; simpl; [done|].
  intros Hk. apply not_elem_of_cons in Hk as [Hne Hk].
  destruct (String.eqb_spec k k'); [done|]. by rewrite IH.
Qed.

Lemma dict_del_head k v d : dict_del k ((k, v) :: d) = d.
Proof. simpl. by rewrite String.eqb_refl. Qed.

(** Deleting the first [m] keys, one after the other, drops the
    first [m] entries. *)
Lemma dict_del_all_take (m : nat) d :
  dict_del_all (take m (dict_keys d)) d = drop m d.
Proof.
  revert d. induction m as [|m IH]; intros d; [done|].
  destruct d as [|[k v] d]; [done|].
  unfold dict_del_all. simpl. rewrite String.eqb_refl. apply IH.
Qed.

(** The body shared by [_store_result] and [store_chart], for a key
    that is new: append, then cut down to the capacity. *)
Lemma put_then_trim (cap : nat) k v d :
  k ∉ dict_keys d →
  (let stored := dict_set k v d in
   if Z.of_nat (S cap) <? len stored
   then dict_del_all
          (slice (dict_keys stored) None (Some (- Z.of_nat (S cap)))) stored
   else stored)
  = drop (length d + 1 - S cap) (d ++ [(k, v)]).
Proof.
  intros Hk. cbv zeta. rewrite (dict_set_fresh _ _ _ Hk).
  unfold len. rewrite length_app. simpl length.
  destruct (Z.ltb_spec (Z.of_nat (S cap)) (Z.of_nat (length d + 1))) as [Hlt|Hge].
  - rewrite slice_drop_last. unfold dict_keys. rewrite length_fmap, length_app.
    simpl length. apply dict_del_all_take.
  - replace (length d + 1 - S cap)%nat with 0%nat by lia. done.
Qed.
End DictFacts.

End PyFacts.

(** ** The artifact stores *)

Module ArtifactStoreFacts.
Import Py PyFacts ArtifactStore.

#[local] Instance result_id_of_inj : Inj (=) (=) result_id_of.
Proof.
  intros a b H. unfold result_id_of in H.
  apply String.app_inj in H. by apply str_of_int_inj.
Qed.

#[local] Instance chart_id_of_inj : Inj (=) (=) chart_id_of.
Proof.
  intros a b H. unfold chart_id_of in H.
  apply String.app_inj in H. by apply str_of_int_inj.
Qed.

Lemma counters_after_S c n :
  counters_after c (S n) = (c + 1) :: counters_after (c + 1) n.
Proof.
  unfold counters_after. rewrite seqZ_cons by lia.
  f_equal. f_equal; lia.
Qed.

Lemma counters_after_snoc c n :
  counters_after c (S n) = counters_after c n ++ [c + Z.of_nat n + 1].
Proof.
  unfold counters_after. rewrite seqZ_S. do 2 f_equal. lia.
Qed.

Lemma length_counters_after c n : length (counters_after c n) = n.
Proof. unfold counters_after. rewrite length_seqZ. lia. Qed.

Lemma elem_of_counters_after c n k :
  k ∈ counters_after c n ↔ c < k ≤ c + Z.of_nat n.
Proof. unfold counters_after. rewrite elem_of_seqZ. lia. Qed.

Section Retained.
Context {V : Type}.
Implicit Types h : dict V.

Lemma length_retained (cap : nat) h :
  length (retained cap h) = (length h `min` cap)%nat.
Proof. unfold retained. rewrite length_drop. lia. Qed.

Lemma keys_retained (cap : nat) h :
  dict_keys (retained cap h) = drop (length h - cap) (dict_keys h).
Proof. unfold retained, dict_keys. by rewrite fmap_drop. Qed.

(** One more put on a store that holds the [S cap] most recent
    entries leaves it holding the [S cap] most recent entries. *)
Lemma retained_snoc (cap : nat) h e :
  drop (length (retained (S cap) h) + 1 - S cap) (retained (S cap) h ++ [e])
  = retained (S cap) (h ++ [e]).
Proof.
  rewrite length_retained. unfold retained.
  rewrite length_app. simpl.
  destruct (decide (length h < S cap)%nat) as [Hlt|Hge].
  - replace (length h - S cap)%nat with 0%nat by lia.
    replace (length h `min` S cap + 1 - S cap)%nat with 0%nat by lia.
    replace (length h + 1 - S cap)%nat with 0%nat by lia. done.
  - replace (length h `min` S cap + 1 - S cap)%nat with 1%nat by lia.
    replace (length h + 1 - S cap)%nat with (S (length h - S cap)) by lia.
    rewrite !drop_app_le by (rewrite ?length_drop; lia).
    by rewrite drop_drop, Nat.add_1_r.
Qed.

(** An entry that fell out of the retained window cannot be read
    back; one inside it can. *)
Lemma retained_get_evicted (cap i : nat) h k :
  NoDup (dict_keys h) → dict_keys h !! i = Some k →
  (i < length h - cap)%nat → dict_get k (retained cap h) = None.
Proof.
  intros Hnd Hi Hlt. apply dict_get_None. rewrite keys_retained.
  intros [j Hj]%list_elem_of_lookup_1. rewrite lookup_drop in Hj.
  pose proof (NoDup_lookup _ _ _ _ Hnd Hi Hj). lia.
Qed.

Lemma retained_get_kept (cap i : nat) h k v :
  NoDup (dict_keys h) → h !! i = Some (k, v) →
  (length h - cap ≤ i)%nat → dict_get k (retained cap h) = Some v.
Proof.
  intros Hnd Hi Hle. apply (dict_get_lookup (i - (length h - cap))).
  - rewrite keys_retained. eapply sublist_NoDup; [done|apply sublist_drop].
  - unfold retained. rewrite lookup_drop. rewrite <- Hi. f_equal. lia.
Qed.
End Retained.

(** *** One call *)

Lemma _store_result_fresh r bot :
  let c := _result_counter bot + 1 in
  let d := query_results bot in
  result_id_of c ∉ dict_keys d →
  _store_result r bot =
    (result_id_of c,
     {| query_results := drop (length d + 1 - 50) (d ++ [(result_id_of c, r)]);
        _result_counter := c;
        chart_images := chart_images bot;
        _chart_counter := _chart_counter bot |}).
Proof.
  intros c d Hfresh. unfold _store_result. fold c d. do 2 f_equal.
  exact (put_then_trim 49 _ _ _ Hfresh).
Qed.

Lemma store_chart_fresh img bot :
  let c := _chart_counter bot + 1 in
  let d := chart_images bot in
  chart_id_of c ∉ dict_keys d →
  store_chart img bot =
    (chart_id_of c,
     {| query_results := query_results bot;
        _result_counter := _result_counter bot;
        chart_images := drop (length d + 1 - 100) (d ++ [(chart_id_of c, img)]);
        _chart_counter := c |}).
Proof.
  intros c d Hfresh. unfold store_chart. fold c d. do 2 f_equal.
  exact (put_then_trim 99 _ _ _ Hfresh).
Qed.

(** *** Runs of calls *)

Lemma run_snoc calls call bot :
  run (calls ++ [call]) bot =
    (let '(log, bot') := run calls bot in
     let '(i, bot'') := put call bot' in
     (log ++ [(call, i)], bot'')).
Proof.
  revert bot. induction calls as [|c0 calls IH]; intros bot; cbn [run app].
  - by destruct (put call bot).
  - destruct (put c0 bot) as [i0 bot0]. rewrite IH.
    destruct (run calls bot0) as [log bot1].
    by destruct (put call bot1).
Qed.

(** The ids handed out by each store follow its counter and nothing
    else. *)
Lemma run_ids calls bot :
  let log := (run calls bot).1 in
  let bot' := (run calls bot).2 in
  (dict_keys (results_put log)
     = result_id_of <$> counters_after (_result_counter bot) (length (results_put log))
   ∧ _result_counter bot' = _result_counter bot + Z.of_nat (length (results_put log)))
  ∧ (dict_keys (charts_put log)
     = chart_id_of <$> counters_after (_chart_counter bot) (length (charts_put log))
   ∧ _chart_counter bot' = _chart_counter bot + Z.of_nat (length (charts_put log))).
Proof.
  revert bot. induction calls as [|call calls IH]; intros bot.
  - simpl. split; (split; [done|lia]).
  - cbn [run]. destruct (put call bot) as [i bot0] eqn:Hput.
    specialize (IH bot0). destruct (run calls bot0) as [log bot1].
    cbn [fst snd] in *. destruct IH as [[IHr1 IHr2] [IHc1 IHc2]].
    destruct call as [r|c]; cbn [put] in Hput.
    + unfold _store_result in Hput. injection Hput as <- <-.
      cbn [_result_counter _chart_counter] in *.
      unfold results_put, charts_put, dict_keys in *.
      cbn [omap list_omap fmap list_fmap length].
      fold (results_put log) in *. fold (charts_put log) in *.
      rewrite counters_after_S.
      split; (split; [|lia]); [|done]. cbn [fmap list_fmap]. by f_equal.
    + unfold store_chart in Hput. injection Hput as <- <-.
      cbn [_result_counter _chart_counter] in *.
      unfold results_put, charts_put, dict_keys in *.
      cbn [omap list_omap fmap list_fmap length].
      fold (results_put log) in *. fold (charts_put log) in *.
      rewrite counters_after_S.
      split; (split; [|lia]); [done|]. cbn [fmap list_fmap]. by f_equal.
Qed.

Lemma NoDup_result_ids c n : NoDup (result_id_of <$> counters_after c n).
Proof. apply NoDup_fmap_2; [apply _|apply NoDup_seqZ]. Qed.

Lemma NoDup_chart_ids c n : NoDup (chart_id_of <$> counters_after c n).
Proof. apply NoDup_fmap_2; [apply _|apply NoDup_seqZ]. Qed.

Lemma next_result_id_fresh c n (l : list string) :
  l `sublist_of` (result_id_of <$> counters_after c n) →
  result_id_of (c + Z.of_nat n + 1) ∉ l.
Proof.
  intros Hsub Hin. eapply elem_of_sublist in Hin; [|done].
  apply list_elem_of_fmap in Hin as (k & Hk%(inj _) & Hin).
  apply elem_of_counters_after in Hin. lia.
Qed.

Lemma next_chart_id_fresh c n (l : list string) :
  l `sublist_of` (chart_id_of <$> counters_after c n) →
  chart_id_of (c + Z.of_nat n + 1) ∉ l.
Proof.
  intros Hsub Hin. eapply elem_of_sublist in Hin; [|done].
  apply list_elem_of_fmap in Hin as (k & Hk%(inj _) & Hin).
  apply elem_of_counters_after in Hin. lia.
Qed.

(** Starting from a fresh bot, each store holds the most recent
    entries of its own history, whatever the interleaving of puts. *)
Lemma run_init_contents calls :
  let log := (run calls init).1 in
  let bot := (run calls init).2 in
  query_results bot = retained 50 (results_put log)
  ∧ chart_images bot = retained 100 (charts_put log).
Proof.
  induction calls as [|call calls IH] using rev_ind; [done|].
  pose proof (run_ids calls init) as Hids.
  rewrite run_snoc. destruct (run calls init) as [log bot].
  cbn [fst snd] in *. cbv zeta in Hids.
  destruct IH as [IHr IHc]. destruct Hids as [[Hrk Hrc] [Hck Hcc]].
  cbn [init _result_counter _chart_counter] in *.
  destruct call as [r|c]; cbn [put].
  - rewrite _store_result_fresh; cbn [fst snd query_results chart_images].
    + rewrite IHr, retained_snoc. unfold results_put, charts_put.
      rewrite !omap_app. cbn [omap list_omap]. by rewrite app_nil_r.
    + rewrite Hrc, IHr, keys_retained, Hrk.
      apply next_result_id_fresh, sublist_drop.
  - rewrite store_chart_fresh; cbn [fst snd query_results chart_images].
    + rewrite IHc, retained_snoc. unfold results_put, charts_put.
      rewrite !omap_app. cbn [omap list_omap]. by rewrite app_nil_r.
    + rewrite Hcc, IHc, keys_retained, Hck.
      apply next_chart_id_fresh, sublist_drop.
Qed.

(** C1.  After any sequence of [_store_result] and [store_chart] calls
    on a fresh bot, the result store holds exactly the 50 most recently
    put results (all of them while there are at most 50) and the chart
    store the 100 most recently put charts, in insertion order, the n-th
    entry of a store being kept under the id numbered n; reading the id
    of an entry put earlier than those returns [None], and reading the id
    of a retained entry returns that entry. *)
Theorem artifact_store_fifo_bound (calls : list put_call) :
  let log := (run calls init).1 in
  let bot := (run calls init).2 in
  let rh := results_put log in
  let ch := charts_put log in
  (dict_keys rh = result_id_of <$> counters_after 0 (length rh)
   ∧ query_results bot = retained 50 rh
   ∧ length (query_results bot) = (length rh `min` 50)%nat
   ∧ (∀ (i : nat) rid, dict_keys rh !! i = Some rid →
        (i < length rh - 50)%nat → get_result rid bot = None)
   ∧ (∀ (i : nat) rid r, rh !! i = Some (rid, r) →
        (length rh - 50 ≤ i)%nat → get_result rid bot = Some r))
  ∧ (dict_keys ch = chart_id_of <$> counters_after 0 (length ch)
     ∧ chart_images bot = retained 100 ch
     ∧ length (chart_images bot) = (length ch `min` 100)%nat
     ∧ (∀ (i : nat) cid, dict_keys ch !! i = Some cid →
          (i < length ch - 100)%nat → get_chart cid bot = None)
     ∧ (∀ (i : nat) cid c, ch !! i = Some (cid, c) →
          (length ch - 100 ≤ i)%nat → get_chart cid bot = Some c)).
Proof.
  intros log bot rh ch.
  destruct (run_init_contents calls) as [Hr Hc].
  destruct (run_ids calls init) as [[Hrk _] [Hck _]].
  fold log bot in Hr, Hc, Hrk, Hck. fold rh in Hr, Hrk. fold ch in Hc, Hck.
  assert (Hrnd : NoDup (dict_keys rh)) by (rewrite Hrk; apply NoDup_result_ids).
  assert (Hcnd : NoDup (dict_keys ch)) by (rewrite Hck; apply NoDup_chart_ids).
  unfold get_result, get_chart. rewrite Hr, Hc. repeat split.
  - done.
  - apply length_retained.
  - intros i rid Hi Hlt. by eapply retained_get_evicted.
  - intros i rid r Hi Hle. by eapply retained_get_kept.
  - done.
  - apply length_retained.
  - intros i cid Hi Hlt. by eapply retained_get_evicted.
  - intros i cid c Hi Hle. by eapply retained_get_kept.
Qed.

Lemma artifact_store_fifo_bound_witness :
  let r := {| text := "Here's what I found:"; sql := None;
              columns := ["n"]; data_rows := [[Some "1"]];
              conversation_id := None; suggested_questions := [];
              viz_spec := None; error := false |} in
  let calls := replicate 51 (PutResult r) ++ replicate 101 (PutChart "iVBORw0KGgo=") in
  let bot := (run calls init).2 in
  (length (query_results bot) = 50%nat
   ∧ get_result "result_1" bot = None
   ∧ get_result "result_2" bot = Some r
   ∧ get_result "result_51" bot = Some r)
  ∧ (length (chart_images bot) = 100%nat
     ∧ get_chart "chart_1" bot = None
     ∧ get_chart "chart_2" bot = Some "iVBORw0KGgo="
     ∧ get_chart "chart_101" bot = Some "iVBORw0KGgo=").
Proof.
  intros r calls bot.
  pose proof (artifact_store_fifo_bound calls) as H. cbv zeta in H.
  destruct H as [(_ & _ & Hrl & Hre & Hrk) (_ & _ & Hcl & Hce & Hck)].
  fold bot in Hrl, Hre, Hrk, Hcl, Hce, Hck.
  split; (split; [|split; [|split]]).
  - rewrite Hrl. vm_compute. reflexivity.
  - apply (Hre 0%nat); vm_compute; [reflexivity|lia].
  - apply (Hrk 1%nat); vm_compute; [reflexivity|lia].
  - apply (Hrk 50%nat); vm_compute; [reflexivity|lia].
  - rewrite Hcl. vm_compute. reflexivity.
  - apply (Hce 0%nat); vm_compute; [reflexivity|lia].
  - apply (Hck 1%nat); vm_compute; [reflexivity|lia].
  - apply (Hck 100%nat); vm_compute; [reflexivity|lia].
Defined.

(** C2.  From any state of the bot and for any sequence of puts, the
    ids handed out by each store are the store's prefix followed by the
    successive counter values: the counter value behind a later id is
    strictly greater than the one behind an earlier id, and no id occurs
    twice in the whole history, evicted entries included. *)
Theorem artifact_ids_strictly_increasing (calls : list put_call) (bot : GenieBot) :
  let log := (run calls bot).1 in
  let rids := dict_keys (results_put log) in
  let cids := dict_keys (charts_put log) in
  (NoDup rids
   ∧ ∀ (i j : nat) a b, rids !! i = Some a → rids !! j = Some b → (i < j)%nat →
       ∃ m n, a = result_id_of m ∧ b = result_id_of n
              ∧ _result_counter bot < m < n ∧ a ≠ b)
  ∧ (NoDup cids
     ∧ ∀ (i j : nat) a b, cids !! i = Some a → cids !! j = Some b → (i < j)%nat →
         ∃ m n, a = chart_id_of m ∧ b = chart_id_of n
                ∧ _chart_counter bot < m < n ∧ a ≠ b).
Proof.
  intros log rids cids.
  destruct (run_ids calls bot) as [[Hrk _] [Hck _]].
  fold log in Hrk, Hck. fold rids in Hrk. fold cids in Hck.
  split; split.
  - rewrite Hrk. apply NoDup_result_ids.
  - rewrite Hrk. intros i j a b Hi Hj Hij.
    apply list_lookup_fmap_Some in Hi as (m & -> & Hm).
    apply list_lookup_fmap_Some in Hj as (n & -> & Hn).
    unfold counters_after in Hm, Hn.
    apply lookup_seqZ in Hm as [-> ?]. apply lookup_seqZ in Hn as [-> ?].
    eexists _, _. repeat split; [lia..|].
    intros Heq%(inj _). lia.
  - rewrite Hck. apply NoDup_chart_ids.
  - rewrite Hck. intros i j a b Hi Hj Hij.
    apply list_lookup_fmap_Some in Hi as (m & -> & Hm).
    apply list_lookup_fmap_Some in Hj as (n & -> & Hn).
    unfold counters_after in Hm, Hn.
    apply lookup_seqZ in Hm as [-> ?]. apply lookup_seqZ in Hn as [-> ?].
    eexists _, _. repeat split; [lia..|].
    intros Heq%(inj _). lia.
Qed.

Lemma artifact_ids_strictly_increasing_witness :
  let r := {| text := "Here's what I found:"; sql := None;
              columns := ["n"]; data_rows := [[Some "1"]];
              conversation_id := None; suggested_questions := [];
              viz_spec := None; error := false |} in
  let calls := replicate 60 (PutResult r) in
  let log := (run calls init).1 in
  dict_keys (results_put log) !! 8%nat = Some "result_9"
  ∧ dict_keys (results_put log) !! 9%nat = Some "result_10"
  ∧ ∃ m n, "result_9" = result_id_of m ∧ "result_10" = result_id_of n
           ∧ _result_counter init < m < n ∧ "result_9" ≠ "result_10".
Proof.
  intros r calls log.
  assert (H9 : dict_keys (results_put log) !! 8%nat = Some "result_9")
    by (vm_compute; reflexivity).
  assert (H10 : dict_keys (results_put log) !! 9%nat = Some "result_10")
    by (vm_compute; reflexivity).
  split; [exact H9|]. split; [exact H10|].
  pose proof (artifact_ids_strictly_increasing calls init) as H. cbv zeta in H.
  destruct H as [[_ Hinc] _].
  apply (Hinc 8%nat 9%nat "result_9" "result_10" H9 H10). lia.
Defined.

End ArtifactStoreFacts.

(** ** The token cache *)

Module TokenCacheFacts.
Import TokenCache.

Lemma unexpired_iff now c : unexpired now c = true ↔ (now < expires_at c)%Q.
Proof.
  unfold unexpired. rewrite negb_true_iff, <- not_true_iff_false, Qle_bool_iff.
  split; [apply Qnot_le_lt|apply Qlt_not_le].
Qed.

(** A call answered from the cache returns the cached token and changes
    nothing: no request to the identity provider, same cache. *)
Lemma exchange_hit now now' acquire u a mgr c :
  user_tokens mgr !! u = Some c → (now < expires_at c)%Q →
  exchange_for_databricks_token now now' acquire u a mgr = (Some (token c), mgr).
Proof.
  intros Hc Hlt. unfold exchange_for_databricks_token. rewrite Hc.
  apply unexpired_iff in Hlt. by rewrite Hlt.
Qed.

(** The case analysis of a call that is not answered from the cache:
    the entry is absent, or present and expired. *)
Ltac exchange_miss Hmiss :=
  unfold exchange_for_databricks_token;
  lazymatch goal with
  | |- context [user_tokens ?mgr !! ?u] =>
      let c := fresh "c" in
      let Hc := fresh "Hc" in
      let Hu := fresh "Hu" in
      destruct (user_tokens mgr !! u) as [c|] eqn:Hc;
      [ destruct (unexpired _ c) eqn:Hu;
        [ exfalso; apply Hmiss; exists c; split;
          [done|by apply unexpired_iff]
        | ]
      | ]
  end.

(** A call not answered from the cache sends exactly one request. *)
Lemma exchange_miss_requests now now' acquire u a mgr :
  ¬ cache_hit now u mgr →
  obo_requests (exchange_for_databricks_token now now' acquire u a mgr).2
    = obo_requests mgr ++ [a].
Proof. intros Hmiss. exchange_miss Hmiss; by destruct (acquire a). Qed.

(** A granted token is cached under the user and returned. *)
Lemma exchange_miss_granted now now' acquire u a mgr tok e :
  ¬ cache_hit now u mgr → acquire a = OboToken tok e →
  exchange_for_databricks_token now now' acquire u a mgr
    = (Some tok,
       {| user_tokens :=
            <[u := {| token := tok;
                      expires_at := (now' + inject_Z (default 3600%Z e) - 60)%Q |}]>
              (user_tokens mgr);
          obo_requests := obo_requests mgr ++ [a] |}).
Proof. intros Hmiss Hacq. exchange_miss Hmiss; by rewrite Hacq. Qed.

(** A failed exchange returns [None] and leaves the cache as it was. *)
Lemma exchange_miss_failed now now' acquire u a mgr :
  ¬ cache_hit now u mgr → obo_failed (acquire a) →
  exchange_for_databricks_token now now' acquire u a mgr
    = (None, {| user_tokens := user_tokens mgr;
                obo_requests := obo_requests mgr ++ [a] |}).
Proof. intros Hmiss Hfail. exchange_miss Hmiss; by destruct (acquire a). Qed.

(** C3.  Two calls for the same user: when, at the second call, the
    cache holds an entry for the user whose expiry is still in the
    future, the second call returns the cached token and leaves the
    manager untouched (no request to the identity provider, same
    cache).  When the first call was not itself answered from the
    cache, the two calls together send exactly one request, and the
    token returned by the second call is the one the first call was
    granted. *)
Theorem exchange_twice_within_ttl
    (mgr : UserTokenManager) (u a1 a2 : string) (now1 now1' now2 now2' : Q)
    (acquire1 acquire2 : string → obo_result) (c : CachedToken) :
  let first := exchange_for_databricks_token now1 now1' acquire1 u a1 mgr in
  let second := exchange_for_databricks_token now2 now2' acquire2 u a2 first.2 in
  user_tokens first.2 !! u = Some c → (now2 < expires_at c)%Q →
  second.1 = Some (token c)
  ∧ second.2 = first.2
  ∧ (¬ cache_hit now1 u mgr →
     obo_requests second.2 = obo_requests mgr ++ [a1]
     ∧ ∀ tok e, acquire1 a1 = OboToken tok e →
         first.1 = Some tok ∧ second.1 = Some tok).
Proof.
  intros first second Hc Hlt.
  assert (Hsecond : second = (Some (token c), first.2))
    by (by apply exchange_hit).
  rewrite Hsecond. cbn [fst snd].
  split; [done|]. split; [done|]. intros Hmiss.
  split; [by apply exchange_miss_requests|]. intros tok e Hacq.
  revert Hc. unfold first.
  rewrite (exchange_miss_granted _ _ _ _ _ _ _ _ Hmiss Hacq).
  cbn [fst snd user_tokens]. rewrite lookup_insert_eq.
  by intros [= <-].
Qed.

(** Spelled out on the clock: a token granted at [now1'] for [expires_in]
    seconds answers every call made before [now1' + expires_in - 60]. *)
Lemma exchange_granted_then_hit
    (mgr : UserTokenManager) (u a1 a2 : string) (now1 now1' now2 now2' : Q)
    (acquire1 acquire2 : string → obo_result) (tok : string) (e : option Z) :
  ¬ cache_hit now1 u mgr → acquire1 a1 = OboToken tok e →
  (now2 < now1' + inject_Z (default 3600%Z e) - 60)%Q →
  let first := exchange_for_databricks_token now1 now1' acquire1 u a1 mgr in
  let second := exchange_for_databricks_token now2 now2' acquire2 u a2 first.2 in
  first.1 = Some tok ∧ second = (Some tok, first.2)
  ∧ obo_requests second.2 = obo_requests mgr ++ [a1].
Proof.
  intros Hmiss Hacq Hlt first second. unfold second, first.
  rewrite (exchange_miss_granted _ _ _ _ _ _ _ _ Hmiss Hacq). cbn [fst snd].
  split; [done|].
  rewrite (exchange_hit now2 now2' acquire2 u a2 _
             {| token := tok;
                expires_at := (now1' + inject_Z (default 3600%Z e) - 60)%Q |}).
  - done.
  - cbn [user_tokens]. apply lookup_insert_eq.
  - done.
Qed.

Lemma exchange_twice_within_ttl_witness :
  let grant := fun _ : string => OboToken "dbx-token" (Some 3600) in
  let mgr := {| user_tokens := ∅; obo_requests := [] |} in
  let first := exchange_for_databricks_token 1000 1001 grant "alice" "assertion" mgr in
  let second := exchange_for_databricks_token 2000 2001 grant "alice" "assertion" first.2 in
  second.1 = Some "dbx-token"
  ∧ second.2 = first.2
  ∧ (¬ cache_hit 1000 "alice" mgr →
     obo_requests second.2 = [] ++ ["assertion"]
     ∧ ∀ tok e, grant "assertion" = OboToken tok e →
         first.1 = Some tok ∧ second.1 = Some tok).
Proof.
  intros grant mgr.
  apply (exchange_twice_within_ttl mgr "alice" "assertion" "assertion"
           1000 1001 2000 2001 grant grant
           {| token := "dbx-token"; expires_at := (1001 + inject_Z 3600 - 60)%Q |}).
  - vm_compute. reflexivity.
  - vm_compute. reflexivity.
Defined.

(** C9, as stated, fails: a failed exchange for a user whose cached
    token has expired returns [None] and the expired entry is still in
    the cache afterwards. *)
Lemma failed_exchange_keeps_expired_entry :
  let stale := {| token := "old-token"; expires_at := 100 |} in
  let mgr := {| user_tokens := {[ "alice" := stale ]}; obo_requests := [] |} in
  let deny := fun _ : string => OboError "invalid_grant" in
  let after := exchange_for_databricks_token 200 200 deny "alice" "assertion" mgr in
  obo_failed (deny "assertion")
  ∧ obo_requests after.2 = ["assertion"]
  ∧ after.1 = None
  ∧ user_tokens after.2 !! "alice" = Some stale
  ∧ user_tokens after.2 !! "alice" ≠ None.
Proof. vm_compute. repeat split; discriminate. Qed.

(** C9, amended.  When the call is not answered from the cache and the
    identity provider grants no token (an answer without access token,
    or an exception), the call returns [None] and the cache is exactly
    what it was: no entry is added for the user, so there is none
    afterwards unless one (expired) was already there; and none is left
    once [clear_user_token] has run. *)
Theorem failed_exchange_leaves_cache_unchanged
    (now now' : Q) (acquire : string → obo_result) (u a : string)
    (mgr : UserTokenManager) :
  ¬ cache_hit now u mgr → obo_failed (acquire a) →
  let after := exchange_for_databricks_token now now' acquire u a mgr in
  after.1 = None
  ∧ user_tokens after.2 = user_tokens mgr
  ∧ (user_tokens mgr !! u = None → user_tokens after.2 !! u = None)
  ∧ user_tokens (clear_user_token u after.2) !! u = None.
Proof.
  intros Hmiss Hfail after. unfold after.
  rewrite exchange_miss_failed by done. cbn [fst snd user_tokens].
  repeat split; [done|]. unfold clear_user_token. cbn [user_tokens].
  apply lookup_delete_eq.
Qed.

Lemma failed_exchange_leaves_cache_unchanged_witness :
  let stale := {| token := "old-token"; expires_at := 100 |} in
  let mgr := {| user_tokens := {[ "alice" := stale ]}; obo_requests := [] |} in
  let after := exchange_for_databricks_token 200 200 (fun _ => OboRaised)
                 "alice" "assertion" mgr in
  after.1 = None
  ∧ user_tokens after.2 = user_tokens mgr
  ∧ (user_tokens mgr !! "alice" = None → user_tokens after.2 !! "alice" = None)
  ∧ user_tokens (clear_user_token "alice" after.2) !! "alice" = None.
Proof.
  intros stale mgr.
  apply (failed_exchange_leaves_cache_unchanged 200 200 (fun _ => OboRaised)
           "alice" "assertion" mgr).
  - intros (c & Hc & Hlt). vm_compute in Hc. injection Hc as <-.
    vm_compute in Hlt. discriminate.
  - exact I.
Defined.

End TokenCacheFacts.

(** ** Pagination *)

Module PaginationFacts.
Import Py ArtifactStore Pagination CardView.

(** The integer formula of the source is the ceiling of the quotient. *)
Lemma ceiling_div n d :
  0 < d → Qceiling (inject_Z n / inject_Z d) = (n + d - 1) / d.
Proof.
  intros Hd. destruct d as [|p|p]; try lia.
  unfold Qceiling, Qfloor, Qdiv, Qinv, Qmult, Qopp, inject_Z. simpl.
  rewrite Z.mul_1_r.
  pose proof (Z.div_mod (n + Z.pos p - 1) (Z.pos p) ltac:(lia)).
  pose proof (Z.mod_pos_bound (n + Z.pos p - 1) (Z.pos p) ltac:(lia)).
  apply Z.opp_inj. rewrite Z.opp_involutive. symmetry.
  apply (Z.div_unique _ _ _ (Z.pos p - 1 - (n + Z.pos p - 1) mod Z.pos p)); lia.
Qed.

Lemma total_pages_ceiling n ps :
  0 < ps → total_pages n ps = Z.max 1 (Qceiling (inject_Z n / inject_Z ps)).
Proof. intros Hps. unfold total_pages. by rewrite ceiling_div. Qed.

Lemma total_pages_pos n ps : 1 ≤ total_pages n ps.
Proof. unfold total_pages. lia. Qed.

Lemma clamp_page_range page tp : 1 ≤ tp → 0 ≤ clamp_page page tp ≤ tp - 1.
Proof. unfold clamp_page. lia. Qed.

Lemma clamp_page_id page tp : 0 ≤ page ≤ tp - 1 → clamp_page page tp = page.
Proof. unfold clamp_page. lia. Qed.

Lemma clamp_page_idemp page tp :
  1 ≤ tp → clamp_page (clamp_page page tp) tp = clamp_page page tp.
Proof. intros. apply clamp_page_id. by apply clamp_page_range. Qed.

(** The card depends on the requested page through its clamped value
    only. *)
Lemma card_of_clamped result page ps rid :
  create_paginated_card result page ps rid
  = create_paginated_card result
      (clamp_page page (total_pages (len (data_rows result)) ps)) ps rid.
Proof.
  unfold create_paginated_card.
  by rewrite clamp_page_idemp by apply total_pages_pos.
Qed.

Lemma slice_range {A} (l : list A) (lo hi : Z) :
  0 ≤ lo ≤ hi → hi ≤ len l →
  slice l (Some lo) (Some hi) = take (Z.to_nat (hi - lo)) (drop (Z.to_nat lo) l).
Proof.
  intros Hlo Hhi. unfold slice, slice_index.
  destruct (Z.ltb_spec lo 0), (Z.ltb_spec hi 0); try lia.
  do 2 f_equal; lia.
Qed.

(** The rows shown for a clamped page are the slice
    [page*page_size, page*page_size + page_size) of the stored rows. *)
Lemma page_rows_clamped (rows : list (list cell)) page ps :
  0 < ps →
  let p := clamp_page page (total_pages (len rows) ps) in
  page_rows rows p ps = take (Z.to_nat ps) (drop (Z.to_nat (p * ps)) rows).
Proof.
  intros Hps p. unfold page_rows.
  assert (Hp : 0 ≤ p ≤ total_pages (len rows) ps - 1)
    by apply clamp_page_range, total_pages_pos.
  assert (Hstart : p * ps ≤ len rows).
  { unfold total_pages in Hp. unfold len in *.
    pose proof (Z.mul_div_le (Z.of_nat (length rows) + ps - 1) ps Hps).
    destruct (Z.max_spec 1 ((Z.of_nat (length rows) + ps - 1) / ps)) as [[? Hm]|[? Hm]];
      rewrite Hm in Hp; nia. }
  rewrite slice_range by lia.
  destruct (Z.min_spec (p * ps + ps) (len rows)) as [[Hlt ->]|[Hge ->]].
  - f_equal. lia.
  - unfold len in *. rewrite !take_ge; [done|rewrite length_drop; lia..].
Qed.

Lemma row_texts_header (columns : list string) extra style :
  row_texts
    (JObj [("type", JStr "TableRow");
           ("cells",
            JList (map (fun col => table_cell (text_block col extra)) columns));
           ("style", style)])
  = columns.
Proof.
  cbn. induction columns as [|c columns IH]; [done|]. cbn. by rewrite IH.
Qed.

Lemma row_texts_data (row : list cell) extra :
  row_texts
    (JObj [("type", JStr "TableRow");
           ("cells",
            JList (map (fun val => table_cell
                                     (text_block (display_val val) extra))
                       row))])
  = map display_val row.
Proof.
  cbn. induction row as [|c row IH]; [done|]. cbn. by rewrite IH.
Qed.

(** What the card of [create_paginated_card] shows: the caption with the
    page shown, the number of pages and the number of rows, and one table
    with the column names and the rows of the page. *)
Lemma paginated_card_shows
    (result : QueryResult) (page page_size : Z) (result_id : option string) :
  page_size ≠ 0 →
  let rows := data_rows result in
  let tp := total_pages (len rows) page_size in
  let p := clamp_page page tp in
  ∃ card,
    create_paginated_card result page page_size result_id = Some card
    ∧ card_captions card
      = (if 0 <? len rows
         then ["Results: Page " +:+ str_of_int (p + 1) +:+ " of "
               +:+ str_of_int tp +:+ " (" +:+ str_of_int (len rows)
               +:+ " total rows)"]
         else [])
    ∧ card_tables card
      = match columns result, page_rows rows p page_size with
        | _ :: _, _ :: _ =>
            [columns result
             :: map (map display_val) (page_rows rows p page_size)]
        | _, _ => []
        end.
Proof.
  intros Hps rows tp p. unfold create_paginated_card.
  rewrite (proj2 (Z.eqb_neq page_size 0) Hps). cbv zeta.
  fold rows. fold tp. fold p.
  eexists. split; [reflexivity|].
  unfold card_captions, card_tables, card_body.
  cbn [json_field dict_get String.eqb Ascii.eqb Bool.eqb app].
  rewrite !omap_app. split.
  - destruct (0 <? len rows).
    + destruct (columns result), (page_rows rows p page_size); reflexivity.
    + destruct (columns result), (page_rows rows p page_size); reflexivity.
  - destruct (columns result) as [|c cs] eqn:Hc.
    { by destruct (0 <? len rows). }
    destruct (page_rows rows p page_size) as [|r rs] eqn:Hr.
    { by destruct (0 <? len rows). }
    replace (omap table_texts (if 0 <? len rows then _ else [])) with (@nil (list (list string)))
      by (by destruct (0 <? len rows)).
    cbn [app omap list_omap table_texts json_field dict_get String.eqb Ascii.eqb Bool.eqb].
    rewrite fmap_cons. rewrite (row_texts_header (c :: cs)).
    do 3 f_equal. change (@fmap list _ _ _ ?f ?l) with (map f l).
    rewrite map_map. apply map_ext. intros row. apply row_texts_data.
Qed.


(** C6.  For a positive page size, the number of pages is
    [max(1, ceil(total_rows / page_size))] and the requested page is
    clamped into [0, total_pages - 1].  The card returned for a page is
    the card returned for its clamped value; its caption names that
    page, the number of pages and the number of rows, and its table
    shows the column names and then exactly the [page_size] rows
    starting at row [page * page_size] of the clamped page, cell by
    cell.  For a result of 45 rows and pages of 20 there are 3 pages,
    and the card returned for page 5 is the card for page 2: it is
    captioned page 3 of 3 and shows the rows 40 to 44 and no others. *)
Theorem pagination_clamps_page
    (result : QueryResult) (page page_size : Z) (result_id : option string) :
  0 < page_size →
  let rows := data_rows result in
  let tp := total_pages (len rows) page_size in
  let p := clamp_page page tp in
  let shown := take (Z.to_nat page_size) (drop (Z.to_nat (p * page_size)) rows) in
  tp = Z.max 1 (Qceiling (inject_Z (len rows) / inject_Z page_size))
  ∧ 0 ≤ p ≤ tp - 1
  ∧ (0 ≤ page ≤ tp - 1 → p = page)
  ∧ (page < 0 → p = 0)
  ∧ (tp - 1 < page → p = tp - 1)
  ∧ create_paginated_card result page page_size result_id
    = create_paginated_card result p page_size result_id
  ∧ page_rows rows p page_size = shown
  ∧ (∃ card,
       create_paginated_card result page page_size result_id = Some card
       ∧ card_captions card
         = (if 0 <? len rows
            then ["Results: Page " +:+ str_of_int (p + 1) +:+ " of "
                  +:+ str_of_int tp +:+ " (" +:+ str_of_int (len rows)
                  +:+ " total rows)"]
            else [])
       ∧ card_tables card
         = match columns result, shown with
           | _ :: _, _ :: _ =>
               [columns result :: map (map display_val) shown]
           | _, _ => []
           end)
  ∧ (len rows = 45 → page_size = PAGE_SIZE →
     tp = 3
     ∧ create_paginated_card result 5 page_size result_id
       = create_paginated_card result 2 page_size result_id
     ∧ page_rows rows (clamp_page 5 tp) page_size = drop 40 rows
     ∧ length (drop 40 rows) = 5%nat
     ∧ ∃ card,
         create_paginated_card result 5 page_size result_id = Some card
         ∧ card_captions card = ["Results: Page 3 of 3 (45 total rows)"]
         ∧ card_tables card
           = match columns result with
             | _ :: _ =>
                 [columns result :: map (map display_val) (drop 40 rows)]
             | [] => []
             end).
Proof.
  intros Hps rows tp p shown.
  assert (Htp : 1 ≤ tp) by apply total_pages_pos.
  assert (Hshown : ∀ q, page_rows rows (clamp_page q tp) page_size
            = take (Z.to_nat page_size)
                (drop (Z.to_nat (clamp_page q tp * page_size)) rows))
    by (intros q; by apply page_rows_clamped).
  split; [by apply total_pages_ceiling|].
  split; [by apply clamp_page_range|].
  split; [apply clamp_page_id|].
  split; [unfold p, clamp_page; lia|].
  split; [unfold p, clamp_page; lia|].
  split; [apply card_of_clamped|].
  split; [apply Hshown|].
  split.
  { destruct (paginated_card_shows result page page_size result_id)
      as (card & Hcard & Hcap & Htab); [lia|].
    exists card. split; [done|]. split; [done|].
    rewrite Htab. fold rows tp. by rewrite (Hshown page). }
  intros Hn ->. unfold PAGE_SIZE in *.
  assert (Htp3 : tp = 3) by (unfold tp; rewrite Hn; reflexivity).
  assert (H40 : page_rows rows (clamp_page 5 tp) 20 = drop 40 rows).
  { rewrite Hshown, Htp3.
    change (Z.to_nat (clamp_page 5 3 * 20)) with 40%nat.
    apply take_ge. rewrite length_drop. unfold len in Hn. lia. }
  assert (Hlen : length (drop 40 rows) = 5%nat)
    by (rewrite length_drop; unfold len in Hn; lia).
  split; [done|].
  split.
  { rewrite (card_of_clamped result 5), (card_of_clamped result 2).
    fold rows tp. by rewrite Htp3. }
  split; [done|]. split; [done|].
  destruct (paginated_card_shows result 5 20 result_id)
    as (card & Hcard & Hcap & Htab); [lia|].
  exists card. split; [done|].
  fold rows tp in Hcap, Htab. rewrite H40 in Htab.
  rewrite Htp3, Hn in Hcap.
  split; [exact Hcap|].
  rewrite Htab. destruct (columns result); [done|].
  by destruct (drop 40 rows).
Qed.

Lemma pagination_clamps_page_witness :
  let result :=
    {| text := "Here's what I found:"; sql := None;
       columns := ["n"];
       data_rows := (fun i => [Some (str_of_int i)]) <$> seqZ 0 45;
       conversation_id := None; suggested_questions := [];
       viz_spec := None; error := false |} in
  0 < PAGE_SIZE
  ∧ len (data_rows result) = 45
  ∧ total_pages (len (data_rows result)) PAGE_SIZE = 3
  ∧ create_paginated_card result 5 PAGE_SIZE (Some "result_1")
    = create_paginated_card result 2 PAGE_SIZE (Some "result_1")
  ∧ page_rows (data_rows result) (clamp_page 5 3) PAGE_SIZE
    = [[Some "40"]; [Some "41"]; [Some "42"]; [Some "43"]; [Some "44"]]
  ∧ ∃ card,
      create_paginated_card result 5 PAGE_SIZE (Some "result_1") = Some card
      ∧ card_captions card = ["Results: Page 3 of 3 (45 total rows)"]
      ∧ card_tables card = [[["n"]; ["40"]; ["41"]; ["42"]; ["43"]; ["44"]]].
Proof.
  intros result.
  assert (Hps : 0 < PAGE_SIZE) by reflexivity.
  assert (Hn : len (data_rows result) = 45) by reflexivity.
  destruct (pagination_clamps_page result 5 PAGE_SIZE (Some "result_1") Hps)
    as (_ & _ & _ & _ & _ & _ & _ & _ & Hw).
  destruct (Hw Hn eq_refl) as (Htp & Hcard & Hrows & _ & card & Hc & Hcap & Htab).
  split; [done|]. split; [done|]. split; [done|]. split; [done|].
  split; [rewrite Htp in Hrows; rewrite Hrows; reflexivity|].
  exists card. split; [done|]. split; [done|].
  rewrite Htab. reflexivity.
Defined.

End PaginationFacts.

(** ** The chart generator *)

Module ChartFacts.
Import Py ArtifactStore Chart.

Lemma column_index_from_None i columns name_lower :
  existsb (fun col => String.eqb (lower col) name_lower) columns = false →
  column_index_from i columns name_lower = None.
Proof.
  revert i. induction columns as [|col columns IH]; intros i; simpl; [done|].
  destruct (String.eqb (lower col) name_lower); simpl; [done|]. apply IH.
Qed.

Lemma column_index_from_Some i columns name_lower :
  existsb (fun col => String.eqb (lower col) name_lower) columns = true →
  ∃ j col, column_index_from i columns name_lower = Some (i + j)%nat
           ∧ columns !! j = Some col ∧ lower col = name_lower.
Proof.
  revert i. induction columns as [|col columns IH]; intros i; simpl; [done|].
  destruct (String.eqb_spec (lower col) name_lower) as [Heq|Hne]; simpl.
  - intros _. exists 0%nat, col. by rewrite Nat.add_0_r.
  - intros (j & c & -> & Hj & Hc)%(IH (S i)).
    exists (S j), c. split; [f_equal; lia|done].
Qed.

(** A name that matches no column resolves to no index. *)
Lemma _get_column_index_unmatched columns name :
  matches_column columns name = false → _get_column_index columns name = None.
Proof. apply column_index_from_None. Qed.

Lemma _get_column_index_matched columns name :
  matches_column columns name = true →
  ∃ j col, _get_column_index columns name = Some j
           ∧ columns !! j = Some col ∧ lower col = lower name.
Proof. intros H. by apply (column_index_from_Some 0) in H. Qed.

(** C8, as stated, fails when [y_axis] is a comma-separated list: the
    whole value matches no column, yet its first item does and a chart
    comes back. *)
Lemma generate_comma_separated_y_axis :
  let viz_spec := [("chart_type", "bar"); ("x_axis", "Region");
                   ("y_axis", "Sales, Profit")] in
  let columns := ["Region"; "Sales"] in
  let data_rows := [[Some "East"; Some "10"]; [Some "West"; Some "20"]] in
  let float_of_string := fun s : string =>
    (fun i => inject_Z (Z.of_int i)) <$> NilEmpty.int_of_string s in
  let draw := fun (_ : chart_kind) (_ : list string) (_ : list Q)
                  (_ _ _ : string) => Return "iVBORw0KGgo=" in
  matches_column columns (default "" (dict_get "y_axis" viz_spec)) = false
  ∧ generate float_of_string draw viz_spec columns data_rows
    = Some "iVBORw0KGgo="
  ∧ generate float_of_string draw viz_spec columns data_rows ≠ None.
Proof. vm_compute. repeat split; discriminate. Qed.

(** C8, amended.  Whatever the float parser and the plotting library
    do: when the [x_axis] value of the spec, or its [y_axis] value
    reduced to its first comma-separated item, equals no column name
    after lower-casing, [generate] returns [None]. *)
Theorem generate_unresolved_column
    (float_of_string : string → option Q)
    (draw : chart_kind → list string → list Q → string → string → string →
            outcome string)
    (viz_spec : dict string) (columns : list string)
    (data_rows : list (list cell)) :
  matches_column columns (x_col viz_spec) = false
  ∨ matches_column columns (y_col viz_spec) = false →
  generate float_of_string draw viz_spec columns data_rows = None.
Proof.
  intros Hun. unfold generate, generate_body.
  destruct Hun as [Hx|Hy].
  - by rewrite (_get_column_index_unmatched _ _ Hx).
  - rewrite (_get_column_index_unmatched _ _ Hy).
    by destruct (_get_column_index columns (x_col viz_spec)).
Qed.

Lemma generate_unresolved_column_witness :
  let viz_spec := [("chart_type", "bar"); ("x_axis", "Nonexistent");
                   ("y_axis", "Sales")] in
  let columns := ["Region"; "Sales"] in
  let draw := fun (_ : chart_kind) (_ : list string) (_ : list Q)
                  (_ _ _ : string) => Return "iVBORw0KGgo=" in
  (matches_column columns (x_col viz_spec) = false
   ∨ matches_column columns (y_col viz_spec) = false)
  ∧ generate (fun _ => None) draw viz_spec columns [[Some "East"; Some "10"]]
    = None.
Proof.
  intros viz_spec columns draw.
  assert (H : matches_column columns (x_col viz_spec) = false
              ∨ matches_column columns (y_col viz_spec) = false)
    by (left; reflexivity).
  split; [exact H|].
  exact (generate_unresolved_column (fun _ => None) draw viz_spec columns
           [[Some "East"; Some "10"]] H).
Defined.

Lemma length_insert_sorted {A} (before : A → A → bool) x l :
  length (insert_sorted before x l) = S (length l).
Proof.
  induction l as [|y l IH]; simpl; [done|].
  destruct (before y x); simpl; by rewrite ?IH.
Qed.

Lemma length_stable_sort {A} (before : A → A → bool) l :
  length (stable_sort before l) = length l.
Proof.
  induction l as [|x l IH]; simpl; [done|].
  by rewrite length_insert_sorted, IH.
Qed.

(** With more than eight categories the pie has exactly eight slices,
    the last one named ["Other"]. *)
Lemma pie_slices_collapsed (x_data : list string) (y_data : list Q) :
  (8 < length x_data)%nat → length y_data = length x_data →
  length (pie_slices x_data y_data).1 = 8%nat
  ∧ length (pie_slices x_data y_data).2 = 8%nat
  ∧ last (pie_slices x_data y_data).1 = Some "Other".
Proof.
  intros Hx Hy. unfold pie_slices.
  replace (8 <? len x_data) with true by (symmetry; apply Z.ltb_lt; unfold len; lia).
  cbn [fst snd]. rewrite !length_app, !length_fmap, last_snoc.
  unfold slice, slice_index, len, sort_by_value.
  rewrite length_stable_sort, length_zip_with.
  change (8 - 1 <? 0) with false. cbv iota.
  rewrite length_take, length_drop, length_stable_sort, length_zip_with.
  simpl length. repeat split; lia.
Qed.

(** C7, as stated, fails: for the ten categories the code keeps seven
    of them, not six, and the ["Other"] slice is worth 7, not 21. *)
Lemma pie_ten_categories_not_seven_slices :
  let x_data := ["A"; "B"; "C"; "D"; "E"; "F"; "G"; "H"; "I"; "J"] in
  let y_data := [50; 40; 30; 20; 10; 8; 6; 4; 2; 1]%Q in
  pie_slices x_data y_data
    ≠ (["A"; "B"; "C"; "D"; "E"; "F"; "Other"], [50; 40; 30; 20; 10; 8; 21]%Q)
  ∧ length (pie_slices x_data y_data).1 ≠ 7%nat
  ∧ last (pie_slices x_data y_data).2 ≠ Some 21%Q.
Proof. vm_compute. repeat split; discriminate. Qed.

(** C7, amended.  For the ten categories valued
    [50,40,30,20,10,8,6,4,2,1] the pie renderer plots eight slices: the
    seven largest categories and one ["Other"] slice worth 7, the sum of
    the remaining three values. *)
Theorem pie_ten_categories_eight_slices :
  let x_data := ["A"; "B"; "C"; "D"; "E"; "F"; "G"; "H"; "I"; "J"] in
  let y_data := [50; 40; 30; 20; 10; 8; 6; 4; 2; 1]%Q in
  let x_pie := ["A"; "B"; "C"; "D"; "E"; "F"; "G"; "Other"] in
  let y_pie := [50; 40; 30; 20; 10; 8; 6; 7]%Q in
  pie_slices x_data y_data = (x_pie, y_pie)
  ∧ length x_pie = 8%nat
  ∧ sum [4; 2; 1]%Q = 7%Q
  ∧ ∀ draw title x_label y_label,
      _create_pie_chart draw x_data y_data title x_label y_label
      = draw Pie x_pie y_pie title x_label y_label.
Proof.
  intros x_data y_data x_pie y_pie.
  assert (Hpie : pie_slices x_data y_data = (x_pie, y_pie))
    by (vm_compute; reflexivity).
  split; [exact Hpie|]. split; [reflexivity|]. split; [reflexivity|].
  intros draw title x_label y_label. unfold _create_pie_chart. by rewrite Hpie.
Qed.

End ChartFacts.

(** ** The regular expression engine *)

Module ReFacts.
Import Py Re.

#[local] Arguments String.append : simpl nomatch.

(** *** Strings *)

Lemma str_app_assoc (s1 s2 s3 : string) :
  (s1 +:+ s2) +:+ s3 = s1 +:+ (s2 +:+ s3).
Proof. induction s1 as [|a s1 IH]; simpl; [done|]. by rewrite IH. Qed.

Lemma str_app_nil_r (s : string) : s +:+ "" = s.
Proof. induction s as [|a s IH]; simpl; [done|]. by rewrite IH. Qed.

Lemma str_length_app (s1 s2 : string) :
  String.length (s1 +:+ s2) = (String.length s1 + String.length s2)%nat.
Proof. induction s1 as [|a s1 IH]; simpl; [done|]. by rewrite IH. Qed.

Lemma str_app_inv_length (p1 q1 p2 q2 : string) :
  p1 +:+ q1 = p2 +:+ q2 → String.length p1 = String.length p2 →
  p1 = p2 ∧ q1 = q2.
Proof.
  revert p2. induction p1 as [|a p1 IH]; intros [|b p2]; simpl; try done.
  intros [= -> Heq] [= Hlen]. destruct (IH _ Heq Hlen) as [-> ->]. done.
Qed.

(** Two ways of cutting the same string: the shorter prefix is a
    prefix of the longer. *)
Lemma str_app_inv_le (p1 q1 p2 q2 : string) :
  p1 +:+ q1 = p2 +:+ q2 → (String.length p1 ≤ String.length p2)%nat →
  ∃ d, p2 = p1 +:+ d ∧ q1 = d +:+ q2.
Proof.
  revert p2. induction p1 as [|a p1 IH]; intros p2; simpl.
  - intros -> _. by exists p2.
  - destruct p2 as [|b p2]; simpl; [lia|].
    intros [= -> Heq] Hlen. destruct (IH _ Heq ltac:(lia)) as (d & -> & ->).
    by exists d.
Qed.

Lemma substring_prefix (p s : string) :
  String.substring 0 (String.length p) (p +:+ s) = p.
Proof. induction p as [|a p IH]; simpl; [by destruct s|]. by rewrite IH. Qed.

Lemma consumed_app (p s : string) : consumed (p +:+ s) s = p.
Proof.
  unfold consumed. rewrite str_length_app.
  replace (String.length p + String.length s - String.length s)%nat
    with (String.length p) by lia.
  apply substring_prefix.
Qed.

Lemma lower_app (s1 s2 : string) : lower (s1 +:+ s2) = lower s1 +:+ lower s2.
Proof. induction s1 as [|a s1 IH]; simpl; [done|]. by rewrite IH. Qed.

Lemma length_lower (s : string) : String.length (lower s) = String.length s.
Proof. induction s as [|a s IH]; simpl; [done|]. by rewrite IH. Qed.

Lemma chr_match_iff a b : chr_match a b = true ↔ lower_char a = lower_char b.
Proof. apply Ascii.eqb_eq. Qed.

(** *** Literals *)

(** A literal word matches exactly the prefixes equal to it up to
    case. *)
Lemma exec_lit {R} (w s : string) g (k : string → option string → option R) x :
  exec (lit w) s g k = Some x
  ↔ ∃ o s', s = o +:+ s' ∧ lower o = lower w ∧ k s' g = Some x.
Proof.
  revert s. induction w as [|a w IH]; intros s; simpl.
  - split.
    + intros Hk. by exists "", s.
    + intros (o & s' & -> & Ho & Hk). by destruct o.
  - destruct s as [|b s1].
    + split; [done|]. intros (o & s' & Hs & Ho & _).
      destruct o; [done|]. done.
    + destruct (chr_match a b) eqn:Hab.
      * apply chr_match_iff in Hab. rewrite IH. split.
        -- intros (o & s' & -> & Ho & Hk). exists (String b o), s'.
           simpl. by rewrite Ho, Hab.
        -- intros (o & s' & Hs & Ho & Hk). destruct o as [|b' o]; [done|].
           simpl in Hs, Ho. injection Hs as <- ->. injection Ho as _ Ho.
           by exists o, s'.
      * split; [done|]. intros (o & s' & Hs & Ho & _).
        destruct o as [|b' o]; [done|]. simpl in Hs, Ho.
        injection Hs as <- ->. injection Ho as Hc _.
        apply not_true_iff_false in Hab. destruct Hab.
        by apply chr_match_iff.
Qed.

(** *** Stars *)

(** The lazy [.*?] under [DOTALL] stops at the first suffix where the
    rest of the pattern matches. *)
Lemma star_lazy_dotall {R} (s : string) (k : string → option R) x :
  star (Dot true) true s k = Some x
  ↔ ∃ p s', s = p +:+ s' ∧ k s' = Some x
      ∧ ∀ p1 q1, s = p1 +:+ q1 →
          (String.length p1 < String.length p)%nat → k q1 = None.
Proof.
  induction s as [|a s1 IH]; simpl.
  - split.
    + intros Hk. exists "", "". repeat split; [done|]. simpl. lia.
    + intros (p & s' & Hs & Hk & _). destruct p; [|done]. simpl in Hs. by subst.
  - destruct (k (String a s1)) as [y|] eqn:Hks; simpl.
    + split.
      * intros [= ->]. exists "", (String a s1). repeat split; [done|]. simpl. lia.
      * intros (p & s' & Hs & Hk & Hmin). destruct p as [|b p].
        -- simpl in Hs. subst s'. congruence.
        -- specialize (Hmin "" (String a s1) eq_refl). simpl in Hmin.
           rewrite Hmin in Hks by lia. done.
    + rewrite IH. split.
      * intros (p & s' & -> & Hk & Hmin). exists (String a p), s'.
        repeat split; [done|]. intros [|b p1] q1; simpl.
        -- by intros <-.
        -- intros [= <- Heq] Hlt. apply (Hmin p1); [done|lia].
      * intros (p & s' & Hs & Hk & Hmin). destruct p as [|b p].
        -- simpl in Hs. subst s'. congruence.
        -- simpl in Hs. injection Hs as <- ->. exists p, s'.
           repeat split; [done|]. intros p1 q1 Heq Hlt.
           apply (Hmin (String a p1)); simpl; [by rewrite Heq|lia].
Qed.

Lemma star_dotall_complete {R} lazy (p s' : string) (k : string → option R) :
  is_Some (k s') → is_Some (star (Dot true) lazy (p +:+ s') k).
Proof.
  intros Hk. induction p as [|a p IH]; simpl.
  - destruct s' as [|b s']; simpl; [done|].
    destruct lazy; simpl.
    + destruct Hk as [y ->]. by eexists.
    + destruct (star (Dot true) false s' k); simpl; [by eexists|done].
  - destruct lazy; simpl.
    + destruct (k (String a (p +:+ s'))); simpl; [by eexists|done].
    + destruct IH as [y ->]. by eexists.
Qed.

(** *** Search *)

Lemma search_Some r s m :
  search r s = Some m →
  ∃ q, s = before m +:+ q
       ∧ match_here r q = Some (group1 m, after m)
       ∧ ∀ p1 q1, s = p1 +:+ q1 →
           (String.length p1 < String.length (before m))%nat →
           match_here r q1 = None.
Proof.
  revert m. induction s as [|a s IH]; intros m; simpl.
  - destruct (match_here r "") as [[g rest]|] eqn:Hm; [|done].
    intros [= <-]. exists "". simpl. repeat split; [done|]. lia.
  - destruct (match_here r (String a s)) as [[g rest]|] eqn:Hm.
    + intros [= <-]. exists (String a s). simpl. repeat split; [done|]. lia.
    + destruct (search r s) as [f|]; [|done]. intros [= <-].
      destruct (IH f eq_refl) as (q & -> & Hq & Hmin). exists q. simpl.
      repeat split; [done|]. intros [|b p1] q1; simpl.
      * by intros <-.
      * intros [= <- Heq] Hlt. apply (Hmin p1); [done|lia].
Qed.

Lemma search_None r s :
  search r s = None → ∀ p q, s = p +:+ q → match_here r q = None.
Proof.
  induction s as [|a s IH]; simpl.
  - destruct (match_here r "") as [[g rest]|] eqn:Hm; [done|].
    intros _ [|b p] q; simpl; [by intros <-|done].
  - destruct (match_here r (String a s)) as [[g rest]|] eqn:Hm; [done|].
    destruct (search r s) as [f|]; [done|]. intros _ [|b p] q; simpl.
    + by intros <-.
    + intros [= <- Heq]. by apply (IH eq_refl p).
Qed.

(** *** Removing all matches *)

Lemma remove_all_skip r (p rest : string) :
  remove_all r (String.length p) (p +:+ rest) = remove_all r 0 rest.
Proof.
  induction p as [|a p IH]; simpl; [|done].
  destruct rest; done.
Qed.

Lemma remove_all_no_match r s :
  search r s = None → remove_all r 0 s = s.
Proof.
  induction s as [|a s IH]; [done|]. cbn [search remove_all].
  destruct (match_here r (String a s)) as [[g rest]|]; [done|].
  destruct (search r s); [done|]. intros _. by rewrite IH.
Qed.

Lemma remove_all_match_here r s g (p rest : string) :
  match_here r s = Some (g, rest) → p ≠ "" → s = p +:+ rest →
  remove_all r 0 s = remove_all r 0 rest.
Proof.
  intros Hm Hp ->. destruct p as [|a p]; [done|].
  cbn [String.append remove_all]. change (String a (p +:+ rest)) with (String a p +:+ rest).
  rewrite Hm, str_length_app.
  replace (String.length (String a p) + String.length rest - String.length rest)%nat
    with (S (String.length p)) by (simpl; lia).
  apply remove_all_skip.
Qed.

Lemma remove_all_search r s m :
  consuming r → search r s = Some m →
  remove_all r 0 s = before m +:+ remove_all r 0 (after m).
Proof.
  intros Hr. revert m. induction s as [|a s IH]; intros m; cbn [search].
  - destruct (match_here r "") as [[g rest]|] eqn:Hm; [|done].
    destruct (Hr _ _ _ Hm) as ([|b p] & Hp & Hs); done.
  - destruct (match_here r (String a s)) as [[g rest]|] eqn:Hm.
    + intros [= <-]. cbn [before after]. destruct (Hr _ _ _ Hm) as (p & Hp & Hs).
      by apply (remove_all_match_here r _ g p).
    + destruct (search r s) as [f|]; [|done]. intros [= <-].
      cbn [before after remove_all]. rewrite Hm. by rewrite (IH f).
Qed.

Lemma search_shorter r s m :
  consuming r → search r s = Some m →
  (String.length (after m) < String.length s)%nat.
Proof.
  intros Hr Hs. destruct (search_Some _ _ _ Hs) as (q & -> & Hq & _).
  destruct (Hr _ _ _ Hq) as (p & Hp & ->). rewrite !str_length_app.
  destruct p; [done|]. simpl. lia.
Qed.

(** For a pattern with no empty match, [remove_all] takes out the
    matches one after the other, from left to right. *)
Lemma remove_all_spec r s :
  consuming r → matches_removed r s (remove_all r 0 s).
Proof.
  intros Hr. remember (String.length s) as n eqn:Hn.
  revert s Hn. induction n as [n IH] using lt_wf_ind. intros s ->.
  destruct (search r s) as [m|] eqn:Hs.
  - rewrite (remove_all_search r s m Hr Hs). apply removed_next; [done|].
    apply (IH (String.length (after m))); [|done].
    by apply (search_shorter r).
  - rewrite (remove_all_no_match r s Hs). by apply removed_none.
Qed.

End ReFacts.

(** ** The visualization directive parser *)

Module VizParserFacts.
Import Py Re ReFacts VizParser.

#[local] Arguments String.append : simpl nomatch.

(** *** Blocks *)

Lemma marker_length (w o : string) :
  lower o = w → String.length o = String.length w.
Proof. intros <-. by rewrite length_lower. Qed.

(** A match of the pattern at the start of [s] is a block at the start
    of [s], with the shortest body there is. *)
Lemma match_here_pattern s g rest :
  match_here pattern s = Some (g, rest)
  ↔ ∃ body, g = Some body ∧ block_at s body rest
      ∧ ∀ body' rest', block_at s body' rest' →
          (String.length body ≤ String.length body')%nat.
Proof.
  unfold match_here, pattern. cbn [exec]. rewrite exec_lit. split.
  - intros (o & s1 & -> & Ho & Hstar).
    apply star_lazy_dotall in Hstar as (body & s2 & -> & Hk & Hmin).
    apply exec_lit in Hk as (c & rest0 & -> & Hc & [= <- <-]).
    rewrite consumed_app. exists body. split; [done|]. split.
    { by exists o, c. }
    intros body' rest' (o' & c' & Heq & Ho' & Hc').
    destruct (le_lt_dec (String.length body) (String.length body'))
      as [|Hlt]; [done|exfalso].
    apply str_app_inv_length in Heq as [<- Heq];
      [|by rewrite (marker_length _ _ Ho), (marker_length _ _ Ho')].
    specialize (Hmin body' (c' +:+ rest') Heq Hlt).
    assert (Hsome : exec (lit "[VIZ_END]") (c' +:+ rest')
                      (Some (consumed (body +:+ c +:+ rest0) (c' +:+ rest')))
                      (fun s' g' => Some (g', s'))
                    = Some (Some (consumed (body +:+ c +:+ rest0) (c' +:+ rest')), rest')).
    { apply exec_lit. by exists c', rest'. }
    congruence.
  - intros (body & -> & (o & c & -> & Ho & Hc) & Hmin).
    exists o, (body +:+ c +:+ rest). split; [done|]. split; [done|].
    apply star_lazy_dotall. exists body, (c +:+ rest). split; [done|]. split.
    { apply exec_lit. exists c, rest. by rewrite consumed_app. }
    intros p1 q1 Heq Hlt.
    match goal with |- ?e = None => destruct e as [[g' r']|] eqn:He end; [|done].
    exfalso. apply exec_lit in He as (c1 & r1 & -> & Hc1 & _).
    assert (Hb : block_at (o +:+ body +:+ c +:+ rest) p1 r1).
    { exists o, c1. by rewrite Heq. }
    specialize (Hmin _ _ Hb). lia.
Qed.

Lemma exec_lit_is_Some {R} (w o s' : string) g
    (k : string → option string → option R) :
  lower o = lower w → is_Some (k s' g) → is_Some (exec (lit w) (o +:+ s') g k).
Proof. intros Ho [x Hx]. exists x. apply exec_lit. by exists o, s'. Qed.

(** Wherever a block starts, the pattern matches. *)
Lemma match_here_pattern_complete s body rest :
  block_at s body rest → is_Some (match_here pattern s).
Proof.
  intros (o & c & -> & Ho & Hc). unfold match_here, pattern. cbn [exec].
  apply exec_lit_is_Some; [done|]. apply star_dotall_complete.
  apply exec_lit_is_Some; [done|]. by eexists.
Qed.

Lemma pattern_consuming : consuming pattern.
Proof.
  intros s g rest (body & _ & (o & c & -> & Ho & Hc) & _)%match_here_pattern.
  exists (o +:+ body +:+ c). split.
  - destruct o; [done|]. done.
  - by rewrite !str_app_assoc.
Qed.

(** What [re.search] finds is the first block. *)
Lemma search_pattern_first_block text m :
  search pattern text = Some m → is_first_block text m.
Proof.
  intros (q & -> & Hq & Hleft)%search_Some.
  apply match_here_pattern in Hq as (body & Hg & Hb & Hmin).
  exists body, q. repeat split; [done..|].
  intros p' q' body' rest' Heq Hb'.
  destruct (le_lt_dec (String.length (before m)) (String.length p'))
    as [|Hlt]; [done|exfalso].
  apply match_here_pattern_complete in Hb' as [x Hx].
  by rewrite (Hleft p' q' Heq Hlt) in Hx.
Qed.

(** *** The parser *)

Lemma has_required_false spec field :
  field ∈ required_fields → dict_get field spec = None →
  has_required spec = false.
Proof.
  intros Hin Hget. apply not_true_iff_false. intros Hall.
  unfold has_required in Hall. rewrite forallb_forall in Hall.
  specialize (Hall field). unfold dict_mem in Hall. rewrite Hget in Hall.
  apply list_elem_of_In in Hin. by specialize (Hall Hin).
Qed.

(** A spec is only ever returned complete. *)
Lemma parse_viz_spec_Some text spec cleaned :
  parse_viz_spec text = (Some spec, cleaned) →
  ∀ field, field ∈ required_fields → is_Some (dict_get field spec).
Proof.
  unfold parse_viz_spec. destruct text as [|a text]; [done|].
  destruct (search pattern (String a text)) as [m|]; [|done].
  destruct (has_required _) eqn:Hreq; [|done]. intros [= <- _] field Hin.
  unfold has_required in Hreq. rewrite forallb_forall in Hreq.
  apply list_elem_of_In in Hin. specialize (Hreq field Hin).
  unfold dict_mem in Hreq. by destruct (dict_get field _).
Qed.

(** Without a spec the text comes back as it went in. *)
Lemma parse_viz_spec_None text :
  (parse_viz_spec text).1 = None → (parse_viz_spec text).2 = text.
Proof.
  unfold parse_viz_spec. destruct text as [|a text]; [done|].
  destruct (search pattern (String a text)) as [m|]; [|done].
  by destruct (has_required _).
Qed.

(** C4.  When the first block of the text yields a set of keys that
    lacks one of [chart_type], [x_axis], [y_axis], the parser returns no
    spec and the input text itself. *)
Theorem incomplete_directive_unchanged (text : string) (m : found) (field : string) :
  search pattern text = Some m →
  field ∈ required_fields →
  dict_get field (parse_block (strip (group m))) = None →
  parse_viz_spec text = (None, text).
Proof.
  intros Hs Hin Hget. unfold parse_viz_spec. rewrite Hs.
  rewrite (has_required_false _ field Hin Hget). by destruct text.
Qed.

Lemma incomplete_directive_unchanged_witness :
  let text := "a [viz_start] chart_type: bar x_axis: R [VIZ_END] b" in
  let m := {| before := "a "; group1 := Some " chart_type: bar x_axis: R ";
              after := " b" |} in
  search pattern text = Some m
  ∧ dict_keys (parse_block (strip (group m))) = ["chart_type"; "x_axis"]
  ∧ parse_viz_spec text = (None, text).
Proof.
  intros text m.
  assert (Hs : search pattern text = Some m) by (vm_compute; reflexivity).
  split; [exact Hs|]. split; [vm_compute; reflexivity|].
  apply (incomplete_directive_unchanged text m "y_axis" Hs).
  - unfold required_fields. set_solver.
  - vm_compute. reflexivity.
Defined.

(** C5.  The one-line directive of the specification: the block has no
    newline, so the values come from the per-field searches, and the
    parser returns the three fields and the text around the block. *)
Theorem parse_single_line_directive :
  let text := "answer [VIZ_START] chart_type: bar x_axis: Region y_axis: Sales [VIZ_END] more" in
  let block := "chart_type: bar x_axis: Region y_axis: Sales" in
  parse_viz_spec text
    = (Some [("chart_type", "bar"); ("x_axis", "Region"); ("y_axis", "Sales")],
       "answer  more")
  ∧ search pattern text
    = Some {| before := "answer "; group1 := Some (" " +:+ block +:+ " ");
              after := " more" |}
  ∧ contains_char "010" block = false
  ∧ (group <$> search (field_pattern "chart_type") block) = Some "bar"
  ∧ (group <$> search (field_pattern "x_axis") block) = Some "Region"
  ∧ (group <$> search (field_pattern "y_axis") block) = Some "Sales".
Proof. vm_compute. repeat split. Qed.

(** C10, as stated, fails: with two blocks in the text, the second
    block is stripped from the cleaned text as well. *)
Lemma parse_two_blocks_strips_both :
  let text := "a [VIZ_START] chart_type: bar x_axis: R y_axis: S [VIZ_END] b [VIZ_START] foo [VIZ_END] c" in
  let m := {| before := "a ";
              group1 := Some " chart_type: bar x_axis: R y_axis: S ";
              after := " b [VIZ_START] foo [VIZ_END] c" |} in
  search pattern text = Some m
  ∧ strip (before m +:+ after m) = "a  b [VIZ_START] foo [VIZ_END] c"
  ∧ parse_viz_spec text
    = (Some [("chart_type", "bar"); ("x_axis", "R"); ("y_axis", "S")], "a  b  c")
  ∧ (parse_viz_spec text).2 ≠ strip (before m +:+ after m).
Proof. vm_compute. repeat split; discriminate. Qed.

(** C10, amended.  When the first block of the text parses to a
    complete spec, the parser returns the spec of that first block (the
    leftmost one, closed by the nearest end marker), and the cleaned text
    is the text without any of its blocks, found one after the other from
    left to right, with the surrounding whitespace trimmed. *)
Theorem parse_first_block_strips_every_block (text : string) (m : found) :
  search pattern text = Some m →
  has_required (parse_block (strip (group m))) = true →
  is_first_block text m
  ∧ parse_viz_spec text
    = (Some (parse_block (strip (group m))), strip (remove_all pattern 0 text))
  ∧ matches_removed pattern text (remove_all pattern 0 text)
  ∧ remove_all pattern 0 text = before m +:+ remove_all pattern 0 (after m).
Proof.
  intros Hs Hreq. split; [by apply search_pattern_first_block|].
  split; [|split].
  - unfold parse_viz_spec. rewrite Hs, Hreq. destruct text; [|done].
    vm_compute in Hs. done.
  - apply remove_all_spec, pattern_consuming.
  - apply remove_all_search; [apply pattern_consuming|done].
Qed.

Lemma parse_first_block_strips_every_block_witness :
  let text := "a [VIZ_START] chart_type: bar x_axis: R y_axis: S [VIZ_END] b [VIZ_START] foo [VIZ_END] c" in
  let m := {| before := "a ";
              group1 := Some " chart_type: bar x_axis: R y_axis: S ";
              after := " b [VIZ_START] foo [VIZ_END] c" |} in
  is_first_block text m
  ∧ parse_viz_spec text
    = (Some (parse_block (strip (group m))), strip (remove_all pattern 0 text))
  ∧ matches_removed pattern text (remove_all pattern 0 text)
  ∧ remove_all pattern 0 text = before m +:+ remove_all pattern 0 (after m).
Proof.
  intros text m.
  apply (parse_first_block_strips_every_block text m).
  - vm_compute. reflexivity.
  - vm_compute. reflexivity.
Defined.

End VizParserFacts.

(** ** Pages and cards *)

Module PaginationCover.
Import Py ArtifactStore Pagination PaginationFacts.

Lemma page_rows_valid (rows : list (list cell)) p ps :
  0 < ps → 0 ≤ p < total_pages (len rows) ps →
  page_rows rows p ps = take (Z.to_nat ps) (drop (Z.to_nat p * Z.to_nat ps) rows).
Proof.
  intros Hps Hp.
  rewrite <- (clamp_page_id p (total_pages (len rows) ps)) at 1 by lia.
  rewrite page_rows_clamped by done.
  rewrite clamp_page_id by lia. do 2 f_equal. lia.
Qed.

Lemma concat_chunks {A} (l : list A) (n k : nat) :
  concat ((fun i => take n (drop (i * n) l)) <$> seq 0 k) = take (k * n) l.
Proof.
  induction k as [|k IH]; [done|].
  rewrite seq_S, fmap_app, concat_app, IH. simpl.
  rewrite app_nil_r, take_take_drop. f_equal. lia.
Qed.

Lemma seqZ_of_nat (k : nat) : seqZ 0 (Z.of_nat k) = Z.of_nat <$> seq 0 k.
Proof.
  induction k as [|k IH]; [done|].
  rewrite seqZ_S, IH, seq_S, fmap_app. done.
Qed.

(** X1.  The pages of a result, one after the other, are its rows: every row
    is on exactly one page, in order. *)
Theorem pages_cover_rows (rows : list (list cell)) (page_size : Z) :
  0 < page_size →
  let tp := total_pages (len rows) page_size in
  concat ((fun p => page_rows rows p page_size) <$> seqZ 0 tp) = rows
  ∧ ∀ p, 0 ≤ p < tp →
      (length (page_rows rows p page_size) ≤ Z.to_nat page_size)%nat
      ∧ (rows ≠ [] → page_rows rows p page_size ≠ []).
Proof.
  intros Hps tp.
  assert (Htp : 1 ≤ tp) by apply total_pages_pos.
  assert (Hcover : len rows ≤ tp * page_size ∧ (tp - 1) * page_size < Z.max 1 (len rows)).
  { unfold tp, total_pages, len.
    pose proof (Z.mul_div_le (Z.of_nat (length rows) + page_size - 1) page_size Hps).
    pose proof (Z.mul_succ_div_gt (Z.of_nat (length rows) + page_size - 1) page_size Hps).
    destruct (Z.max_spec 1 ((Z.of_nat (length rows) + page_size - 1) / page_size))
      as [[? ->]|[? ->]]; nia. }
  split.
  - rewrite <- (Z2Nat.id tp) by lia. rewrite seqZ_of_nat, <- list_fmap_compose.
    rewrite (list_fmap_ext _ (fun i => take (Z.to_nat page_size)
                                 (drop (i * Z.to_nat page_size) rows)) (seq 0 (Z.to_nat tp))).
    + rewrite concat_chunks. apply take_ge. unfold len in Hcover. nia.
    + intros i x Hi. apply lookup_seq in Hi as [-> Hi]. simpl.
      rewrite page_rows_valid by lia. by rewrite Nat2Z.id.
  - intros p Hp. rewrite page_rows_valid by done. split.
    + rewrite length_take. lia.
    + intros Hne Hnil. apply (f_equal length) in Hnil.
      rewrite length_take, length_drop in Hnil. simpl in Hnil.
      destruct rows; [done|]. unfold len in Hcover. simpl length in *. nia.
Qed.

Lemma pages_cover_rows_witness :
  let rows := (fun i => [Some (str_of_int i)]) <$> seqZ 0 45 in
  0 < PAGE_SIZE
  ∧ concat ((fun p => page_rows rows p PAGE_SIZE) <$> seqZ 0 3) = rows.
Proof.
  intros rows. split; [reflexivity|].
  exact (proj1 (pages_cover_rows rows PAGE_SIZE eq_refl)).
Defined.

End PaginationCover.

Module CardFacts.
Import Py ArtifactStore Pagination PaginationFacts CardView ReFacts.

Lemma length_string_of_list_ascii (l : list ascii) :
  String.length (string_of_list_ascii l) = length l.
Proof. induction l as [|a l IH]; simpl; [done|]. by rewrite IH. Qed.

Lemma length_list_ascii_of_string (s : string) :
  length (list_ascii_of_string s) = String.length s.
Proof. induction s as [|a s IH]; simpl; [done|]. by rewrite IH. Qed.

Lemma string_of_list_ascii_app (l1 l2 : list ascii) :
  string_of_list_ascii (l1 ++ l2) = string_of_list_ascii l1 +:+ string_of_list_ascii l2.
Proof. induction l1 as [|a l IH]; simpl; [done|]. by rewrite IH. Qed.

Lemma str_slice_prefix (s : string) (n : nat) :
  str_slice s None (Some (Z.of_nat n))
  = string_of_list_ascii (take n (list_ascii_of_string s)).
Proof.
  unfold str_slice, slice, slice_index, len. f_equal.
  destruct (Z.ltb_spec (Z.of_nat n) 0) as [?|_]; [lia|].
  simpl drop. rewrite Z.sub_0_r.
  destruct (Z.min_spec (Z.of_nat n) (Z.of_nat (length (list_ascii_of_string s))))
    as [[? ->]|[Hle ->]]; rewrite Nat2Z.id; [done|].
  rewrite (take_ge _ n) by lia. apply firstn_all.
Qed.

(** X2.  A cell is shown with at most 53 characters: short values as they
    are, long ones as their first 50 characters and an ellipsis; a null
    as a dash. *)
Theorem display_val_bounded (val : cell) :
  str_len (display_val val) ≤ 53
  ∧ match val with
    | None => display_val val = "-"
    | Some s =>
        (str_len s ≤ 50 → display_val val = s)
        ∧ (50 < str_len s →
           ∃ head rest, s = head +:+ rest ∧ str_len head = 50
                        ∧ display_val val = head +:+ "...")
    end.
Proof.
  destruct val as [s|]; [|split; [by vm_compute|done]].
  unfold display_val. change 50 with (Z.of_nat 50). rewrite str_slice_prefix.
  unfold str_len.
  destruct (Z.ltb_spec (Z.of_nat 50) (Z.of_nat (String.length s))) as [Hlong|Hshort].
  - assert (Hl : String.length (string_of_list_ascii (take 50 (list_ascii_of_string s))) = 50%nat).
    { rewrite length_string_of_list_ascii, length_take, length_list_ascii_of_string. lia. }
    split; [rewrite str_length_app, Hl; simpl; lia|].
    split; [lia|]. intros _.
    exists (string_of_list_ascii (take 50 (list_ascii_of_string s))),
           (string_of_list_ascii (drop 50 (list_ascii_of_string s))).
    split; [|split; [lia|done]].
    by rewrite <- string_of_list_ascii_app, take_drop, string_of_list_ascii_of_string.
  - rewrite take_ge by (rewrite length_list_ascii_of_string; lia).
    rewrite string_of_list_ascii_of_string, str_app_nil_r.
    split; [lia|]. split; [done|lia].
Qed.

(** X3.  A card links to the previous page exactly when there is one and to
    the next page exactly when there is one, and every page it links to
    exists. *)
Theorem card_navigation_targets
    (result : QueryResult) (page page_size : Z) (result_id : option string) :
  0 < page_size →
  let tp := total_pages (len (data_rows result)) page_size in
  let p := clamp_page page tp in
  ∃ card,
    create_paginated_card result page page_size result_id = Some card
    ∧ nav_targets card
      = (if 0 <? p then [p - 1] else []) ++ (if p <? tp - 1 then [p + 1] else [])
    ∧ ∀ t, t ∈ nav_targets card → 0 ≤ t ≤ tp - 1.
Proof.
  intros Hps tp p. unfold create_paginated_card.
  destruct (Z.eqb_spec page_size 0) as [?|_]; [lia|].
  cbv zeta. fold tp. fold p. eexists. split; [done|].
  assert (Hp : 0 ≤ p ≤ tp - 1) by apply clamp_page_range, total_pages_pos.
  destruct (Z.ltb_spec 0 p), (Z.ltb_spec p (tp - 1));
    (split; [reflexivity|cbn; intros t Ht;
            rewrite ?elem_of_cons, elem_of_nil in Ht; lia]).
Qed.

Lemma card_navigation_targets_witness :
  let result :=
    {| text := "Here's what I found:"; sql := None; columns := ["n"];
       data_rows := (fun i => [Some (str_of_int i)]) <$> seqZ 0 45;
       conversation_id := None; suggested_questions := [];
       viz_spec := None; error := false |} in
  0 < PAGE_SIZE
  ∧ ∃ card, create_paginated_card result 1 PAGE_SIZE (Some "result_1") = Some card
            ∧ nav_targets card = [0; 2].
Proof.
  intros result. split; [reflexivity|].
  destruct (card_navigation_targets result 1 PAGE_SIZE (Some "result_1") eq_refl)
    as (card & Hcard & Hnav & _).
  exists card. split; [exact Hcard|]. rewrite Hnav. reflexivity.
Defined.

End CardFacts.

(** ** Sorting, pie slices and column resolution *)

Module SortFacts.
Import Py ArtifactStore Chart ChartFacts.

Section Insertion.
Context {A : Type} (before : A → A → bool).

Lemma insert_sorted_perm x l : insert_sorted before x l ≡ₚ x :: l.
Proof.
  induction l as [|y l IH]; simpl; [done|].
  destruct (before y x); [|done]. rewrite IH. apply Permutation_swap.
Qed.

Lemma stable_sort_perm l : stable_sort before l ≡ₚ l.
Proof.
  induction l as [|x l IH]; simpl; [done|].
  by rewrite insert_sorted_perm, IH.
Qed.
End Insertion.

(** Sorting reorders the pairs and nothing else. *)
Lemma sort_by_value_perm (reverse : bool) (paired : list (string * Q)) :
  sort_by_value reverse paired ≡ₚ paired.
Proof. apply stable_sort_perm. Qed.

End SortFacts.

Module PieFacts.
Import Py ArtifactStore Chart ChartFacts SortFacts.

(** X5.  A pie has at most eight slices.  With eight categories or fewer
    the labels and values are plotted as they are given.  With more the
    pie has eight slices: seven of the input pairs, each with its own
    label and value, then one slice labelled ["Other"]; the pairs kept
    and the pairs left out are together the pairs of the input. *)
Theorem pie_slices_shape (x_data : list string) (y_data : list Q) :
  length y_data = length x_data →
  let '(x_pie, y_pie) := pie_slices x_data y_data in
  length y_pie = length x_pie
  ∧ (length x_pie ≤ 8)%nat
  ∧ ((length x_data ≤ 8)%nat → x_pie = x_data ∧ y_pie = y_data)
  ∧ ((8 < length x_data)%nat →
     ∃ kept rest other,
       kept ++ rest ≡ₚ zip x_data y_data
       ∧ length kept = 7%nat
       ∧ x_pie = kept.*1 ++ ["Other"]
       ∧ y_pie = kept.*2 ++ [other]).
Proof.
  intros Hlen. unfold pie_slices.
  destruct (Z.ltb_spec 8 (len x_data)) as [Hgt|Hle]; unfold len in *.
  - set (sorted := sort_by_value true (zip x_data y_data)).
    pose proof (sort_by_value_perm true (zip x_data y_data)) as Hperm.
    fold sorted in Hperm.
    assert (Hls : length sorted = length x_data).
    { rewrite Hperm, length_zip_with. lia. }
    assert (Htop : slice sorted None (Some (8 - 1)) = take 7 sorted).
    { unfold slice, slice_index, len. rewrite Hls. simpl drop.
      change (8 - 1 <? 0) with false. cbv iota. f_equal. lia. }
    rewrite Htop.
    assert (Hk : length (take 7 sorted) = 7%nat) by (rewrite length_take; lia).
    split; [by rewrite !length_app, !length_fmap|].
    split; [rewrite length_app, length_fmap, Hk; simpl; lia|].
    split; [lia|]. intros _.
    exists (take 7 sorted), (drop 7 sorted), (sum (snd <$> slice sorted (Some (8 - 1)) None)).
    split; [by rewrite take_drop|]. done.
  - split; [done|]. split; [lia|]. split; [done|lia].
Qed.

Lemma pie_slices_shape_witness :
  let x_data := ["A"; "B"; "C"; "D"; "E"; "F"; "G"; "H"; "I"; "J"] in
  let y_data := [1; 2; 4; 6; 8; 10; 20; 30; 40; 50]%Q in
  length y_data = length x_data
  ∧ length (pie_slices x_data y_data).1 = 8%nat
  ∧ length (pie_slices x_data y_data).2 = 8%nat
  ∧ last (pie_slices x_data y_data).1 = Some "Other".
Proof.
  intros x_data y_data. split; [reflexivity|].
  pose proof (pie_slices_shape x_data y_data eq_refl) as H.
  destruct (pie_slices x_data y_data) as [x_pie y_pie].
  destruct H as (Hl & _ & _ & H).
  destruct H as (kept & rest & other & _ & Hk & -> & ->); [simpl; lia|].
  cbn [fst snd]. rewrite !length_app, !length_fmap, Hk.
  split; [reflexivity|]. split; [reflexivity|]. by rewrite last_snoc.
Defined.

End PieFacts.

Module ColumnFacts.
Import Py ArtifactStore Chart ChartFacts.

Lemma column_index_from_first i columns name_lower j :
  column_index_from i columns name_lower = Some j
  ↔ (i ≤ j)%nat
    ∧ (∃ col, columns !! (j - i)%nat = Some col ∧ lower col = name_lower)
    ∧ ∀ k col, (k < j - i)%nat → columns !! k = Some col → lower col ≠ name_lower.
Proof.
  revert i. induction columns as [|c columns IH]; intros i; simpl.
  - split; [done|]. by intros (_ & (col & Hc & _) & _).
  - destruct (String.eqb_spec (lower c) name_lower) as [Heq|Hne].
    + split.
      * intros [= <-]. split; [done|]. rewrite Nat.sub_diag. split; [by exists c|].
        intros k col Hk. lia.
      * intros (Hij & _ & Hfirst). f_equal.
        destruct (decide (j = i)) as [|Hji]; [done|exfalso].
        apply (Hfirst 0%nat c); [lia|done|done].
    + rewrite IH. split.
      * intros (Hij & (col & Hc & Hl) & Hfirst). split; [lia|]. split.
        -- exists col. replace (j - i)%nat with (S (j - S i)) by lia. done.
        -- intros [|k] col' Hk; simpl; [by intros [= <-]|].
           intros Hc'. apply (Hfirst k col'); [lia|done].
      * intros (Hij & (col & Hc & Hl) & Hfirst).
        destruct (j - i)%nat as [|d] eqn:Hd.
        { simpl in Hc. injection Hc as <-. done. }
        replace (j - S i)%nat with d by lia. split; [lia|]. split.
        -- by exists col.
        -- intros k col' Hk Hc'. apply (Hfirst (S k) col'); [lia|done].
Qed.

Lemma _get_column_index_lt columns name j :
  _get_column_index columns name = Some j → (j < length columns)%nat.
Proof.
  intros H. apply column_index_from_first in H as (_ & (col & Hc & _) & _).
  apply lookup_lt_Some in Hc. lia.
Qed.

(** X6.  Column resolution returns the position of the first column whose
    name equals the requested one up to letter case, and nothing when
    there is none. *)
Theorem _get_column_index_first (columns : list string) (name : string) :
  (∀ j, _get_column_index columns name = Some j
        ↔ (∃ col, columns !! j = Some col ∧ lower col = lower name)
          ∧ ∀ (i : nat) col, (i < j)%nat → columns !! i = Some col →
              lower col ≠ lower name)
  ∧ (_get_column_index columns name = None
     ↔ ∀ col, col ∈ columns → lower col ≠ lower name).
Proof.
  split.
  - intros j. unfold _get_column_index. rewrite column_index_from_first.
    rewrite Nat.sub_0_r. split; [by intros (_ & ? & ?)|].
    intros [? ?]. split; [lia|done].
  - split.
    + intros Hnone col [j Hj]%list_elem_of_lookup_1 Heq.
      destruct (matches_column columns name) eqn:Hm.
      * apply _get_column_index_matched in Hm as (k & c & Hk & _). congruence.
      * unfold matches_column in Hm. apply not_true_iff_false in Hm. apply Hm.
        apply existsb_exists. exists col. split.
        -- apply list_elem_of_In. by eapply list_elem_of_lookup_2.
        -- by apply String.eqb_eq.
    + intros Hall. apply _get_column_index_unmatched. apply not_true_iff_false.
      intros (col & Hin & Heq%String.eqb_eq)%existsb_exists.
      apply (Hall col); [by apply list_elem_of_In|done].
Qed.

End ColumnFacts.
(** ** The chart generator on whole tables *)

Module GenerateFacts.
Import Py ArtifactStore Chart ChartFacts SortFacts ColumnFacts ChartView.

Lemma traverse_raise {A B} (f : A → outcome B) (l : list A) x :
  x ∈ l → f x = Raise → traverse f l = Raise.
Proof.
  intros Hin Hx. induction l as [|y l IH]; [by apply elem_of_nil in Hin|].
  apply elem_of_cons in Hin as [<-|Hin]; simpl.
  - by rewrite Hx.
  - rewrite (IH Hin). by destruct (f y).
Qed.

Lemma traverse_return {A B} (f : A → outcome B) (g : A → B) (l : list A) :
  (∀ x, x ∈ l → f x = Return (g x)) → traverse f l = Return (g <$> l).
Proof.
  induction l as [|y l IH]; intros Hf; simpl; [done|].
  rewrite (Hf y) by apply list_elem_of_here. simpl.
  rewrite IH; [done|]. intros x Hx. apply Hf. by apply list_elem_of_further.
Qed.

Lemma omap_id_all_None {A} (l : list (option A)) :
  (∀ x, x ∈ l → x = None) → omap id l = [].
Proof.
  induction l as [|y l IH]; intros Hl; [done|]. simpl.
  rewrite (Hl y) by apply list_elem_of_here. simpl.
  apply IH. intros x Hx. apply Hl. by apply list_elem_of_further.
Qed.

(** X7.  Nothing is plotted without data: whatever the spec and the plotting
    library, [generate] returns [None] when the x cell of every row is
    null (in particular when there are no rows), and when some row is too
    short to have an x cell. *)
Theorem generate_without_data
    (float_of_string : string → option Q)
    (draw : chart_kind → list string → list Q → string → string → string →
            outcome string)
    (viz_spec : dict string) (columns : list string)
    (data_rows : list (list cell)) (x_idx : nat) :
  _get_column_index columns (x_col viz_spec) = Some x_idx →
  (∀ row, row ∈ data_rows → row !! x_idx = Some None)
  ∨ (∃ row, row ∈ data_rows ∧ row !! x_idx = None) →
  generate float_of_string draw viz_spec columns data_rows = None.
Proof.
  intros Hx Hrows. unfold generate, generate_body. rewrite Hx.
  destruct (_get_column_index columns (y_col viz_spec)) as [y_idx|]; [|done].
  destruct Hrows as [Hnull|(row & Hin & Hshort)].
  - rewrite (traverse_return (fun row : list cell => index row x_idx) (fun _ => None)).
    2:{ intros row Hin. cbv beta. unfold index.
        generalize (Hnull row Hin). unfold cell. by intros ->. }
    cbn [mbind outcome_bind].
    rewrite omap_id_all_None.
    2:{ intros x (row & -> & _)%list_elem_of_fmap. done. }
    by destruct (traverse _ data_rows).
  - rewrite (traverse_raise (fun row : list cell => index row x_idx) _ row Hin); [done|].
    unfold index. revert Hshort. unfold cell. by intros ->.
Qed.

Lemma generate_without_data_witness :
  let viz_spec := [("chart_type", "bar"); ("x_axis", "Region"); ("y_axis", "Sales")] in
  let columns := ["Region"; "Sales"] in
  let data_rows := [[None; Some "10"]; [None; Some "20"]] in
  let draw := fun (_ : chart_kind) (_ : list string) (_ : list Q)
                  (_ _ _ : string) => Return "iVBORw0KGgo=" in
  _get_column_index columns (x_col viz_spec) = Some 0%nat
  ∧ generate (fun _ => Some 1%Q) draw viz_spec columns data_rows = None.
Proof.
  intros viz_spec columns data_rows draw.
  assert (Hx : _get_column_index columns (x_col viz_spec) = Some 0%nat) by reflexivity.
  split; [exact Hx|].
  apply (generate_without_data _ draw viz_spec columns data_rows 0%nat Hx).
  left. intros row Hin. unfold data_rows in Hin.
  rewrite !elem_of_cons, elem_of_nil in Hin. by destruct Hin as [->|[->|[]]].
Defined.

Lemma omap_id_fmap {A B} (f : A → option B) (l : list A) :
  omap id (f <$> l) = omap f l.
Proof.
  induction l as [|x l IH]; [done|]. rewrite fmap_cons.
  unfold omap in *. simpl. by rewrite IH.
Qed.

Ltac has_x_cases row x_idx IH :=
  let Hx := fresh "Hx" in
  let Hh := fresh "Hh" in
  unfold omap in *; cbn [List.filter];
  destruct (row !! x_idx) as [[?|]|] eqn:Hx;
  first [ assert (Hh : has_x x_idx row = true) by (unfold has_x; by rewrite Hx)
        | assert (Hh : has_x x_idx row = false) by (unfold has_x; by rewrite Hx) ];
  rewrite ?Hh; simpl; rewrite ?Hx; simpl; by rewrite ?IH.

Lemma omap_filter_has_x (x_idx : nat) (rows : list (list (option string))) :
  omap (fun row => mjoin (row !! x_idx)) rows
  = omap (fun row => mjoin (row !! x_idx)) (List.filter (has_x x_idx) rows).
Proof. induction rows as [|row rows IH]; [done|]. has_x_cases row x_idx IH. Qed.

Lemma length_omap_has_x (x_idx : nat) (rows : list (list (option string))) :
  length (omap (fun row => mjoin (row !! x_idx)) (List.filter (has_x x_idx) rows))
  = length (List.filter (has_x x_idx) rows).
Proof. induction rows as [|row rows IH]; [done|]. has_x_cases row x_idx IH. Qed.

Lemma omap_y_filter_has_x {B} (x_idx : nat) (h : list (option string) → B)
    (rows : list (list (option string))) :
  omap (fun row => match mjoin (row !! x_idx) with
                   | Some _ => Some (h row) | None => None end) rows
  = h <$> List.filter (has_x x_idx) rows.
Proof. induction rows as [|row rows IH]; [done|]. has_x_cases row x_idx IH. Qed.

Lemma slice_prefix {A} (l : list A) (n : Z) :
  0 ≤ n → slice l None (Some n) = take (Z.to_nat n) l.
Proof.
  intros Hn. unfold slice, slice_index, len.
  rewrite (proj2 (Z.ltb_ge n 0)) by lia.
  change (Z.to_nat 0) with 0%nat. rewrite drop_0.
  destruct (Z.le_ge_cases n (Z.of_nat (length l))).
  - f_equal. lia.
  - rewrite !take_ge by lia. done.
Qed.

Lemma bar_bars_take (x_data : list string) (y_data : list Q) :
  length y_data = length x_data →
  bar_bars x_data y_data = (take 15 x_data, take 15 y_data).
Proof.
  intros Hlen. unfold bar_bars.
  destruct (Z.ltb_spec 15 (len x_data)) as [Hgt|Hle]; unfold len in *.
  - by rewrite !slice_prefix by lia.
  - by rewrite !take_ge by lia.
Qed.

(** On a rectangular table whose columns resolve, [generate] hands the
    rows with a non-null x cell to the renderer, sorted first when the
    spec asks for it. *)
Lemma generate_series
    (float_of_string : string → option Q)
    (draw : chart_kind → list string → list Q → string → string → string →
            outcome string)
    (viz_spec : dict string) (columns : list string)
    (data_rows : list (list cell)) (x_idx y_idx : nat) :
  _get_column_index columns (x_col viz_spec) = Some x_idx →
  _get_column_index columns (y_col viz_spec) = Some y_idx →
  Forall (fun row => length row = length columns) data_rows →
  let kept := List.filter (has_x x_idx) data_rows in
  let x_data := omap (fun row : list cell => mjoin (row !! x_idx)) kept in
  let y_data :=
    (fun row : list cell => _to_numeric float_of_string (mjoin (row !! y_idx)))
      <$> kept in
  let sort_order := lower (default "none" (dict_get "sort" viz_spec)) in
  let paired :=
    sort_by_value (String.eqb sort_order "desc") (zip x_data y_data) in
  let series :=
    if String.eqb sort_order "asc" || String.eqb sort_order "desc"
    then (paired.*1, paired.*2) else (x_data, y_data) in
  length x_data = length kept ∧ length y_data = length kept
  ∧ generate float_of_string draw viz_spec columns data_rows
    = match kept with
      | [] => None
      | _ :: _ =>
          match chart_methods draw
                  (lower (default "bar" (dict_get "chart_type" viz_spec)))
                  series.1 series.2
                  (default "Chart" (dict_get "title" viz_spec))
                  (default (x_col viz_spec) (dict_get "x_label" viz_spec))
                  (default (y_col viz_spec) (dict_get "y_label" viz_spec))
          with
          | Return img => Some img
          | Raise => None
          end
      end.
Proof.
  intros Hx Hy Hrect kept x_data y_data sort_order paired series.
  unfold cell in *.
  assert (Hxl : (x_idx < length columns)%nat)
    by (by apply _get_column_index_lt in Hx).
  assert (Hyl : (y_idx < length columns)%nat)
    by (by apply _get_column_index_lt in Hy).
  assert (Hcell : ∀ (i : nat) row, (i < length columns)%nat → row ∈ data_rows →
            index row i = Return (mjoin (row !! i))).
  { intros i row Hi Hin. rewrite Forall_forall in Hrect.
    specialize (Hrect row Hin). cbv beta in Hrect. unfold index.
    assert (Hi' : (i < length row)%nat) by (unfold cell in *; lia).
    destruct (lookup_lt_is_Some_2 _ _ Hi') as [c Hc].
    revert Hc. unfold cell. by intros ->. }
  assert (Hlx : length x_data = length kept) by apply length_omap_has_x.
  assert (Hly : length y_data = length kept) by apply length_fmap.
  split; [done|]. split; [done|].
  unfold generate, generate_body. rewrite Hx, Hy.
  rewrite (traverse_return (fun row : list (option string) => index row x_idx)
             (fun row => mjoin (row !! x_idx))) by (intros; by apply Hcell).
  cbn [mbind outcome_bind].
  rewrite (traverse_return
             (fun row : list (option string) =>
                x ← index row x_idx;
                match x with
                | Some _ => y ← index row y_idx;
                            Return (Some (_to_numeric float_of_string y))
                | None => Return None
                end)
             (fun row => match mjoin (row !! x_idx) with
                         | Some _ => Some (_to_numeric float_of_string (mjoin (row !! y_idx)))
                         | None => None
                         end)).
  2:{ intros row Hin. cbv beta. rewrite (Hcell x_idx row Hxl Hin).
      cbn [mbind outcome_bind]. destruct (mjoin (row !! x_idx)); [|done].
      by rewrite (Hcell y_idx row Hyl Hin). }
  cbn [mbind outcome_bind].
  rewrite !omap_id_fmap.
  rewrite omap_filter_has_x.
  rewrite (omap_y_filter_has_x x_idx
             (fun row => _to_numeric float_of_string (mjoin (row !! y_idx)))).
  fold kept. fold x_data. fold y_data.
  destruct kept as [|row0 kept']; [by destruct x_data, y_data|].
  destruct x_data as [|x0 x_data']; [done|]. destruct y_data as [|y0 y_data']; [done|].
  fold sort_order. unfold series, paired.
  destruct (String.eqb sort_order "asc" || String.eqb sort_order "desc"); cbn [fst snd];
    match goal with |- context [chart_methods ?d ?t ?x ?y ?a ?b ?c] =>
      by destruct (chart_methods d t x y a b c) end.
Qed.

(** What the renderers other than the pie hand to the plotting library. *)
Lemma chart_methods_no_pie
    (draw : chart_kind → list string → list Q → string → string → string →
            outcome string)
    (chart_type : string) (x_data : list string) (y_data : list Q)
    (title x_label y_label : string) :
  chart_type ≠ "pie" → length y_data = length x_data →
  chart_methods draw chart_type x_data y_data title x_label y_label
  = if String.eqb chart_type "line"
    then draw Line x_data y_data title x_label y_label
    else if String.eqb chart_type "scatter"
    then draw Scatter x_data y_data title x_label y_label
    else if String.eqb chart_type "area"
    then draw Area x_data y_data title x_label y_label
    else draw Bar (take 15 x_data) (take 15 y_data) title x_label y_label.
Proof.
  intros Hpie Hlen.
  assert (Hbar : _create_bar_chart draw x_data y_data title x_label y_label
                 = draw Bar (take 15 x_data) (take 15 y_data) title x_label y_label).
  { unfold _create_bar_chart. by rewrite bar_bars_take. }
  unfold chart_methods.
  rewrite (proj2 (String.eqb_neq chart_type "pie")) by done.
  destruct (String.eqb chart_type "bar") eqn:Hb.
  { apply String.eqb_eq in Hb. by rewrite Hb. }
  by repeat case_match.
Qed.

Lemma zip_filter_has_x {B} (x_idx : nat) (h : list (option string) → B)
    (rows : list (list (option string))) :
  zip (omap (fun row => mjoin (row !! x_idx)) (List.filter (has_x x_idx) rows))
      (h <$> List.filter (has_x x_idx) rows)
  = omap (fun row => x ← mjoin (row !! x_idx); Some (x, h row)) rows.
Proof.
  induction rows as [|row rows IH]; [done|].
  unfold omap in *. cbn [List.filter].
  destruct (row !! x_idx) as [[x|]|] eqn:Hx;
    first [ assert (Hh : has_x x_idx row = true) by (unfold has_x; by rewrite Hx)
          | assert (Hh : has_x x_idx row = false) by (unfold has_x; by rewrite Hx) ];
    rewrite Hh; simpl; rewrite Hx; simpl;
    first [exact IH | f_equal; exact IH].
Qed.

(** X8.  On a rectangular table whose columns resolve, for a spec that
    asks for no sorting and for no pie, [generate] plots exactly the rows
    with a non-null x cell, in the order of the table: their x cells
    against their y cells made numeric.  A line, scatter or area chart
    gets all of them, a bar chart (also chosen for an unknown chart
    type) the first fifteen.  The result is the image drawn, and [None]
    when no such row exists or the drawing raises. *)
Theorem generate_rectangular
    (float_of_string : string → option Q)
    (draw : chart_kind → list string → list Q → string → string → string →
            outcome string)
    (viz_spec : dict string) (columns : list string)
    (data_rows : list (list cell)) (x_idx y_idx : nat) :
  _get_column_index columns (x_col viz_spec) = Some x_idx →
  _get_column_index columns (y_col viz_spec) = Some y_idx →
  Forall (fun row => length row = length columns) data_rows →
  let sort_order := lower (default "none" (dict_get "sort" viz_spec)) in
  let chart_type := lower (default "bar" (dict_get "chart_type" viz_spec)) in
  sort_order ≠ "asc" → sort_order ≠ "desc" → chart_type ≠ "pie" →
  let kept := List.filter (has_x x_idx) data_rows in
  let x_data := omap (fun row : list cell => mjoin (row !! x_idx)) kept in
  let y_data :=
    (fun row : list cell => _to_numeric float_of_string (mjoin (row !! y_idx)))
      <$> kept in
  let title := default "Chart" (dict_get "title" viz_spec) in
  let x_label := default (x_col viz_spec) (dict_get "x_label" viz_spec) in
  let y_label := default (y_col viz_spec) (dict_get "y_label" viz_spec) in
  let drawn :=
    if String.eqb chart_type "line"
    then draw Line x_data y_data title x_label y_label
    else if String.eqb chart_type "scatter"
    then draw Scatter x_data y_data title x_label y_label
    else if String.eqb chart_type "area"
    then draw Area x_data y_data title x_label y_label
    else draw Bar (take 15 x_data) (take 15 y_data) title x_label y_label in
  length x_data = length kept ∧ length y_data = length kept
  ∧ generate float_of_string draw viz_spec columns data_rows
    = match kept with
      | [] => None
      | _ :: _ =>
          match drawn with
          | Return img => Some img
          | Raise => None
          end
      end.
Proof.
  intros Hx Hy Hrect sort_order chart_type Hasc Hdesc Hpie
         kept x_data y_data title x_label y_label drawn.
  destruct (generate_series float_of_string draw viz_spec columns data_rows
              x_idx y_idx Hx Hy Hrect) as (Hlx & Hly & Hgen).
  fold kept x_data y_data sort_order chart_type title x_label y_label in Hlx, Hly, Hgen.
  split; [done|]. split; [done|]. rewrite Hgen.
  rewrite (proj2 (String.eqb_neq sort_order "asc")) by done.
  rewrite (proj2 (String.eqb_neq sort_order "desc")) by done.
  cbn [orb fst snd].
  by rewrite chart_methods_no_pie by (done || lia).
Qed.

Lemma generate_rectangular_witness :
  let viz_spec := [("chart_type", "line"); ("x_axis", "region");
                   ("y_axis", "Sales")] in
  let columns := ["Region"; "Sales"] in
  let data_rows := [[Some "East"; Some "10"]; [None; Some "5"];
                    [Some "West"; Some "20"]] in
  let float_of_string := fun s : string =>
    (fun i => inject_Z (Z.of_int i)) <$> NilEmpty.int_of_string s in
  let draw := fun (_ : chart_kind) (x : list string) (_ : list Q)
                  (_ _ _ : string) => Return (String.concat "," x) in
  _get_column_index columns (x_col viz_spec) = Some 0%nat
  ∧ _get_column_index columns (y_col viz_spec) = Some 1%nat
  ∧ generate float_of_string draw viz_spec columns data_rows = Some "East,West".
Proof.
  intros viz_spec columns data_rows float_of_string draw.
  assert (Hx : _get_column_index columns (x_col viz_spec) = Some 0%nat) by reflexivity.
  assert (Hy : _get_column_index columns (y_col viz_spec) = Some 1%nat) by reflexivity.
  assert (Hrect : Forall (fun row : list cell => length row = length columns) data_rows)
    by (repeat constructor).
  split; [exact Hx|]. split; [exact Hy|].
  destruct (generate_rectangular float_of_string draw viz_spec columns data_rows
              0%nat 1%nat Hx Hy Hrect ltac:(by vm_compute) ltac:(by vm_compute)
              ltac:(by vm_compute)) as (_ & _ & Hgen).
  rewrite Hgen. vm_compute. reflexivity.
Defined.

(** X4.  Sorting reorders and does nothing else.  On a rectangular table
    whose columns resolve, for a spec that asks for an ascending or a
    descending sort and for no pie, the series [generate] plots is a
    rearrangement of the rows with a non-null x cell: every x cell still
    with the numeric value of its own row, none lost and none added.  A
    line, scatter or area chart gets the whole series, a bar chart its
    first fifteen pairs. *)
Theorem generate_sorted_pairs
    (float_of_string : string → option Q)
    (draw : chart_kind → list string → list Q → string → string → string →
            outcome string)
    (viz_spec : dict string) (columns : list string)
    (data_rows : list (list cell)) (x_idx y_idx : nat) :
  _get_column_index columns (x_col viz_spec) = Some x_idx →
  _get_column_index columns (y_col viz_spec) = Some y_idx →
  Forall (fun row => length row = length columns) data_rows →
  let sort_order := lower (default "none" (dict_get "sort" viz_spec)) in
  let chart_type := lower (default "bar" (dict_get "chart_type" viz_spec)) in
  sort_order = "asc" ∨ sort_order = "desc" → chart_type ≠ "pie" →
  let kept := List.filter (has_x x_idx) data_rows in
  let title := default "Chart" (dict_get "title" viz_spec) in
  let x_label := default (x_col viz_spec) (dict_get "x_label" viz_spec) in
  let y_label := default (y_col viz_spec) (dict_get "y_label" viz_spec) in
  ∃ series : list (string * Q),
    series
    ≡ₚ omap (fun row : list cell =>
               x ← mjoin (row !! x_idx);
               Some (x, _to_numeric float_of_string (mjoin (row !! y_idx))))
            data_rows
    ∧ let drawn :=
        if String.eqb chart_type "line"
        then draw Line series.*1 series.*2 title x_label y_label
        else if String.eqb chart_type "scatter"
        then draw Scatter series.*1 series.*2 title x_label y_label
        else if String.eqb chart_type "area"
        then draw Area series.*1 series.*2 title x_label y_label
        else draw Bar (take 15 series.*1) (take 15 series.*2)
                  title x_label y_label in
      generate float_of_string draw viz_spec columns data_rows
      = match kept with
        | [] => None
        | _ :: _ =>
            match drawn with
            | Return img => Some img
            | Raise => None
            end
        end.
Proof.
  intros Hx Hy Hrect sort_order chart_type Hsort Hpie kept title x_label y_label.
  destruct (generate_series float_of_string draw viz_spec columns data_rows
              x_idx y_idx Hx Hy Hrect) as (Hlx & Hly & Hgen).
  fold kept sort_order chart_type title x_label y_label in Hlx, Hly, Hgen.
  set (x_data := omap (fun row : list cell => mjoin (row !! x_idx)) kept) in *.
  set (y_data := (fun row : list cell =>
                    _to_numeric float_of_string (mjoin (row !! y_idx))) <$> kept) in *.
  exists (sort_by_value (String.eqb sort_order "desc") (zip x_data y_data)).
  split.
  - rewrite sort_by_value_perm. unfold x_data, y_data, kept.
    by rewrite zip_filter_has_x.
  - cbv zeta. rewrite Hgen.
    assert (String.eqb sort_order "asc" || String.eqb sort_order "desc" = true)
      as -> by (destruct Hsort as [-> | ->]; reflexivity).
    cbn [fst snd].
    by rewrite chart_methods_no_pie by (done || by rewrite !length_fmap).
Qed.

Lemma generate_sorted_pairs_witness :
  let viz_spec := [("chart_type", "line"); ("x_axis", "region");
                   ("y_axis", "Sales"); ("sort", "DESC")] in
  let columns := ["Region"; "Sales"] in
  let data_rows := [[Some "East"; Some "10"]; [None; Some "5"];
                    [Some "West"; Some "20"]] in
  let float_of_string := fun s : string =>
    (fun i => inject_Z (Z.of_int i)) <$> NilEmpty.int_of_string s in
  let draw := fun (_ : chart_kind) (x : list string) (_ : list Q)
                  (_ _ _ : string) => Return (String.concat "," x) in
  _get_column_index columns (x_col viz_spec) = Some 0%nat
  ∧ _get_column_index columns (y_col viz_spec) = Some 1%nat
  ∧ ∃ series : list (string * Q),
      series ≡ₚ [("East", 10%Q); ("West", 20%Q)]
      ∧ generate float_of_string draw viz_spec columns data_rows
        = Some (String.concat "," series.*1).
Proof.
  intros viz_spec columns data_rows float_of_string draw.
  assert (Hx : _get_column_index columns (x_col viz_spec) = Some 0%nat) by reflexivity.
  assert (Hy : _get_column_index columns (y_col viz_spec) = Some 1%nat) by reflexivity.
  assert (Hrect : Forall (fun row : list cell => length row = length columns) data_rows)
    by (repeat constructor).
  split; [exact Hx|]. split; [exact Hy|].
  destruct (generate_sorted_pairs float_of_string draw viz_spec columns data_rows
              0%nat 1%nat Hx Hy Hrect ltac:(right; reflexivity)
              ltac:(by vm_compute)) as (series & Hperm & Hgen).
  exists series. split; [exact Hperm|]. exact Hgen.
Defined.

End GenerateFacts.
(** ** More on the token cache *)

Module TokenCacheMore.
Import TokenCache TokenCacheFacts.

Lemma cache_hit_dec now u mgr : cache_hit now u mgr ∨ ¬ cache_hit now u mgr.
Proof.
  destruct (user_tokens mgr !! u) as [c|] eqn:Hc.
  - destruct (unexpired now c) eqn:Hu.
    + left. exists c. split; [done|]. by apply unexpired_iff.
    + right. intros (c' & Hc' & Hlt). rewrite Hc in Hc'. injection Hc' as <-.
      apply unexpired_iff in Hlt. congruence.
  - right. intros (c' & Hc' & _). congruence.
Qed.

(** X9.  One user's exchange, whatever its outcome, leaves the cached token of
    every other user as it was. *)
Theorem exchange_leaves_other_users
    (now now' : Q) (acquire : string → obo_result) (u v a : string)
    (mgr : UserTokenManager) :
  u ≠ v →
  user_tokens (exchange_for_databricks_token now now' acquire u a mgr).2 !! v
  = user_tokens mgr !! v.
Proof.
  intros Huv. unfold exchange_for_databricks_token.
  destruct (match user_tokens mgr !! u with
            | Some c => unexpired now c | None => false end); [done|].
  destruct (acquire a); cbn [snd user_tokens]; [|done..].
  by apply lookup_insert_ne.
Qed.

Lemma exchange_leaves_other_users_witness :
  let bob := {| token := "bob-token"; expires_at := 5000 |} in
  let mgr := {| user_tokens := {[ "bob" := bob ]}; obo_requests := [] |} in
  let grant := fun _ : string => OboToken "alice-token" None in
  "alice" ≠ "bob"
  ∧ user_tokens (exchange_for_databricks_token 1000 1001 grant
                   "alice" "assertion" mgr).2 !! "bob" = Some bob.
Proof.
  intros bob mgr grant.
  assert (Hne : "alice" ≠ "bob") by discriminate.
  split; [exact Hne|].
  rewrite (exchange_leaves_other_users 1000 1001 grant "alice" "bob" "assertion" mgr Hne).
  vm_compute. reflexivity.
Defined.

(** X10.  A token handed out is never an expired one: it is either the cached
    token, whose expiry lies in the future, with nothing changed, or the
    token the identity provider has just granted, now cached with the
    granted lifetime minus sixty seconds. *)
Theorem exchange_token_is_fresh
    (now now' : Q) (acquire : string → obo_result) (u a tok : string)
    (mgr : UserTokenManager) :
  (exchange_for_databricks_token now now' acquire u a mgr).1 = Some tok →
  let after := (exchange_for_databricks_token now now' acquire u a mgr).2 in
  (∃ c, user_tokens mgr !! u = Some c ∧ (now < expires_at c)%Q
        ∧ token c = tok ∧ after = mgr)
  ∨ (¬ cache_hit now u mgr
     ∧ ∃ e, acquire a = OboToken tok e
            ∧ user_tokens after !! u
              = Some {| token := tok;
                        expires_at := (now' + inject_Z (default 3600%Z e) - 60)%Q |}
            ∧ obo_requests after = obo_requests mgr ++ [a]).
Proof.
  intros Hres after. unfold after. clear after.
  destruct (cache_hit_dec now u mgr) as [(c & Hc & Hlt)|Hmiss].
  - left. exists c. rewrite (exchange_hit _ _ _ _ _ _ _ Hc Hlt) in *.
    cbn [fst snd] in *. by injection Hres as <-.
  - right. split; [done|]. destruct (acquire a) as [tok' e| |] eqn:Hacq.
    + rewrite (exchange_miss_granted _ _ _ _ _ _ _ _ Hmiss Hacq) in *.
      cbn [fst snd user_tokens obo_requests] in *. injection Hres as ->.
      exists e. by rewrite lookup_insert_eq.
    + rewrite exchange_miss_failed in Hres; [done|done|by rewrite Hacq].
    + rewrite exchange_miss_failed in Hres; [done|done|by rewrite Hacq].
Qed.

Lemma exchange_token_is_fresh_witness :
  let stale := {| token := "old-token"; expires_at := 100 |} in
  let mgr := {| user_tokens := {[ "alice" := stale ]}; obo_requests := [] |} in
  let grant := fun _ : string => OboToken "new-token" (Some 3600) in
  let call := exchange_for_databricks_token 200 201 grant "alice" "assertion" mgr in
  call.1 = Some "new-token"
  ∧ user_tokens call.2 !! "alice"
    = Some {| token := "new-token"; expires_at := (201 + inject_Z 3600 - 60)%Q |}.
Proof.
  intros stale mgr grant call.
  assert (Hres : call.1 = Some "new-token") by (vm_compute; reflexivity).
  split; [exact Hres|].
  destruct (exchange_token_is_fresh 200 201 grant "alice" "assertion" "new-token"
              mgr Hres) as [(c & Hc & Hlt & _)|(_ & e & Hacq & Hentry & _)].
  - vm_compute in Hc. injection Hc as <-. vm_compute in Hlt. discriminate.
  - injection Hacq as <-. exact Hentry.
Defined.

(** X11.  Signing a user out drops that user's entry and nobody else's, and
    the next exchange for that user goes to the identity provider. *)
Theorem clear_user_token_forces_exchange
    (mgr : UserTokenManager) (u a : string) (now now' : Q)
    (acquire : string → obo_result) :
  let cleared := clear_user_token u mgr in
  user_tokens cleared !! u = None
  ∧ (∀ v, v ≠ u → user_tokens cleared !! v = user_tokens mgr !! v)
  ∧ obo_requests (exchange_for_databricks_token now now' acquire u a cleared).2
    = obo_requests mgr ++ [a]
  ∧ clear_user_token u cleared = cleared.
Proof.
  intros cleared. unfold cleared, clear_user_token. cbn [user_tokens obo_requests].
  split; [apply lookup_delete_eq|]. split; [intros v Hv; by apply lookup_delete_ne|].
  split.
  - rewrite exchange_miss_requests; [done|].
    intros (c & Hc & _). cbn [user_tokens] in Hc. by rewrite lookup_delete_eq in Hc.
  - f_equal. apply delete_id, lookup_delete_eq.
Qed.

(** X12.  The sixty-second buffer: a token granted at [now1'] for
    [expires_in] seconds is served from the cache at any time before
    [now1' + expires_in - 60], and from that time on the next call goes
    back to the identity provider. *)
Theorem exchange_ttl_boundary
    (mgr : UserTokenManager) (u a1 a2 : string) (now1 now1' now2 now2' : Q)
    (acquire1 acquire2 : string → obo_result) (tok : string) (e : option Z) :
  ¬ cache_hit now1 u mgr → acquire1 a1 = OboToken tok e →
  let expiry := (now1' + inject_Z (default 3600%Z e) - 60)%Q in
  let first := exchange_for_databricks_token now1 now1' acquire1 u a1 mgr in
  let second := exchange_for_databricks_token now2 now2' acquire2 u a2 first.2 in
  ((now2 < expiry)%Q →
   second = (Some tok, first.2) ∧ obo_requests second.2 = obo_requests mgr ++ [a1])
  ∧ ((expiry <= now2)%Q →
     obo_requests second.2 = obo_requests mgr ++ [a1; a2]).
Proof.
  intros Hmiss Hacq expiry first second. unfold second, first.
  rewrite (exchange_miss_granted _ _ _ _ _ _ _ _ Hmiss Hacq). cbn [snd]. fold expiry.
  split.
  - intros Hlt.
    rewrite (exchange_hit now2 now2' acquire2 u a2 _ {| token := tok; expires_at := expiry |}).
    + done.
    + cbn [user_tokens]. apply lookup_insert_eq.
    + done.
  - intros Hge. rewrite exchange_miss_requests.
    + cbn [obo_requests]. by rewrite <- app_assoc.
    + intros (c & Hc & Hlt). cbn [user_tokens] in Hc.
      rewrite lookup_insert_eq in Hc. injection Hc as <-. cbn [expires_at] in Hlt.
      by apply Qlt_not_le in Hlt.
Qed.

Lemma exchange_ttl_boundary_witness :
  let mgr := {| user_tokens := ∅; obo_requests := [] |} in
  let grant := fun _ : string => OboToken "dbx-token" (Some 3600) in
  let first := exchange_for_databricks_token 1000 1000 grant "alice" "a1" mgr in
  obo_requests (exchange_for_databricks_token 4539 4539 grant "alice" "a2" first.2).2
    = ["a1"]
  ∧ obo_requests (exchange_for_databricks_token 4540 4540 grant "alice" "a2" first.2).2
    = ["a1"; "a2"].
Proof.
  intros mgr grant first.
  assert (Hmiss : ¬ cache_hit 1000 "alice" mgr).
  { intros (c & Hc & _). vm_compute in Hc. discriminate. }
  split.
  - apply (exchange_ttl_boundary mgr "alice" "a1" "a2" 1000 1000 4539 4539
             grant grant "dbx-token" (Some 3600) Hmiss eq_refl).
    vm_compute. reflexivity.
  - apply (exchange_ttl_boundary mgr "alice" "a1" "a2" 1000 1000 4540 4540
             grant grant "dbx-token" (Some 3600) Hmiss eq_refl).
    vm_compute. discriminate.
Defined.

End TokenCacheMore.
(** ** More on the directive parser *)

Module StripFacts.
Import Py StringView.

Lemma lstrip_starts_clean s : starts_clean (lstrip s).
Proof.
  induction s as [|a s IH]; simpl; [done|].
  destruct (is_space a) eqn:Ha; [done|]. simpl. done.
Qed.

Lemma lstrip_id s : starts_clean s → lstrip s = s.
Proof. destruct s as [|a s]; simpl; [done|]. by intros ->. Qed.

Lemma rstrip_starts_clean s : starts_clean s → starts_clean (rstrip s).
Proof.
  destruct s as [|a s]; simpl; [done|]. intros Ha.
  destruct (rstrip s); [by rewrite Ha|done].
Qed.

Lemma rstrip_idemp s : rstrip (rstrip s) = rstrip s.
Proof.
  induction s as [|a s IH]; simpl; [done|].
  destruct (rstrip s) as [|b r] eqn:Hr.
  - destruct (is_space a) eqn:Ha; simpl; [done|]. by rewrite Ha.
  - simpl. simpl in IH. destruct (rstrip r) as [|c r'] eqn:Hr'.
    + destruct (is_space b); [done|]. by rewrite IH.
    + by rewrite IH.
Qed.

(** Stripping twice is stripping once. *)
Lemma strip_idemp s : strip (strip s) = strip s.
Proof.
  unfold strip. rewrite (lstrip_id (rstrip (lstrip s))).
  - apply rstrip_idemp.
  - apply rstrip_starts_clean, lstrip_starts_clean.
Qed.

Lemma is_space_lower_char a : is_space (lower_char a) = is_space a.
Proof.
  destruct a as [b0 b1 b2 b3 b4 b5 b6 b7].
  destruct b0, b1, b2, b3, b4, b5, b6, b7; reflexivity.
Qed.

Lemma lower_char_idemp a : lower_char (lower_char a) = lower_char a.
Proof.
  destruct a as [b0 b1 b2 b3 b4 b5 b6 b7].
  destruct b0, b1, b2, b3, b4, b5, b6, b7; reflexivity.
Qed.

Lemma lower_idemp s : lower (lower s) = lower s.
Proof. induction s as [|a s IH]; simpl; [done|]. by rewrite lower_char_idemp, IH. Qed.

Lemma lstrip_lower s : lstrip (lower s) = lower (lstrip s).
Proof.
  induction s as [|a s IH]; simpl; [done|]. rewrite is_space_lower_char.
  by destruct (is_space a).
Qed.

Lemma rstrip_lower s : rstrip (lower s) = lower (rstrip s).
Proof.
  induction s as [|a s IH]; simpl; [done|]. rewrite IH, is_space_lower_char.
  destruct (rstrip s); simpl; [by destruct (is_space a)|done].
Qed.

Lemma strip_lower s : strip (lower s) = lower (strip s).
Proof. unfold strip. by rewrite lstrip_lower, rstrip_lower. Qed.

End StripFacts.
Module VizParserMore.
Import Py Re ReFacts VizParser VizParserFacts StripFacts.

#[local] Arguments String.append : simpl nomatch.

(** The search fails exactly on the texts that hold no block. *)
Lemma search_pattern_None text :
  search pattern text = None
  ↔ ∀ p q body rest, text = p +:+ q → ¬ block_at q body rest.
Proof.
  split.
  - intros Hs p q body rest Heq Hb.
    apply match_here_pattern_complete in Hb as [x Hx].
    by rewrite (search_None _ _ Hs p q Heq) in Hx.
  - intros Hno. destruct (search pattern text) as [m|] eqn:Hs; [exfalso|done].
    apply search_pattern_first_block in Hs as (body & q & _ & Heq & Hb & _).
    by apply (Hno _ _ _ _ Heq Hb).
Qed.

(** X13.  A text without a complete block (no start marker, or no end marker
    after it) comes back unchanged, with no spec. *)
Theorem parse_without_block (text : string) :
  (∀ p q body rest, text = p +:+ q → ¬ block_at q body rest) →
  parse_viz_spec text = (None, text).
Proof.
  intros Hno%search_pattern_None. unfold parse_viz_spec. rewrite Hno.
  by destruct text.
Qed.

Lemma parse_without_block_witness :
  let text := "Sales by region [VIZ_START] chart_type: bar x_axis: Region" in
  parse_viz_spec text = (None, text).
Proof.
  intros text. apply parse_without_block. apply search_pattern_None.
  vm_compute. reflexivity.
Defined.

(** X14.  What the parser returns is all or nothing: either no spec and the
    input text itself, or the spec of the first block, holding
    [chart_type], [x_axis] and [y_axis], together with a text that has no
    whitespace left at either end. *)
Theorem parse_viz_spec_all_or_nothing (text : string) :
  match parse_viz_spec text with
  | (None, remaining) => remaining = text
  | (Some spec, cleaned) =>
      (∀ field, field ∈ required_fields → is_Some (dict_get field spec))
      ∧ strip cleaned = cleaned
      ∧ ∃ m, search pattern text = Some m ∧ is_first_block text m
             ∧ spec = parse_block (strip (group m))
  end.
Proof.
  destruct (parse_viz_spec text) as [[spec|] cleaned] eqn:Hp.
  - split; [by eapply parse_viz_spec_Some|].
    unfold parse_viz_spec in Hp. destruct text as [|a text]; [done|].
    destruct (search pattern (String a text)) as [m|] eqn:Hs; [|done].
    destruct (has_required _); [|done]. injection Hp as <- <-.
    split; [apply strip_idemp|]. exists m. split; [done|].
    split; [by apply search_pattern_first_block|done].
  - pose proof (parse_viz_spec_None text) as Hn. rewrite Hp in Hn. by apply Hn.
Qed.

Lemma fold_left_prefix_inv {A B} (f : B → A → B) (P : list A → B → Prop)
    (l : list A) (b : B) :
  P [] b →
  (∀ pre x post acc, l = pre ++ x :: post → P pre acc → P (pre ++ [x]) (f acc x)) →
  P l (fold_left f l b).
Proof.
  intros Hb Hstep.
  assert (Hgen : ∀ post pre acc, l = pre ++ post → P pre acc →
            P (pre ++ post) (fold_left f post acc)).
  { induction post as [|x post IH]; intros pre acc Hl Hacc; simpl.
    - by rewrite app_nil_r.
    - rewrite (cons_middle x pre post), app_assoc. apply IH.
      + by rewrite <- app_assoc.
      + by eapply Hstep. }
  by apply (Hgen l [] b).
Qed.

Section DictSet.
Context {V : Type}.
Implicit Types (d : dict V) (k : string) (v : V).

Lemma elem_of_dict_set k v d k' v' :
  (k', v') ∈ dict_set k v d → (k' = k ∧ v' = v) ∨ (k', v') ∈ d.
Proof.
  induction d as [|[k0 v0] d IH]; simpl.
  - intros [= -> ->]%list_elem_of_singleton. by left.
  - destruct (String.eqb_spec k k0) as [->|Hne].
    + intros [[= -> ->]|Hin]%elem_of_cons; [by left|].
      right. by apply list_elem_of_further.
    + intros [[= -> ->]|Hin]%elem_of_cons.
      * right. apply list_elem_of_here.
      * destruct (IH Hin) as [?|?]; [by left|]. right. by apply list_elem_of_further.
Qed.

Lemma dict_keys_set_present k v d :
  k ∈ dict_keys d → dict_keys (dict_set k v d) = dict_keys d.
Proof.
  unfold dict_keys. induction d as [|[k0 v0] d IH]; cbn [dict_set].
  - intros H. by apply elem_of_nil in H.
  - rewrite fmap_cons. cbn [fst].
    destruct (String.eqb_spec k k0) as [->|Hne]; [done|].
    intros [?|Hin]%elem_of_cons; [done|]. rewrite fmap_cons. cbn [fst].
    f_equal. by apply IH.
Qed.

Lemma dict_keys_set_fresh k v d :
  k ∉ dict_keys d → dict_keys (dict_set k v d) = dict_keys d ++ [k].
Proof.
  intros Hk. rewrite (PyFacts.dict_set_fresh _ _ _ Hk).
  unfold dict_keys. by rewrite fmap_app.
Qed.

Lemma NoDup_dict_set k v d :
  NoDup (dict_keys d) → NoDup (dict_keys (dict_set k v d)).
Proof.
  intros Hnd. destruct (decide (k ∈ dict_keys d)) as [Hin|Hnin].
  - by rewrite dict_keys_set_present.
  - rewrite dict_keys_set_fresh by done. apply NoDup_app.
    split; [done|]. split; [|apply NoDup_singleton].
    intros x Hx ->%list_elem_of_singleton. done.
Qed.
End DictSet.

(** X15.  What a block yields is normalised: every value is trimmed; on one
    line the keys are known field names, in the order of the list of
    known fields whatever their order in the text; over several lines
    the keys are lower-cased and trimmed; and no key occurs twice. *)
Theorem parse_block_normalised (viz_block : string) :
  let spec := parse_block viz_block in
  (∀ k v, (k, v) ∈ spec → strip v = v)
  ∧ NoDup (dict_keys spec)
  ∧ (contains_char "010" viz_block = false →
     dict_keys spec `sublist_of` known_fields)
  ∧ (contains_char "010" viz_block = true →
     ∀ k, k ∈ dict_keys spec → lower k = k ∧ strip k = k).
Proof.
  unfold parse_block. destruct (contains_char "010" viz_block).
  - assert (Hinv : (∀ k v, (k, v) ∈ parse_lines viz_block →
                      strip v = v ∧ lower k = k ∧ strip k = k)
                   ∧ NoDup (dict_keys (parse_lines viz_block))).
    { unfold parse_lines.
      apply (fold_left_prefix_inv _
               (fun _ d => (∀ k v, (k, v) ∈ d →
                              strip v = v ∧ lower k = k ∧ strip k = k)
                           ∧ NoDup (dict_keys d))).
      - split; [|constructor]. intros k v H. by apply elem_of_nil in H.
      - intros _ line _ acc _ [Hacc Hnd]. cbv beta zeta.
        destruct (contains_char ":" (strip line)); [|done].
        destruct (split_once ":" (strip line)) as [[key value]|]; [|done].
        split; [|by apply NoDup_dict_set].
        intros k v [[-> ->]|Hin]%elem_of_dict_set; [|by apply Hacc].
        split; [apply strip_idemp|].
        split; [apply lower_idemp|]. by rewrite strip_lower, strip_idemp. }
    destruct Hinv as [Hinv Hnd]. cbv zeta.
    split; [intros k v Hin; by apply (Hinv k v)|]. split; [done|].
    split; [done|]. intros _ k [[k' v] [-> Hin]]%list_elem_of_fmap.
    by apply (Hinv k' v).
  - assert (Hinv : (∀ k v, (k, v) ∈ parse_inline viz_block → strip v = v)
                   ∧ dict_keys (parse_inline viz_block) `sublist_of` known_fields).
    { unfold parse_inline.
      apply (fold_left_prefix_inv _
               (fun pre d => (∀ k v, (k, v) ∈ d → strip v = v)
                             ∧ dict_keys d `sublist_of` pre)).
      - split; [|done]. intros k v H. by apply elem_of_nil in H.
      - intros pre field post acc Hl [Hacc Hsub]. cbv beta zeta.
        destruct (search (field_pattern field) viz_block) as [m|]; cbv beta iota zeta.
        + split.
          * intros k v Hin.
            apply elem_of_dict_set in Hin as [[-> ->]|Hin]; [|by apply (Hacc k v)].
            apply strip_idemp.
          * assert (Hfresh : field ∉ dict_keys acc).
            { intros Hin. eapply elem_of_sublist in Hin; [|done].
              assert (Hnd : NoDup known_fields) by (vm_compute; repeat constructor;
                rewrite ?elem_of_cons, ?elem_of_nil; intuition discriminate).
              rewrite Hl in Hnd. apply NoDup_app in Hnd as (_ & Hdisj & _).
              apply (Hdisj field Hin). apply list_elem_of_here. }
            rewrite dict_keys_set_fresh by done. by apply sublist_app.
        + split; [done|]. by apply sublist_inserts_r. }
    destruct Hinv as [Hinv Hsub]. cbv zeta.
    split; [done|]. split; [|split; [done|done]].
    eapply sublist_NoDup; [|done].
    vm_compute; repeat constructor; rewrite ?elem_of_cons, ?elem_of_nil;
      intuition discriminate.
Qed.

End VizParserMore.

(** ** Preferences *)

Module BotFacts.
Import Py ArtifactStore Pagination Chart VizParser Genie Bot.

(** *** Preferences *)

(** Reading one option after an assignment to it. *)
Lemma pref_get_set {V : Type} (preferences : gmap string (gmap string V))
    (user_id key : string) (value : V) (default_value : V) :
  _get_user_pref (_set_user_pref preferences user_id key value)
                 user_id key default_value = value.
Proof.
  unfold _get_user_pref, _set_user_pref.
  destruct (preferences !! user_id); cbv zeta; by simplify_map_eq.
Qed.

(** X16.  A preference that was set is read back for that user and
    that option; every other user and option reads as before the
    assignment, and an option nobody set reads as its default. *)
Theorem preference_set_then_get {V : Type}
    (preferences : gmap string (gmap string V))
    (user_id key : string) (value : V)
    (user_id' key' : string) (default_value : V) :
  _get_user_pref (_set_user_pref preferences user_id key value)
                 user_id' key' default_value
  = (if decide (user_id' = user_id ∧ key' = key) then value
     else _get_user_pref preferences user_id' key' default_value)
  ∧ _get_user_pref (∅ : gmap string (gmap string V)) user_id' key' default_value
    = default_value.
Proof.
  split; [|done].
  unfold _get_user_pref, _set_user_pref.
  destruct (preferences !! user_id) as [own|] eqn:Hp; cbv zeta;
    destruct (decide (user_id' = user_id)) as [->|Hu];
    destruct (decide (key' = key)) as [->|Hk];
    simplify_map_eq; try done;
    try (rewrite decide_True by done; done);
    rewrite decide_False by (intros [? ?]; done); done.
Qed.

End BotFacts.

(** ** The message handler, branch by branch *)

Module HandlerFacts.
Import Py ArtifactStore Pagination Chart VizParser Genie Bot.

Lemma truthy_Some (s : option string) (v : string) :
  truthy s = Some v ↔ s = Some v ∧ v ≠ EmptyString.
Proof.
  destruct s as [[|a s]|]; simpl; split; try done.
  - by intros [[= <-] ?].
  - by intros [= <-].
  - by intros [[= <-] _].
  - by intros [? _].
Qed.

Lemma truthy_None (s : option string) :
  truthy s = None ↔ s = None ∨ s = Some EmptyString.
Proof.
  destruct s as [[|a s]|]; simpl; split; try done; auto.
  by intros [|].
Qed.

Lemma truthy_result_id (n : Z) :
  truthy (Some (result_id_of n)) = Some (result_id_of n).
Proof. done. Qed.

Lemma said_mono (message : option string) (l l' : list string) :
  l ⊆ l' → said message l = true → said message l' = true.
Proof.
  unfold said. destruct (truthy message); [|done].
  intros Hsub H. apply bool_decide_eq_true in H.
  apply bool_decide_eq_true. by apply Hsub.
Qed.

Lemma said_not (message : option string) (l : list string) :
  l ⊆ commands → said message commands = false → said message l = false.
Proof.
  intros Hsub H. destruct (said message l) eqn:E; [|done].
  by rewrite (said_mono _ _ _ Hsub E) in H.
Qed.

Ltac sub_commands :=
  intros ? ?; unfold commands; repeat (rewrite elem_of_cons in * );
  rewrite ?elem_of_nil in *; tauto.

Lemma handle_authenticated_query env u dbx m bot :
  said m commands = false →
  handle_authenticated env u dbx m bot = process_query env u dbx m bot.
Proof.
  intros H. unfold handle_authenticated.
  rewrite !(said_not m) by (done || sub_commands). done.
Qed.

Lemma said_both (message : option string) (l l' : list string) :
  said message l = true → said message l' = true → ∃ c, In c l ∧ In c l'.
Proof.
  unfold said. destruct (truthy message) as [m'|]; [|done].
  rewrite !bool_decide_eq_true, !list_elem_of_In. eauto.
Qed.

Ltac said_clash H1 H2 :=
  exfalso; destruct (said_both _ _ _ H1 H2) as (? & ? & ?);
  simpl in *; intuition congruence.

Lemma said_commands (message : option string) :
  said message commands = true →
  said message ["/new"; "/reset"; "new conversation"; "start over"] = true
  ∨ said message ["/sql on"] = true ∨ said message ["/sql off"] = true
  ∨ said message ["/help"; "help"] = true
  ∨ said message ["/signout"; "/logout"] = true.
Proof.
  unfold said. destruct (truthy message) as [m'|]; [|done].
  rewrite !bool_decide_eq_true. unfold commands.
  rewrite !elem_of_cons, !elem_of_nil. tauto.
Qed.

(** The fields of the state after the query part of a turn. *)
Lemma process_query_state env u dbx m bot :
  let bot' := (process_query env u dbx m bot).2 in
  let r := genie_answer env u dbx m bot in
  user_tokens bot' = user_tokens bot
  ∧ user_preferences bot' = user_preferences bot
  ∧ TOKEN_MANAGER bot' = TOKEN_MANAGER bot
  ∧ genie_requests bot'
    = genie_requests bot
      ++ [{| bearer := dbx;
             conversation := truthy (user_conversations bot !! u);
             question := m |}]
  ∧ user_conversations bot'
    = match truthy (conversation_id r), error r with
      | Some c, false => <[u := c]> (user_conversations bot)
      | _, _ => user_conversations bot
      end.
Proof.
  unfold process_query.
  destruct (parse_viz_spec _) as [vs clean]. cbv zeta.
  destruct (_ && _).
  - destruct (_store_result _ _) as [rid store].
    destruct (truthy (Some rid)); destruct (truthy_dict vs);
      try destruct (truthy (generate _ _ _ _ _)); done.
  - destruct (truthy_dict vs); done.
Qed.

Ltac fields :=
  cbn [user_conversations user_preferences user_tokens artifacts
       TOKEN_MANAGER genie_requests set_user_conversations
       set_user_preferences set_user_tokens set_artifacts
       set_TOKEN_MANAGER add_genie_request forget_tokens fst snd] in *.

(** What a command does: one text is sent, and the state changes in
    one of four ways. *)
Lemma handle_authenticated_command env u dbx m bot :
  said m commands = true →
  let '(sent, bot') := handle_authenticated env u dbx m bot in
  (∃ t, sent = [Text t])
  ∧ (bot' = bot
     ∨ bot' = set_user_conversations (delete u (user_conversations bot)) bot
     ∨ (∃ b, bot' = set_user_preferences
                      (_set_user_pref (user_preferences bot) u "show_sql" b) bot)
     ∨ bot' = set_user_conversations (delete u (user_conversations bot))
                (forget_tokens u bot)).
Proof.
  intros H. unfold handle_authenticated.
  destruct (said m ["/new"; "/reset"; "new conversation"; "start over"]) eqn:E1;
    [split; [by eexists|auto]|].
  destruct (said m ["/sql on"]) eqn:E2; [split; [by eexists|eauto]|].
  destruct (said m ["/sql off"]) eqn:E3; [split; [by eexists|eauto]|].
  destruct (said m ["/help"; "help"]) eqn:E4; [split; [by eexists|auto]|].
  destruct (said m ["/signout"; "/logout"]) eqn:E5; [split; [by eexists|auto]|].
  apply said_commands in H. rewrite E1, E2, E3, E4, E5 in H.
  destruct H as [|[|[|[|]]]]; done.
Qed.

(** The three ways the gate of [_handle_message] can go. *)
Lemma _handle_message_gate env u m bot :
  match authenticate env u bot with
  | Some (dbx, manager) =>
      _handle_message env u m bot
      = handle_authenticated env u dbx m (set_TOKEN_MANAGER manager bot)
  | None =>
      match truthy (user_tokens bot !! u) with
      | None => _handle_message env u m bot = ([Card _create_signin_card], bot)
      | Some t =>
          ∃ sent,
            _handle_message env u m bot
            = (sent,
               forget_tokens u
                 (set_TOKEN_MANAGER
                    (_exchange_for_databricks_token env u t (TOKEN_MANAGER bot)).2
                    bot))
            ∧ cards sent = [_create_signin_card]
      end
  end.
Proof.
  unfold authenticate, _handle_message.
  destruct (truthy (user_tokens bot !! u)) as [t|]; [|done].
  destruct (_exchange_for_databricks_token _ _ _ _) as [dt manager].
  destruct (truthy dt); [done|]. eexists. split; [done|done].
Qed.

(** An exchange changes the cache of one user only. *)
Lemma exchange_other_users now now' acquire u t manager u' :
  u' ≠ u →
  TokenCache.user_tokens
    (TokenCache.exchange_for_databricks_token now now' acquire u t manager).2
    !! u'
  = TokenCache.user_tokens manager !! u'.
Proof.
  intros Hne. unfold TokenCache.exchange_for_databricks_token.
  destruct (match TokenCache.user_tokens manager !! u with
            | Some c => TokenCache.unexpired now c
            | None => false
            end); [done|].
  destruct (acquire t); cbn; [|done|done].
  by rewrite lookup_insert_ne.
Qed.

(** The token an exchange returns is the unexpired cached token of
    that user, or the token the identity provider granted for the
    assertion presented. *)
Lemma exchange_token_origin now now' acquire u t manager dbx manager' :
  TokenCache.exchange_for_databricks_token now now' acquire u t manager
  = (Some dbx, manager') →
  (∃ c, TokenCache.user_tokens manager !! u = Some c
        ∧ TokenCache.unexpired now c = true ∧ TokenCache.token c = dbx)
  ∨ (∃ e, acquire t = TokenCache.OboToken dbx e).
Proof.
  unfold TokenCache.exchange_for_databricks_token.
  destruct (TokenCache.user_tokens manager !! u) as [c|] eqn:Hc.
  - destruct (TokenCache.unexpired now c) eqn:Hu.
    + intros [= <- <-]. left. eauto.
    + destruct (acquire t); intros [= <- <-]. right. eauto.
  - destruct (acquire t); intros [= <- <-]. right. eauto.
Qed.

Lemma authenticate_Some env u bot dbx manager' :
  authenticate env u bot = Some (dbx, manager') ↔
  ∃ t manager manager1,
    user_tokens bot !! u = Some t ∧ t ≠ EmptyString
    ∧ TOKEN_MANAGER bot = Some manager
    ∧ TokenCache.exchange_for_databricks_token
        (env_now env) (env_now' env) (env_acquire env) u t manager
      = (Some dbx, manager1)
    ∧ dbx ≠ EmptyString ∧ manager' = Some manager1.
Proof.
  unfold authenticate, _exchange_for_databricks_token. split.
  - destruct (truthy (user_tokens bot !! u)) as [t|] eqn:Ht; [|done].
    apply truthy_Some in Ht as [Ht Hne].
    destruct (TOKEN_MANAGER bot) as [manager|]; [|done].
    destruct (TokenCache.exchange_for_databricks_token _ _ _ _ _ _)
      as [dt manager1] eqn:Hex.
    destruct (truthy dt) as [d|] eqn:Hd; [|done].
    apply truthy_Some in Hd as [-> Hd]. intros [= <- <-].
    eauto 10.
  - intros (t & manager & manager1 & Ht & Hne & Hm & Hex & Hd & ->).
    rewrite (proj2 (truthy_Some _ t)) by done.
    rewrite Hm, Hex.
    by rewrite (proj2 (truthy_Some (Some dbx) dbx)).
Qed.

End HandlerFacts.

(** ** Sessions and authentication *)

Module SessionFacts.
Import Py ArtifactStore Pagination Chart VizParser Genie Bot HandlerFacts.

Lemma set_pref_other {V} (p : gmap string (gmap string V)) u k (v : V) u' :
  u' ≠ u → _set_user_pref p u k v !! u' = p !! u'.
Proof.
  intros Hne. unfold _set_user_pref.
  destruct (p !! u); cbv zeta; by rewrite !lookup_insert_ne.
Qed.

Lemma cached_token_exchange env u t bot u' :
  u' ≠ u →
  cached_token u'
    (set_TOKEN_MANAGER
       (_exchange_for_databricks_token env u t (TOKEN_MANAGER bot)).2 bot)
  = cached_token u' bot.
Proof.
  intros Hne. unfold cached_token, _exchange_for_databricks_token. fields.
  destruct (TOKEN_MANAGER bot) as [manager|]; [|done].
  pose proof (exchange_other_users (env_now env) (env_now' env)
                (env_acquire env) u t manager u' Hne) as H.
  destruct (TokenCache.exchange_for_databricks_token _ _ _ _ _ _). done.
Qed.

Lemma cached_token_clear u bot u' :
  u' ≠ u →
  cached_token u' (forget_tokens u bot) = cached_token u' bot.
Proof.
  intros Hne. unfold cached_token. fields.
  destruct (TOKEN_MANAGER bot) as [manager|]; [|done].
  cbn. by rewrite lookup_delete_ne.
Qed.

Lemma cached_token_cleared u bot : cached_token u (forget_tokens u bot) = None.
Proof.
  unfold cached_token. fields.
  destruct (TOKEN_MANAGER bot) as [manager|]; [|done].
  cbn. by rewrite lookup_delete_eq.
Qed.

(** X17.  A message changes the session of its sender only: the Teams
    token, the conversation, the preferences and the cached Databricks
    token of every other user stay as they were. *)
Theorem message_touches_sender_only (env : Env) (u : string)
    (m : option string) (bot : BotState) (u' : string) :
  u' ≠ u →
  let bot' := (_handle_message env u m bot).2 in
  user_tokens bot' !! u' = user_tokens bot !! u'
  ∧ user_conversations bot' !! u' = user_conversations bot !! u'
  ∧ user_preferences bot' !! u' = user_preferences bot !! u'
  ∧ cached_token u' bot' = cached_token u' bot.
Proof.
  intros Hne bot'. subst bot'.
  pose proof (_handle_message_gate env u m bot) as Hg.
  destruct (authenticate env u bot) as [[dbx manager]|] eqn:Ha.
  - rewrite Hg.
    apply authenticate_Some in Ha
      as (t & mg & mg1 & Hut & _ & Hmg & Hex & _ & ->).
    pose proof (cached_token_exchange env u t bot u' Hne) as Hc.
    unfold _exchange_for_databricks_token in Hc. rewrite Hmg, Hex in Hc.
    cbn [snd] in Hc.
    destruct (said m commands) eqn:Hs.
    + pose proof (handle_authenticated_command env u dbx m
                    (set_TOKEN_MANAGER (Some mg1) bot) Hs) as H.
      destruct (handle_authenticated _ _ _ _ _) as [sent bot'].
      destruct H as (_ & [->|[->|[[b ->]| ->]]]); fields;
        rewrite <- Hc; unfold cached_token; fields;
        rewrite ?lookup_delete_ne by done; try done.
      * by rewrite set_pref_other.
      * cbn. by rewrite lookup_delete_ne.
    + rewrite handle_authenticated_query by done.
      pose proof (process_query_state env u dbx m
                    (set_TOKEN_MANAGER (Some mg1) bot)) as H.
      cbv zeta in H. destruct H as (Ht & Hp & Hm' & _ & Hcv).
      rewrite Ht, Hp, Hcv. fields. repeat split.
      * destruct (truthy _) as [c|]; [|done].
        destruct (error _); [done|by rewrite lookup_insert_ne].
      * rewrite <- Hc. unfold cached_token. by rewrite Hm'.
  - destruct (truthy (user_tokens bot !! u)) as [t|].
    + destruct Hg as (sent & -> & _). fields. repeat split.
      * by rewrite lookup_delete_ne.
      * rewrite cached_token_clear by done. by apply cached_token_exchange.
    + by rewrite Hg.
Qed.

Lemma message_touches_sender_only_witness :
  let bot := Examples.two_users in
  let bot' := (_handle_message Examples.refusing_env "ann" (Some "show sales") bot).2 in
  "bob" ≠ "ann"
  ∧ user_tokens bot' !! "ann" = None
  ∧ user_tokens bot' !! "bob" = user_tokens bot !! "bob"
  ∧ user_conversations bot' !! "bob" = user_conversations bot !! "bob"
  ∧ user_preferences bot' !! "bob" = user_preferences bot !! "bob"
  ∧ cached_token "bob" bot' = cached_token "bob" bot.
Proof.
  intros bot bot'.
  assert ("bob" ≠ "ann") as Hne by done.
  split; [done|]. split; [by vm_compute|].
  exact (message_touches_sender_only Examples.refusing_env "ann"
           (Some "show sales") bot "bob" Hne).
Defined.

(** X18.  Genie is asked at most once in a turn, and only on behalf
    of the sender: the sender has a Teams token, a token manager
    exists, the exchange of that Teams token returned a Databricks
    token (the unexpired one cached for this sender, or the one the
    identity provider granted for this Teams token), the message is no
    command, and the request carries exactly that Databricks token.
    In every other case no request is made. *)
Theorem genie_request_carries_users_token (env : Env) (u : string)
    (m : option string) (bot : BotState) :
  let bot' := (_handle_message env u m bot).2 in
  genie_requests bot' = genie_requests bot
  ∨ ∃ user_token manager databricks_token manager',
      user_tokens bot !! u = Some user_token
      ∧ user_token ≠ EmptyString
      ∧ TOKEN_MANAGER bot = Some manager
      ∧ TokenCache.exchange_for_databricks_token
          (env_now env) (env_now' env) (env_acquire env) u user_token manager
        = (Some databricks_token, manager')
      ∧ databricks_token ≠ EmptyString
      ∧ ((∃ c, TokenCache.user_tokens manager !! u = Some c
               ∧ TokenCache.unexpired (env_now env) c = true
               ∧ TokenCache.token c = databricks_token)
         ∨ (∃ e, env_acquire env user_token
                 = TokenCache.OboToken databricks_token e))
      ∧ said m commands = false
      ∧ genie_requests bot'
        = genie_requests bot
          ++ [{| bearer := databricks_token;
                 conversation := truthy (user_conversations bot !! u);
                 question := m |}].
Proof.
  intros bot'. subst bot'.
  pose proof (_handle_message_gate env u m bot) as Hg.
  destruct (authenticate env u bot) as [[dbx manager]|] eqn:Ha.
  - rewrite Hg.
    apply authenticate_Some in Ha
      as (t & mg & mg1 & Hut & Hne & Hmg & Hex & Hd & ->).
    destruct (said m commands) eqn:Hs.
    + left.
      pose proof (handle_authenticated_command env u dbx m
                    (set_TOKEN_MANAGER (Some mg1) bot) Hs) as H.
      destruct (handle_authenticated _ _ _ _ _) as [sent bot'].
      by destruct H as (_ & [->|[->|[[b ->]| ->]]]).
    + right. exists t, mg, dbx, mg1.
      repeat (split; [done|]).
      split; [by eapply exchange_token_origin|]. split; [done|].
      rewrite handle_authenticated_query by done.
      pose proof (process_query_state env u dbx m
                    (set_TOKEN_MANAGER (Some mg1) bot)) as H.
      cbv zeta in H. destruct H as (_ & _ & _ & H & _). by rewrite H.
  - left. destruct (truthy (user_tokens bot !! u)) as [t|].
    + by destruct Hg as (sent & -> & _).
    + by rewrite Hg.
Qed.

(** X19.  When the sender has a Teams token but the exchange yields no
    Databricks token (no token manager, a refusal or an exception of
    the identity provider, or an empty token), the bot answers with the
    authentication error and the sign-in card and forgets both tokens
    of the sender, also a cached Databricks token that the manager
    itself would have kept; conversation, preferences, stored results
    and the Genie trace stay.  The next message of that user gets the
    sign-in card and nothing else happens. *)
Theorem failed_exchange_signs_out (env : Env) (u : string)
    (m : option string) (bot : BotState) (t : string) :
  truthy (user_tokens bot !! u) = Some t →
  truthy (_exchange_for_databricks_token env u t (TOKEN_MANAGER bot)).1 = None →
  let '(sent, bot') := _handle_message env u m bot in
  sent = [Text authentication_error; Card _create_signin_card]
  ∧ user_tokens bot' !! u = None
  ∧ cached_token u bot' = None
  ∧ user_conversations bot' = user_conversations bot
  ∧ user_preferences bot' = user_preferences bot
  ∧ artifacts bot' = artifacts bot
  ∧ genie_requests bot' = genie_requests bot
  ∧ ∀ env' m', _handle_message env' u m' bot' = ([Card _create_signin_card], bot').
Proof.
  intros Ht Hx. unfold _handle_message at 1. rewrite Ht.
  destruct (_exchange_for_databricks_token env u t (TOKEN_MANAGER bot))
    as [dt manager]. cbn [fst] in Hx. rewrite Hx.
  split; [done|]. fields.
  assert (delete u (user_tokens bot) !! u = None) as Hdel
    by apply lookup_delete_eq.
  split; [done|]. split; [apply cached_token_cleared|].
  repeat (split; [done|]).
  intros env' m'. unfold _handle_message. fields. by rewrite Hdel.
Qed.

Lemma failed_exchange_signs_out_witness :
  let bot := Examples.two_users in
  cached_token "bob" bot
  = Some {| TokenCache.token := "dbx-bob"; TokenCache.expires_at := 5000 |}
  ∧ let '(sent, bot') :=
      _handle_message Examples.refusing_env "bob" (Some "show sales") bot in
    sent = [Text authentication_error; Card _create_signin_card]
    ∧ user_tokens bot' !! "bob" = None
    ∧ cached_token "bob" bot' = None
    ∧ user_conversations bot' = user_conversations bot
    ∧ user_preferences bot' = user_preferences bot
    ∧ artifacts bot' = artifacts bot
    ∧ genie_requests bot' = genie_requests bot
    ∧ ∀ env' m',
        _handle_message env' "bob" m' bot' = ([Card _create_signin_card], bot').
Proof.
  intros bot. split; [by vm_compute|].
  apply (failed_exchange_signs_out Examples.refusing_env "bob"
           (Some "show sales") bot "teams-bob");
    by vm_compute.
Defined.

(** X20.  After a message that says [/signout] or [/logout], in any
    letter case and with any surrounding whitespace, the sender has no
    Teams token, and the next message only gets the sign-in card;
    preferences, stored results and the Genie trace are kept.  If the
    sender was signed in and the exchange went through, the reply is
    the sign-out text and the conversation and the cached Databricks
    token are dropped as well. *)
Theorem signout_forgets_session (env : Env) (u : string)
    (m : option string) (bot : BotState) :
  said m ["/signout"; "/logout"] = true →
  let '(sent, bot') := _handle_message env u m bot in
  truthy (user_tokens bot' !! u) = None
  ∧ (∀ env' m', _handle_message env' u m' bot' = ([Card _create_signin_card], bot'))
  ∧ user_preferences bot' = user_preferences bot
  ∧ artifacts bot' = artifacts bot
  ∧ genie_requests bot' = genie_requests bot
  ∧ (is_Some (authenticate env u bot) →
       sent = [Text signed_out]
       ∧ user_tokens bot' !! u = None
       ∧ user_conversations bot' !! u = None
       ∧ cached_token u bot' = None).
Proof.
  intros Hs.
  assert (∀ b : BotState, truthy (user_tokens b !! u) = None →
            ∀ env' m', _handle_message env' u m' b = ([Card _create_signin_card], b))
    as Hnext.
  { intros b Hb env' m'. unfold _handle_message. by rewrite Hb. }
  pose proof (_handle_message_gate env u m bot) as Hg.
  destruct (authenticate env u bot) as [[dbx manager]|] eqn:Ha.
  - rewrite Hg. unfold handle_authenticated.
    assert (said m commands = true) as Hc.
    { eapply said_mono; [|done]. sub_commands. }
    destruct (said m ["/new"; "/reset"; "new conversation"; "start over"]) eqn:E1;
      [said_clash Hs E1|].
    destruct (said m ["/sql on"]) eqn:E2; [said_clash Hs E2|].
    destruct (said m ["/sql off"]) eqn:E3; [said_clash Hs E3|].
    destruct (said m ["/help"; "help"]) eqn:E4; [said_clash Hs E4|].
    rewrite Hs. fields.
    assert (delete u (user_tokens bot) !! u = None) as Hdel
      by apply lookup_delete_eq.
    split; [by rewrite Hdel|].
    split; [apply Hnext; fields; by rewrite Hdel|].
    do 3 (split; [done|]). intros _.
    split; [done|]. split; [done|]. split; [apply lookup_delete_eq|].
    unfold cached_token. fields. destruct manager as [mg|]; [|done].
    cbn. apply lookup_delete_eq.
  - destruct (truthy (user_tokens bot !! u)) as [t|] eqn:Ht.
    + destruct Hg as (sent & -> & _). fields.
      assert (delete u (user_tokens bot) !! u = None) as Hdel
        by apply lookup_delete_eq.
      split; [by rewrite Hdel|].
      split; [apply Hnext; fields; by rewrite Hdel|].
      do 3 (split; [done|]). by intros [? [=]].
    + rewrite Hg. split; [done|]. split; [by apply Hnext|].
      do 3 (split; [done|]). by intros [? [=]].
Qed.

Lemma signout_forgets_session_witness :
  let env := Examples.granting_env in
  let bot := Examples.two_users in
  let '(sent, bot') := _handle_message env "ann" (Some "  /SignOut ") bot in
  sent = [Text signed_out]
  ∧ user_tokens bot' !! "ann" = None
  ∧ user_conversations bot' !! "ann" = None
  ∧ cached_token "ann" bot' = None
  ∧ user_preferences bot' = user_preferences bot.
Proof.
  intros env bot.
  assert (said (Some "  /SignOut ") ["/signout"; "/logout"] = true) as Hs
    by (by vm_compute).
  assert (is_Some (authenticate env "ann" bot)) as Ha
    by (eexists; vm_compute; reflexivity).
  pose proof (signout_forgets_session env "ann" (Some "  /SignOut ") bot Hs) as H.
  destruct (_handle_message env "ann" (Some "  /SignOut ") bot) as [sent bot'].
  destruct H as (_ & _ & Hp & _ & _ & H). destruct (H Ha) as (? & ? & ? & ?).
  done.
Defined.

End SessionFacts.

(** ** Settings, conversations and answers *)

Module AnswerFacts.
Import Py ArtifactStore Pagination Chart Re VizParser VizParserFacts Genie Bot
  HandlerFacts.

Lemma authenticate_set_preferences env u bot p :
  authenticate env u (set_user_preferences p bot) = authenticate env u bot.
Proof. done. Qed.

(** X21.  The SQL setting: after [/sql on] or [/sql off] from a
    signed-in user, [/help] reports that setting for that user, and a
    user who never chose reads ON. *)
Theorem sql_setting_is_remembered (env env' : Env) (u : string)
    (m m' : option string) (bot : BotState) (b : bool) :
  is_Some (authenticate env u bot) →
  said m [if b then "/sql on" else "/sql off"] = true →
  said m' ["/help"; "help"] = true →
  let bot1 := (_handle_message env u m bot).2 in
  is_Some (authenticate env' u bot1) →
  (_handle_message env' u m' bot1).1 = [Text (help_text b)]
  ∧ (user_preferences bot !! u = None →
       (_handle_message env u m' bot).1 = [Text (help_text true)]).
Proof.
  intros [[dbx manager] Ha] Hm Hm' bot1 [[dbx' manager'] Ha'].
  assert (∀ e bt d mg, authenticate e u bt = Some (d, mg) →
            (_handle_message e u m' bt).1
            = [Text (help_text
                       (_get_user_pref (user_preferences bt) u "show_sql" true))])
    as Hhelp.
  { intros e bt d mg Hauth.
    pose proof (_handle_message_gate e u m' bt) as Hg. rewrite Hauth in Hg.
    rewrite Hg. unfold handle_authenticated.
    destruct (said m' ["/new"; "/reset"; "new conversation"; "start over"]) eqn:E1;
      [said_clash Hm' E1|].
    destruct (said m' ["/sql on"]) eqn:E2; [said_clash Hm' E2|].
    destruct (said m' ["/sql off"]) eqn:E3; [said_clash Hm' E3|].
    by rewrite Hm'. }
  split.
  - rewrite (Hhelp _ _ _ _ Ha'). do 2 f_equal.
    subst bot1.
    pose proof (_handle_message_gate env u m bot) as Hg. rewrite Ha in Hg.
    rewrite Hg. unfold handle_authenticated.
    destruct (said m ["/new"; "/reset"; "new conversation"; "start over"]) eqn:E1;
      [destruct b; said_clash Hm E1|].
    destruct b.
    + rewrite Hm. fields.
      by rewrite BotFacts.pref_get_set.
    + destruct (said m ["/sql on"]) eqn:E2; [said_clash Hm E2|].
      rewrite Hm. fields.
      by rewrite BotFacts.pref_get_set.
  - intros Hnone. rewrite (Hhelp _ _ _ _ Ha). do 2 f_equal.
    unfold _get_user_pref. by rewrite Hnone.
Qed.

Lemma sql_setting_is_remembered_witness :
  let env := Examples.granting_env in
  let bot := Examples.signed_in in
  let bot1 := (_handle_message env "ann" (Some "/SQL OFF") bot).2 in
  (_handle_message env "ann" (Some "Help") bot1).1 = [Text (help_text false)]
  ∧ (_handle_message env "ann" (Some "Help") bot).1 = [Text (help_text true)].
Proof.
  intros env bot bot1.
  assert (is_Some (authenticate env "ann" bot)) as Ha
    by (eexists; vm_compute; reflexivity).
  assert (is_Some (authenticate env "ann" bot1)) as Ha1
    by (eexists; vm_compute; reflexivity).
  destruct (sql_setting_is_remembered env env "ann" (Some "/SQL OFF")
              (Some "Help") bot false Ha eq_refl eq_refl Ha1) as [H1 H2].
  split; [exact H1|]. by apply H2.
Defined.

(** X22.  Conversations.  A question asked while the sender has a
    conversation is a follow-up in it, and whatever Genie answers, also
    an error, the sender stays in that conversation.  An answer that is
    an error never starts or moves a conversation.  An answer without
    an error that names a conversation makes it the conversation of the
    sender, so that the next question is a follow-up in it. *)
Theorem conversation_tracking (env : Env) (u : string) (m : option string)
    (bot : BotState) (dbx : string)
    (manager : option TokenCache.UserTokenManager) :
  authenticate env u bot = Some (dbx, manager) →
  said m commands = false →
  let r := genie_answer env u dbx m bot in
  let bot' := (_handle_message env u m bot).2 in
  (∀ c, truthy (user_conversations bot !! u) = Some c →
        conversation_id r = Some c
        ∧ user_conversations bot' = user_conversations bot)
  ∧ (error r = true → user_conversations bot' = user_conversations bot)
  ∧ (∀ c, error r = false → truthy (conversation_id r) = Some c →
        user_conversations bot' !! u = Some c
        ∧ ∀ env' dbx' m',
            genie_answer env' u dbx' m' bot'
            = follow_up (env_create_message_and_wait env' dbx') c m').
Proof.
  intros Ha Hs r bot'.
  pose proof (_handle_message_gate env u m bot) as Hg. rewrite Ha in Hg.
  assert (user_conversations bot'
          = match truthy (conversation_id r), error r with
            | Some c, false => <[u := c]> (user_conversations bot)
            | _, _ => user_conversations bot
            end) as Hconv.
  { subst bot'. rewrite Hg, handle_authenticated_query by done.
    pose proof (process_query_state env u dbx m (set_TOKEN_MANAGER manager bot))
      as H.
    cbv zeta in H. by destruct H as (_ & _ & _ & _ & H). }
  rewrite Hconv. split; [|split].
  - intros c Hc.
    assert (conversation_id r = Some c) as Hr.
    { subst r. unfold genie_answer. rewrite Hc. unfold follow_up.
      by destruct (env_create_message_and_wait _ _ _ _). }
    split; [done|]. rewrite Hr.
    apply truthy_Some in Hc as [Hc Hne].
    rewrite (proj2 (truthy_Some (Some c) c)) by done.
    destruct (error r); [done|]. by apply insert_id.
  - intros ->. by destruct (truthy _).
  - intros c He Hc. rewrite He, Hc. split; [by rewrite lookup_insert_eq|].
    intros env' dbx' m'. unfold genie_answer. rewrite Hconv, He, Hc.
    rewrite lookup_insert_eq.
    apply truthy_Some in Hc as [_ Hne].
    by rewrite (proj2 (truthy_Some (Some c) c)).
Qed.

Lemma conversation_tracking_witness :
  let env := Examples.granting_env in
  let bot := Examples.signed_in in
  let bot' := (_handle_message env "ann" (Some "show sales") bot).2 in
  user_conversations bot' !! "ann" = Some "conv-1"
  ∧ ∀ env' dbx' m',
      genie_answer env' "ann" dbx' m' bot'
      = follow_up (env_create_message_and_wait env' dbx') "conv-1" m'.
Proof.
  intros env bot bot'.
  assert (∃ manager, authenticate env "ann" bot = Some ("dbx-teams-ann", manager))
    as [manager Ha] by (eexists; vm_compute; reflexivity).
  assert (said (Some "show sales") commands = false) as Hs by (by vm_compute).
  destruct (conversation_tracking env "ann" (Some "show sales") bot
              "dbx-teams-ann" manager Ha Hs) as (_ & _ & H).
  apply H; by vm_compute.
Defined.

(** The activities and the store after the query part of a turn. *)
Lemma process_query_answer env u dbx m bot :
  let r := genie_answer env u dbx m bot in
  let spec := truthy_dict (parse_viz_spec (text r)).1 in
  let clean_text := (parse_viz_spec (text r)).2 in
  let stored :=
    match spec with
    | Some s => set_viz_spec s (set_text clean_text r)
    | None => set_text clean_text r
    end in
  let '(sent, bot') := process_query env u dbx m bot in
  head sent = Some Typing
  ∧ if non_empty (data_rows r) && non_empty (columns r)
    then
      let rid := (_store_result stored (artifacts bot)).1 in
      artifacts bot' = (_store_result stored (artifacts bot)).2
      ∧ match spec with
        | Some s =>
            match truthy (generate (env_float env) (env_draw env) s
                                   (columns r) (data_rows r)) with
            | Some chart_image =>
                cards sent
                = [create_chart_card (env_title env) chart_image
                     (default "Query Results" (dict_get "title" s)) rid
                     (default "bar" (dict_get "chart_type" s))
                     (Some (BOT_PUBLIC_URL env +:+ "/interactive-chart/" +:+ rid))]
            | None =>
                cards sent = [paginated_card stored 0 (Some rid)]
                ∧ Text chart_note ∈ sent
            end
        | None => cards sent = [paginated_card stored 0 (Some rid)]
        end
    else artifacts bot' = artifacts bot ∧ cards sent = [].
Proof.
  unfold process_query.
  destruct (parse_viz_spec _) as [vs clean]. cbv zeta. cbn [fst snd].
  cbn [data_rows columns set_text].
  destruct (non_empty _ && non_empty _) eqn:Hdata.
  - destruct (truthy_dict vs) as [s|];
      cbn [data_rows columns set_text set_viz_spec];
      (destruct (_store_result _ _) as [rid store] eqn:Hst;
       assert (truthy (Some rid) = Some rid) as ->
         by (by injection Hst as <- _);
       cbn [fst snd]).
    + destruct (truthy (generate _ _ _ _ _)) as [img|].
      * split; [done|]. split; [done|].
        apply andb_true_iff in Hdata as [Hrows _].
        cbn [data_rows text set_text set_viz_spec].
        rewrite Hrows, andb_false_r.
        destruct (text_response _ _ _); reflexivity.
      * split; [done|]. split; [done|].
        destruct (text_response _ _ _);
          (split; [reflexivity|]); cbn [app]; rewrite !elem_of_cons; auto.
    + split; [done|]. split; [done|].
      destruct (text_response _ _ _); reflexivity.
  - destruct (truthy_dict vs) as [s|]; (split; [done|]); (split; [done|]);
      destruct (text_response _ _ _); cbn [app];
      destruct (negb _ && negb _); reflexivity.
Qed.

(** A spec that the parser returns is not empty, and comes with the text
    from which every block is taken out. *)
Lemma parse_viz_spec_spec text s :
  (parse_viz_spec text).1 = Some s →
  truthy_dict (parse_viz_spec text).1 = Some s
  ∧ (parse_viz_spec text).2 = strip (remove_all pattern 0 text).
Proof.
  intros Hs. split.
  - rewrite Hs.
    destruct (parse_viz_spec text) as [spec cleaned] eqn:Hp.
    cbn [fst] in Hs. subst spec.
    destruct (parse_viz_spec_Some _ _ _ Hp "chart_type") as [v Hv].
    { unfold required_fields. rewrite !elem_of_cons. auto. }
    by destruct s.
  - revert Hs. unfold parse_viz_spec. destruct text as [|a text]; [done|].
    destruct (search pattern (String a text)) as [m|]; [|done].
    by destruct (has_required _).
Qed.

Lemma set_text_same r : set_text (text r) r = r.
Proof. by destruct r. Qed.

(** X23.  An answer to a question.  The typing indicator comes first.
    When the answer has rows and columns, it is stored under the next
    result id and exactly one card is sent.  If its text holds a
    complete directive, the answer is stored with that directive and
    with every block taken out of its text, and the card is the chart
    card when [generate] returns an image for the directive, and
    otherwise the first page of the table, after a note that no chart
    could be generated.  If its text holds no complete directive, the
    answer is stored as it came, blocks included, and the card is the
    first page of the table.  When the answer has no rows or no columns,
    nothing is stored and no card is sent. *)
Theorem answer_shows_chart_or_table (env : Env) (u : string)
    (m : option string) (bot : BotState) (dbx : string)
    (manager : option TokenCache.UserTokenManager) :
  authenticate env u bot = Some (dbx, manager) →
  said m commands = false →
  let r := genie_answer env u dbx m bot in
  let stored :=
    match (parse_viz_spec (text r)).1 with
    | Some s =>
        set_viz_spec s (set_text (strip (remove_all pattern 0 (text r))) r)
    | None => r
    end in
  let rid := result_id_of (_result_counter (artifacts bot) + 1) in
  let '(sent, bot') := _handle_message env u m bot in
  head sent = Some Typing
  ∧ if non_empty (data_rows r) && non_empty (columns r)
    then
      _store_result stored (artifacts bot) = (rid, artifacts bot')
      ∧ match (parse_viz_spec (text r)).1 with
        | Some s =>
            match truthy (generate (env_float env) (env_draw env) s
                                   (columns r) (data_rows r)) with
            | Some chart_image =>
                cards sent
                = [create_chart_card (env_title env) chart_image
                     (default "Query Results" (dict_get "title" s)) rid
                     (default "bar" (dict_get "chart_type" s))
                     (Some (BOT_PUBLIC_URL env +:+ "/interactive-chart/"
                            +:+ rid))]
            | None =>
                cards sent = [paginated_card stored 0 (Some rid)]
                ∧ Text chart_note ∈ sent
            end
        | None => cards sent = [paginated_card stored 0 (Some rid)]
        end
    else artifacts bot' = artifacts bot ∧ cards sent = [].
Proof.
  intros Ha Hs r stored rid.
  pose proof (_handle_message_gate env u m bot) as Hg. rewrite Ha in Hg.
  rewrite Hg, handle_authenticated_query by done.
  pose proof (process_query_answer env u dbx m (set_TOKEN_MANAGER manager bot))
    as H.
  cbv zeta in H.
  change (genie_answer env u dbx m (set_TOKEN_MANAGER manager bot)) with r in H.
  change (artifacts (set_TOKEN_MANAGER manager bot)) with (artifacts bot) in H.
  destruct (process_query _ _ _ _ _) as [sent bot'].
  destruct H as [Hhead H]. split; [done|].
  destruct (non_empty (data_rows r) && non_empty (columns r)); [|done].
  destruct H as [Hart H].
  assert (Hstore : ∀ x, _store_result x (artifacts bot)
            = (rid, (_store_result x (artifacts bot)).2)) by done.
  unfold stored.
  destruct (parse_viz_spec (text r)).1 as [s|] eqn:Hspec.
  - destruct (parse_viz_spec_spec _ _ Hspec) as [Ht Hclean].
    rewrite Hspec in Ht. rewrite Ht, Hclean in Hart, H.
    split; [by rewrite Hart|]. exact H.
  - pose proof (parse_viz_spec_None _ Hspec) as Hclean.
    rewrite Hclean, set_text_same in Hart, H. cbn [truthy_dict] in Hart, H.
    split; [by rewrite Hart|]. exact H.
Qed.

Lemma answer_shows_chart_or_table_witness :
  let env := Examples.granting_env in
  let bot := Examples.signed_in in
  let '(sent, bot') := _handle_message env "ann" (Some "show sales") bot in
  head sent = Some Typing
  ∧ _store_result Examples.stored_sales_answer (artifacts bot)
    = ("result_1", artifacts bot')
  ∧ cards sent
    = [create_chart_card (env_title env) "iVBORw0KGgo=" "Sales" "result_1"
         "bar" (Some "https://bot.example/interactive-chart/result_1")].
Proof.
  intros env bot.
  assert (∃ manager, authenticate env "ann" bot = Some ("dbx-teams-ann", manager))
    as [manager Ha] by (eexists; vm_compute; reflexivity).
  assert (said (Some "show sales") commands = false) as Hs by (by vm_compute).
  pose proof (answer_shows_chart_or_table env "ann" (Some "show sales") bot
                "dbx-teams-ann" manager Ha Hs) as H.
  cbv zeta in H.
  destruct (_handle_message env "ann" (Some "show sales") bot) as [sent bot'].
  destruct H as [Hhead H]. split; [exact Hhead|].
  assert (genie_answer env "ann" "dbx-teams-ann" (Some "show sales") bot
          = Examples.sales_answer) as Hr by (by vm_compute).
  rewrite Hr in H.
  change (non_empty (data_rows Examples.sales_answer)
          && non_empty (columns Examples.sales_answer)) with true in H.
  cbv iota in H.
  assert (parse_viz_spec (text Examples.sales_answer)
          = (viz_spec Examples.stored_sales_answer, "Sales by region")) as Hp
    by (by vm_compute).
  rewrite Hp in H. cbn [fst viz_spec Examples.stored_sales_answer] in H.
  assert (set_viz_spec
            [("chart_type", "bar"); ("x_axis", "Region"); ("y_axis", "Sales");
             ("title", "Sales")]
            (set_text (strip (remove_all pattern 0 (text Examples.sales_answer)))
               Examples.sales_answer)
          = Examples.stored_sales_answer) as Hstored by (by vm_compute).
  rewrite Hstored in H.
  assert (generate (env_float env) (env_draw env)
            [("chart_type", "bar"); ("x_axis", "Region"); ("y_axis", "Sales");
             ("title", "Sales")]
            (columns Examples.sales_answer) (data_rows Examples.sales_answer)
          = Some "iVBORw0KGgo=") as Hgen by (by vm_compute).
  rewrite Hgen in H. cbn [truthy] in H.
  destruct H as [Hst Hcards]. split; [exact Hst|exact Hcards].
Defined.

(** X24.  Sign-in, then a question.  A token exchange invoke with a
    token is acknowledged with status 200 and the confirmation text.
    If the token manager holds no unexpired Databricks token for the
    user, the next question of the user makes exactly one request to
    the identity provider, with the Teams token just received; the
    token granted is cached for its lifetime minus sixty seconds, and
    Genie is asked with it. *)
Theorem sign_in_then_ask (env : Env) (u t : string) (id : option json)
    (m : option string) (bot : BotState)
    (manager : TokenCache.UserTokenManager) (dbx : string) (e : option Z) :
  u ≠ EmptyString → t ≠ EmptyString →
  TOKEN_MANAGER bot = Some manager →
  ¬ TokenCache.cache_hit (env_now env) u manager →
  env_acquire env t = TokenCache.OboToken dbx e →
  dbx ≠ EmptyString →
  said m commands = false →
  let '(sent, bot1) := _handle_token_exchange (Some u) (Some t) id bot in
  let bot2 := (_handle_message env u m bot1).2 in
  sent = [InvokeResponse 200 (Some (JObj [("id", default JNull id)]));
          Text "You're now signed in. Ask me anything about your data!"]
  ∧ genie_requests bot2
    = genie_requests bot
      ++ [{| bearer := dbx;
             conversation := truthy (user_conversations bot !! u);
             question := m |}]
  ∧ TOKEN_MANAGER bot2
    = Some {| TokenCache.user_tokens :=
                <[u := {| TokenCache.token := dbx;
                          TokenCache.expires_at :=
                            (env_now' env + inject_Z (default 3600%Z e) - 60)%Q |}]>
                  (TokenCache.user_tokens manager);
              TokenCache.obo_requests := TokenCache.obo_requests manager ++ [t] |}.
Proof.
  intros Hu Ht Hm Hmiss Hacq Hd Hs.
  unfold _handle_token_exchange.
  rewrite (proj2 (truthy_Some (Some t) t)) by done.
  rewrite (proj2 (truthy_Some (Some u) u)) by done.
  split; [done|].
  set (bot1 := set_user_tokens _ bot).
  pose proof (TokenCacheFacts.exchange_miss_granted (env_now env) (env_now' env)
                (env_acquire env) u t manager dbx e Hmiss Hacq) as Hex.
  assert (authenticate env u bot1
          = Some (dbx, Some (TokenCache.exchange_for_databricks_token
                               (env_now env) (env_now' env) (env_acquire env)
                               u t manager).2)) as Ha.
  { apply authenticate_Some. exists t, manager. eexists.
    subst bot1. fields. rewrite lookup_insert_eq.
    do 3 (split; [done|]). split; [|done]. by rewrite Hex. }
  pose proof (_handle_message_gate env u m bot1) as Hg. rewrite Ha in Hg.
  rewrite Hg, handle_authenticated_query by done.
  pose proof (process_query_state env u dbx m
                (set_TOKEN_MANAGER
                   (Some (TokenCache.exchange_for_databricks_token
                            (env_now env) (env_now' env) (env_acquire env)
                            u t manager).2) bot1)) as H.
  cbv zeta in H. destruct H as (_ & _ & Hm' & Hreq & _).
  rewrite Hm', Hreq. subst bot1. fields. by rewrite Hex.
Qed.

Lemma sign_in_then_ask_witness :
  let env := Examples.granting_env in
  let bot := Bot.start true in
  let '(sent, bot1) :=
    _handle_token_exchange (Some "ann") (Some "teams-ann") (Some (JStr "7")) bot in
  let bot2 := (_handle_message env "ann" (Some "show sales") bot1).2 in
  sent = [InvokeResponse 200 (Some (JObj [("id", JStr "7")]));
          Text "You're now signed in. Ask me anything about your data!"]
  ∧ genie_requests bot2
    = [{| bearer := "dbx-teams-ann"; conversation := None;
          question := Some "show sales" |}]
  ∧ TOKEN_MANAGER bot2
    = Some {| TokenCache.user_tokens :=
                {["ann" := {| TokenCache.token := "dbx-teams-ann";
                              TokenCache.expires_at := (1001 + 3600 - 60)%Q |}]};
              TokenCache.obo_requests := ["teams-ann"] |}.
Proof.
  intros env bot.
  refine (sign_in_then_ask env "ann" "teams-ann" (Some (JStr "7"))
            (Some "show sales") bot
            {| TokenCache.user_tokens := ∅; TokenCache.obo_requests := [] |}
            "dbx-teams-ann" (Some 3600) _ _ _ _ _ _ _); try done.
  intros (c & Hc & _). by vm_compute in Hc.
Defined.

End AnswerFacts.

(** ** The stores of a running bot *)

Module ReachFacts.
Import Py ArtifactStore Pagination Chart VizParser Genie Bot HandlerFacts.
Import PyFacts ArtifactStoreFacts AnswerFacts.

Lemma after_snoc events e bot :
  after (events ++ [e]) bot = (handle e (after events bot)).2.
Proof. unfold after. by rewrite fold_left_app. Qed.

Lemma non_empty_true {A} (l : list A) : non_empty l = true ↔ l ≠ [].
Proof. by destruct l. Qed.

(** An event leaves the stores alone or stores one result that has
    rows and columns. *)
Lemma handle_artifacts e bot :
  artifacts (handle e bot).2 = artifacts bot
  ∨ ∃ r, data_rows r ≠ [] ∧ columns r ≠ []
         ∧ artifacts (handle e bot).2 = (_store_result r (artifacts bot)).2.
Proof.
  destruct e as [env u m| | | | |]; cbn [handle snd]; auto.
  - pose proof (_handle_message_gate env u m bot) as Hg.
    destruct (authenticate env u bot) as [[dbx manager]|].
    + rewrite Hg. destruct (said m commands) eqn:Hs.
      * left.
        pose proof (handle_authenticated_command env u dbx m
                      (set_TOKEN_MANAGER manager bot) Hs) as H.
        destruct (handle_authenticated _ _ _ _ _) as [sent bot'].
        by destruct H as (_ & [->|[->|[[b ->]| ->]]]).
      * rewrite handle_authenticated_query by done.
        pose proof (process_query_answer env u dbx m
                      (set_TOKEN_MANAGER manager bot)) as H.
        cbv zeta in H.
        destruct (process_query _ _ _ _ _) as [sent bot'].
        destruct H as [_ H].
        destruct (non_empty _ && non_empty _) eqn:Hd.
        -- right. destruct H as [H _]. eexists. split; [|split; [|exact H]].
           ++ apply andb_true_iff in Hd as [Hd _]. apply non_empty_true in Hd.
              by destruct (truthy_dict _).
           ++ apply andb_true_iff in Hd as [_ Hd]. apply non_empty_true in Hd.
              by destruct (truthy_dict _).
        -- left. by destruct H.
    + destruct (truthy (user_tokens bot !! u)).
      * destruct Hg as (sent & -> & _). by left.
      * rewrite Hg. by left.
  - unfold _handle_token_exchange.
    destruct (truthy token), (truthy user_id); by left.
Qed.

(** The stores of a running bot are those of a sequence of puts of
    results that have rows and columns. *)
Lemma reachable_store configured events :
  ∃ calls,
    artifacts (after events (start configured)) = (run calls init).2
    ∧ Forall (λ c, ∃ r, c = PutResult r ∧ data_rows r ≠ [] ∧ columns r ≠ [])
             calls.
Proof.
  induction events as [|e events IH] using rev_ind.
  - exists []. split; [by destruct configured|constructor].
  - destruct IH as (calls & Hart & Hall). rewrite after_snoc.
    destruct (handle_artifacts e (after events (start configured)))
      as [->|(r & Hr & Hc & ->)].
    + by exists calls.
    + exists (calls ++ [PutResult r]). split.
      * rewrite run_snoc, Hart. destruct (run calls init) as [log b].
        cbn [put snd]. by destruct (_store_result r b).
      * apply Forall_app. split; [done|]. constructor; [|constructor]. eauto.
Qed.

Lemma results_put_all calls bot :
  Forall (λ c, ∃ r, c = PutResult r ∧ data_rows r ≠ [] ∧ columns r ≠ []) calls →
  charts_put (run calls bot).1 = []
  ∧ Forall (λ e, data_rows e.2 ≠ [] ∧ columns e.2 ≠ [])
           (results_put (run calls bot).1).
Proof.
  intros Hall. revert bot.
  induction Hall as [|c calls (r & -> & Hr & Hc) _ IH]; intros bot.
  - split; [done|constructor].
  - cbn [run put]. destruct (_store_result r bot) as [i bot0].
    specialize (IH bot0). destruct (run calls bot0) as [log bot1].
    cbn [fst] in *. destruct IH as [IH1 IH2].
    split; [done|]. unfold results_put. cbn. by constructor.
Qed.

(** The stores of a running bot: no chart was ever stored, and the
    result store holds the fifty most recent of the results stored so
    far, which are numbered from one and all have rows and columns. *)
Lemma reachable_results configured events :
  let store := artifacts (after events (start configured)) in
  chart_images store = [] ∧ _chart_counter store = 0
  ∧ ∃ h : dict QueryResult,
      _result_counter store = Z.of_nat (length h)
      ∧ dict_keys h = result_id_of <$> counters_after 0 (length h)
      ∧ query_results store = retained 50 h
      ∧ Forall (λ e, data_rows e.2 ≠ [] ∧ columns e.2 ≠ []) h.
Proof.
  destruct (reachable_store configured events) as (calls & -> & Hall).
  pose proof (run_ids calls init) as Hids.
  pose proof (run_init_contents calls) as Hcont.
  pose proof (results_put_all calls init Hall) as [Hch Hres].
  cbv zeta in Hids, Hcont. rewrite Hch in Hids, Hcont.
  destruct Hids as [[Hk Hc] [_ Hcc]]. destruct Hcont as [Hq Hci].
  cbn [init _result_counter _chart_counter] in *.
  split; [done|]. split; [by rewrite Hcc|].
  exists (results_put (run calls init).1).
  split; [by rewrite Hc|]. done.
Qed.

Lemma result_id_lookup (h : dict QueryResult) (n : Z) :
  dict_keys h = result_id_of <$> counters_after 0 (length h) →
  0 < n ≤ Z.of_nat (length h) →
  ∃ r, h !! Z.to_nat (n - 1) = Some (result_id_of n, r).
Proof.
  intros Hk Hn.
  destruct (lookup_lt_is_Some_2 h (Z.to_nat (n - 1))) as [[k r] Hr]; [lia|].
  exists r. rewrite Hr. do 2 f_equal.
  assert (dict_keys h !! Z.to_nat (n - 1) = Some k) as Hkk.
  { unfold dict_keys. by rewrite list_lookup_fmap, Hr. }
  rewrite Hk, list_lookup_fmap in Hkk. unfold counters_after in Hkk.
  rewrite lookup_seqZ_lt in Hkk by lia. cbn in Hkk.
  injection Hkk as <-. f_equal. lia.
Qed.

(** Which ids the result store of a running bot answers. *)
Lemma reachable_get_result configured events (rid : string) :
  let store := artifacts (after events (start configured)) in
  let c := _result_counter store in
  match get_result rid store with
  | Some r =>
      data_rows r ≠ [] ∧ columns r ≠ []
      ∧ ∃ n, rid = result_id_of n ∧ 0 < n ∧ c - 50 < n ≤ c
  | None => ∀ n, 0 < n → c - 50 < n ≤ c → rid ≠ result_id_of n
  end.
Proof.
  intros store c.
  destruct (reachable_results configured events)
    as (_ & _ & h & Hc & Hk & Hq & Hall).
  fold store in Hc, Hq. unfold get_result. rewrite Hq. fold c in Hc.
  assert (NoDup (dict_keys h)) as Hnd by (rewrite Hk; apply NoDup_result_ids).
  destruct (dict_get rid (retained 50 h)) as [r|] eqn:Hget.
  - assert (rid ∈ dict_keys (retained 50 h)) as Hin.
    { destruct (decide (rid ∈ dict_keys (retained 50 h))) as [|Hn]; [done|].
      by rewrite (dict_get_None _ _ Hn) in Hget. }
    rewrite keys_retained in Hin.
    apply list_elem_of_lookup_1 in Hin as [i Hi]. rewrite lookup_drop in Hi.
    pose proof (lookup_lt_Some _ _ _ Hi) as Hlt.
    unfold dict_keys in Hlt. rewrite length_fmap in Hlt.
    destruct (lookup_lt_is_Some_2 h (length h - 50 + i)) as [[k r'] Hr']; [done|].
    assert (k = rid) as ->.
    { unfold dict_keys in Hi. rewrite list_lookup_fmap, Hr' in Hi.
      by injection Hi. }
    assert (r' = r) as ->.
    { pose proof (retained_get_kept 50 _ h rid r' Hnd Hr' ltac:(lia)) as H.
      rewrite H in Hget. by injection Hget. }
    rewrite Forall_forall in Hall.
    destruct (Hall (rid, r)) as [Hd Hcol].
    { eapply list_elem_of_lookup_2. exact Hr'. }
    split; [done|]. split; [done|].
    exists (Z.of_nat (length h - 50 + i) + 1).
    assert (dict_keys h !! (length h - 50 + i)%nat = Some rid) as Hkk.
    { unfold dict_keys. by rewrite list_lookup_fmap, Hr'. }
    rewrite Hk, list_lookup_fmap in Hkk. unfold counters_after in Hkk.
    rewrite lookup_seqZ_lt in Hkk by lia. cbn in Hkk.
    injection Hkk as <-. split; [f_equal; lia|]. lia.
  - intros n Hn Hw ->.
    destruct (result_id_lookup h n Hk ltac:(lia)) as [r Hr].
    pose proof (retained_get_kept 50 _ h _ r Hnd Hr ltac:(lia)) as H.
    by rewrite H in Hget.
Qed.

Lemma dict_mem_get {V} (k : string) (d : dict V) :
  dict_mem k d = match dict_get k d with Some _ => true | None => false end.
Proof. done. Qed.

(** X25.  Results stay pageable until fifty newer ones exist.  In a
    bot that has handled any sequence of events since it started, with
    [c] results stored so far, the buttons of a card that carry the id
    of result [n] are answered from the store exactly when [n] is one
    of the last fifty: [_handle_pagination] and [_handle_view_data]
    send the page of that result, which has rows and columns, and
    [_handle_task_fetch] continues to the interactive chart.  For every
    other id, an absent one included, the first two send the apology
    and the third the expiry notice. *)
Theorem results_stay_pageable (configured : bool) (events : list event)
    (result_id : option string) :
  let bot := after events (start configured) in
  let c := _result_counter (artifacts bot) in
  (∀ n, 0 < n → c - 50 < n ≤ c → result_id = Some (result_id_of n) →
     ∃ r, get_result (result_id_of n) (artifacts bot) = Some r
          ∧ data_rows r ≠ [] ∧ columns r ≠ []
          ∧ (∀ page, _handle_pagination result_id page bot
                     = [Card (paginated_card r (default 0 page) result_id)])
          ∧ _handle_view_data result_id bot
            = [Card (paginated_card r 0 result_id)]
          ∧ ∀ url title,
              _handle_task_fetch result_id url title bot
              = [InvokeResponse 200
                   (Some (JObj [("task",
                                 JObj [("type", JStr "continue");
                                       ("value",
                                        JObj [("title", JStr (default "Interactive Chart" title));
                                              ("height", JInt 600);
                                              ("width", JInt 900);
                                              ("url", opt_str url)])])]))])
  ∧ ((∀ n, 0 < n → c - 50 < n ≤ c → result_id ≠ Some (result_id_of n)) →
     (∀ page, _handle_pagination result_id page bot = [Text data_not_found])
     ∧ _handle_view_data result_id bot = [Text data_not_found]
     ∧ ∀ url title,
         _handle_task_fetch result_id url title bot
         = [InvokeResponse 200
              (Some (JObj [("task",
                            JObj [("type", JStr "message");
                                  ("value", JStr data_expired)])]))]).
Proof.
  intros bot c. split.
  - intros n Hn Hw ->.
    pose proof (reachable_get_result configured events (result_id_of n)) as H.
    cbv zeta in H. fold bot in H. fold c in H.
    destruct (get_result (result_id_of n) (artifacts bot)) as [r|] eqn:Hget;
      [|by destruct (H n Hn Hw)].
    destruct H as (Hd & Hc & _). exists r. do 3 (split; [done|]).
    unfold _handle_pagination, _handle_view_data, _handle_task_fetch.
    rewrite truthy_result_id, dict_mem_get.
    unfold get_result in Hget. rewrite Hget. done.
  - intros Hout.
    unfold _handle_pagination, _handle_view_data, _handle_task_fetch.
    destruct (truthy result_id) as [rid|] eqn:Ht; [|done].
    apply truthy_Some in Ht as [-> _]. rewrite dict_mem_get.
    pose proof (reachable_get_result configured events rid) as H.
    cbv zeta in H. fold bot in H. fold c in H. unfold get_result in H.
    destruct (dict_get rid (query_results (artifacts bot))) as [r|]; [|done].
    destruct H as (_ & _ & n & -> & Hn & Hw). by destruct (Hout n Hn Hw).
Qed.



Lemma results_stay_pageable_witness :
  let events :=
    TokenExchange (Some "ann") (Some "teams-ann") None
    :: replicate 51 (MessageReceived Examples.granting_env "ann"
                                     (Some "show sales")) in
  let bot := after events (start true) in
  _result_counter (artifacts bot) = 51
  ∧ _handle_view_data (Some "result_1") bot = [Text data_not_found]
  ∧ ∃ r, _handle_view_data (Some "result_2") bot
         = [Card (paginated_card r 0 (Some "result_2"))].
Proof.
  intros events bot.
  assert (_result_counter (artifacts bot) = 51) as Hc by (by vm_compute).
  split; [exact Hc|]. split.
  - pose proof (results_stay_pageable true events (Some "result_1")) as [_ H].
    fold bot in H. rewrite Hc in H.
    assert (∀ n, 0 < n → 51 - 50 < n ≤ 51 →
              Some "result_1" ≠ Some (result_id_of n)) as Hout.
    { intros n Hn Hw [= E]. change "1" with (str_of_int 1) in E.
      apply PyFacts.str_of_int_inj in E. lia. }
    destruct (H Hout) as (_ & Hv & _). exact Hv.
  - pose proof (results_stay_pageable true events (Some "result_2")) as [H _].
    fold bot in H. rewrite Hc in H.
    destruct (H 2 ltac:(lia) ltac:(lia) eq_refl) as (r & _ & _ & _ & _ & Hv & _).
    exists r. exact Hv.
Defined.

End ReachFacts.

(** ** Invariants of a running bot *)

Module InvariantFacts.
Import Py ArtifactStore Pagination Chart VizParser Genie Bot HandlerFacts.
Import SessionFacts AnswerFacts ReachFacts.

Lemma consistent_start configured : consistent configured (start configured).
Proof.
  unfold consistent, start, cached_token. fields.
  split; [destruct configured; split; (done || by intros [? [=]] || by eexists)|].
  split.
  { intros u. destruct configured; cbn; rewrite lookup_empty; by intros [? [=]]. }
  split; [intros u; by rewrite lookup_empty|].
  split; [intros u; by rewrite lookup_empty|].
  split; [intros req H; by apply elem_of_nil in H|]. done.
Qed.

Lemma consistent_token_exchange configured user_id token id bot :
  consistent configured bot →
  consistent configured (_handle_token_exchange user_id token id bot).2.
Proof.
  intros (Hm & Hc & Ht & Hv & Hr & Hn). unfold _handle_token_exchange.
  destruct (truthy token) as [t|] eqn:Et; [|done].
  destruct (truthy user_id) as [u|] eqn:Eu; [|done].
  apply truthy_Some in Et as [_ Et].
  unfold consistent, cached_token in *. fields.
  split; [done|]. split; [|split; [|done]].
  - intros u' H. destruct (decide (u' = u)) as [->|Hne].
    + rewrite lookup_insert_eq. by eexists.
    + rewrite lookup_insert_ne by done. by apply Hc.
  - intros u'. destruct (decide (u' = u)) as [->|Hne].
    + rewrite lookup_insert_eq. congruence.
    + rewrite lookup_insert_ne by done. apply Ht.
Qed.

Lemma consistent_exchange configured env u t mg bot :
  consistent configured bot →
  user_tokens bot !! u = Some t → TOKEN_MANAGER bot = Some mg →
  consistent configured
    (set_TOKEN_MANAGER
       (Some (TokenCache.exchange_for_databricks_token
                (env_now env) (env_now' env) (env_acquire env) u t mg).2)
       bot).
Proof.
  intros (Hm & Hc & Ht & Hv & Hr & Hn) Hut Hmg.
  unfold consistent, cached_token in *. fields.
  split; [rewrite <- Hm, Hmg; split; by eexists|].
  split; [|done].
  intros u' H. destruct (decide (u' = u)) as [->|Hne]; [by eexists|].
  apply Hc. rewrite Hmg. cbn in *.
  by rewrite exchange_other_users in H.
Qed.

Lemma consistent_forget configured u bot :
  consistent configured bot → consistent configured (forget_tokens u bot).
Proof.
  intros (Hm & Hc & Ht & Hv & Hr & Hn).
  unfold consistent. fields.
  split.
  { rewrite <- Hm. destruct (TOKEN_MANAGER bot); split; intros [? [=]]; by eexists. }
  split.
  { intros u' H. destruct (decide (u' = u)) as [->|Hne].
    - by rewrite cached_token_cleared in H; destruct H.
    - rewrite cached_token_clear in H by done.
      rewrite lookup_delete_ne by done. by apply Hc. }
  split.
  { intros u'. destruct (decide (u' = u)) as [->|Hne].
    - by rewrite lookup_delete_eq.
    - rewrite lookup_delete_ne by done. apply Ht. }
  done.
Qed.

Lemma consistent_delete_conversation configured u bot :
  consistent configured bot →
  consistent configured
    (set_user_conversations (delete u (user_conversations bot)) bot).
Proof.
  intros (Hm & Hc & Ht & Hv & Hr & Hn).
  unfold consistent, cached_token in *. fields.
  do 3 (split; [done|]). split; [|split; [done|]].
  - intros u'. destruct (decide (u' = u)) as [->|Hne].
    + by rewrite lookup_delete_eq.
    + rewrite lookup_delete_ne by done. apply Hv.
  - intros Hf. destruct (Hn Hf) as (? & ? & Hcv). do 2 (split; [done|]).
    rewrite Hcv. apply delete_empty.
Qed.

Lemma consistent_set_preferences configured p bot :
  consistent configured bot → consistent configured (set_user_preferences p bot).
Proof. done. Qed.

Lemma consistent_query configured env u dbx m bot :
  consistent configured bot →
  is_Some (TOKEN_MANAGER bot) → dbx ≠ EmptyString →
  consistent configured (process_query env u dbx m bot).2.
Proof.
  intros (Hm & Hc & Ht & Hv & Hr & Hn) Hsome Hd.
  pose proof (process_query_state env u dbx m bot) as H. cbv zeta in H.
  destruct H as (Hut & _ & Hmg & Hreq & Hconv).
  unfold consistent, cached_token. rewrite Hut, Hmg, Hreq, Hconv.
  do 3 (split; [done|]). split; [|split].
  - intros u'. destruct (truthy (conversation_id _)) as [c|] eqn:Hcid; [|apply Hv].
    destruct (error _); [apply Hv|].
    apply truthy_Some in Hcid as [_ Hne].
    destruct (decide (u' = u)) as [->|Hne'].
    + rewrite lookup_insert_eq. congruence.
    + rewrite lookup_insert_ne by done. apply Hv.
  - intros req [Hin|Hin%list_elem_of_singleton]%elem_of_app; [by apply Hr|].
    by subst req.
  - intros Hf. apply Hm in Hsome. congruence.
Qed.

Lemma consistent_message configured env u m bot :
  consistent configured bot →
  consistent configured (_handle_message env u m bot).2.
Proof.
  intros Hok.
  pose proof (_handle_message_gate env u m bot) as Hg.
  destruct (authenticate env u bot) as [[dbx manager]|] eqn:Ha.
  - rewrite Hg.
    apply authenticate_Some in Ha
      as (t & mg & mg1 & Hut & Hne & Hmg & Hex & Hd & ->).
    pose proof (consistent_exchange configured env u t mg bot Hok Hut Hmg) as Hok1.
    rewrite Hex in Hok1. cbn [snd] in Hok1.
    destruct (said m commands) eqn:Hs.
    + pose proof (handle_authenticated_command env u dbx m
                    (set_TOKEN_MANAGER (Some mg1) bot) Hs) as H.
      destruct (handle_authenticated _ _ _ _ _) as [sent bot'].
      destruct H as (_ & [->|[->|[[b ->]| ->]]]); cbn [snd].
      * done.
      * by apply consistent_delete_conversation.
      * by apply consistent_set_preferences.
      * apply (consistent_delete_conversation configured u
                 (forget_tokens u (set_TOKEN_MANAGER (Some mg1) bot))).
        by apply consistent_forget.
    + rewrite handle_authenticated_query by done.
      apply consistent_query; [done|by eexists|done].
  - destruct (truthy (user_tokens bot !! u)) as [t|] eqn:Ht.
    + destruct Hg as (sent & -> & _). cbn [snd].
      apply consistent_forget.
      apply truthy_Some in Ht as [Hut _].
      unfold _exchange_for_databricks_token.
      destruct (TOKEN_MANAGER bot) as [mg|] eqn:Hmg.
      * pose proof (consistent_exchange configured env u t mg bot Hok Hut Hmg)
          as Hok1.
        by destruct (TokenCache.exchange_for_databricks_token _ _ _ _ _ _).
      * cbn [snd]. by destruct bot; cbn in *; subst.
    + by rewrite Hg.
Qed.

(** X26.  What holds of a bot that has handled any sequence of events
    since it started.  The token manager exists exactly when it was
    configured.  A Databricks token is cached only for a user who holds
    a Teams token.  No stored Teams token and no conversation id is
    empty, and Genie was never asked with an empty token.  Without a
    token manager Genie was never asked, nothing was stored and nobody
    has a conversation.  No chart was ever put in the chart store, and
    every stored result has rows and columns. *)
Theorem running_bot_invariants (configured : bool) (events : list event) :
  let bot := after events (start configured) in
  (is_Some (TOKEN_MANAGER bot) ↔ configured = true)
  ∧ (∀ u, is_Some (cached_token u bot) → is_Some (user_tokens bot !! u))
  ∧ (∀ u, user_tokens bot !! u ≠ Some EmptyString)
  ∧ (∀ u, user_conversations bot !! u ≠ Some EmptyString)
  ∧ (∀ req, req ∈ genie_requests bot → bearer req ≠ EmptyString)
  ∧ (configured = false →
       genie_requests bot = [] ∧ artifacts bot = init
       ∧ user_conversations bot = ∅)
  ∧ chart_images (artifacts bot) = []
  ∧ _chart_counter (artifacts bot) = 0
  ∧ ∀ rid r, get_result rid (artifacts bot) = Some r →
             data_rows r ≠ [] ∧ columns r ≠ [].
Proof.
  intros bot.
  assert (consistent configured bot) as (H1 & H2 & H3 & H4 & H5 & H6).
  { subst bot. induction events as [|e events IH] using rev_ind.
    - apply consistent_start.
    - rewrite after_snoc.
      destruct e; cbn [handle snd];
        [by apply consistent_message|by apply consistent_token_exchange
        |done|done|done|done]. }
  do 6 (split; [done|]).
  destruct (reachable_results configured events) as (Hch & Hcc & _).
  do 2 (split; [done|]).
  intros rid r Hget.
  pose proof (reachable_get_result configured events rid) as H.
  cbv zeta in H. fold bot in H. rewrite Hget in H. by destruct H as (? & ? & _).
Qed.

End InvariantFacts.

(** ** The chart endpoints *)

Module WebFacts.
Import Py ArtifactStore Pagination Chart ChartView Bot Web.
Import PyFacts ArtifactStoreFacts HandlerFacts ReachFacts ColumnFacts GenerateFacts.

Lemma traverse_cases {A B} (f : A → outcome B) (l : list A) :
  (∃ ys, traverse f l = Return ys ∧ length ys = length l
         ∧ ∀ i x, l !! i = Some x → Return <$> ys !! i = Some (f x))
  ∨ (traverse f l = Raise ∧ ∃ x, x ∈ l ∧ f x = Raise).
Proof.
  induction l as [|x l IH]; simpl.
  - left. by exists [].
  - destruct (f x) as [y|] eqn:Hx; simpl.
    + destruct IH as [(ys & -> & Hlen & Hys)|(-> & x' & Hin & Hx')]; simpl.
      * left. exists (y :: ys). split; [done|]. split; [simpl; by rewrite Hlen|].
        intros [|i] x'; simpl; [by intros [= <-]; rewrite Hx|apply Hys].
      * right. split; [done|]. exists x'. split; [by right|done].
    + right. split; [done|]. exists x. split; [by left|done].
Qed.

Lemma index_Raise {A} (row : list A) (i : nat) :
  index row i = Raise ↔ (length row ≤ i)%nat.
Proof.
  unfold index. destruct (row !! i) eqn:H.
  - split; [done|]. intros Hle. apply lookup_lt_Some in H. lia.
  - split; [|done]. intros _. by apply lookup_ge_None.
Qed.

(** X27.  The interactive chart page.  The status is 400 for an empty
    id, 404 for an id that is not stored, 400 for a stored result
    without columns or without rows, and 200 otherwise.  The endpoint
    raises only when some row of the stored result has fewer cells
    than the result has columns; on a rectangular table it always
    answers. *)
Theorem interactive_chart_status
    (float_of_string : string → option Q)
    (format_template :
       string → list string → list number → string → string → string → string)
    (result_id : string) (store : GenieBot) :
  match interactive_chart float_of_string format_template result_id store with
  | Return response =>
      status response
      = match result_id with
        | EmptyString => 400
        | String _ _ =>
            match get_result result_id store with
            | None => 404
            | Some r =>
                if non_empty (columns r) && non_empty (data_rows r)
                then 200 else 400
            end
        end
  | Raise =>
      ∃ r row,
        result_id ≠ EmptyString
        ∧ get_result result_id store = Some r
        ∧ row ∈ data_rows r
        ∧ (length row < length (columns r))%nat
  end.
Proof.
  unfold interactive_chart, get_result.
  destruct result_id as [|a rid]; [done|].
  destruct (dict_get _ _) as [r|] eqn:Hget; [|done].
  destruct (columns r) as [|first others] eqn:Hcols; [done|].
  destruct (data_rows r) as [|row0 rows] eqn:Hrows; [done|].
  cbv zeta.
  set (x_col := default first _).
  set (y_col := if contains_char _ _ then _ else _).
  set (x_idx := default 0%nat _).
  set (y_idx := default _ (_get_column_index _ y_col)).
  assert (x_idx < length (first :: others))%nat as Hx.
  { subst x_idx. destruct (_get_column_index _ x_col) as [j|] eqn:Hj.
    - by apply _get_column_index_lt in Hj.
    - simpl. lia. }
  assert (y_idx < length (first :: others))%nat as Hy.
  { subst y_idx. destruct (_get_column_index _ y_col) as [j|] eqn:Hj.
    - by apply _get_column_index_lt in Hj.
    - unfold len. cbn [default from_option length id].
      destruct (Z.ltb_spec 1 (Z.of_nat (S (length others)))); lia. }
  destruct (traverse_cases (fun row => index row x_idx) (row0 :: rows))
    as [(xs & -> & _ & _)|(-> & row & Hin & Hr)].
  - cbn [mbind outcome_bind].
    destruct (traverse_cases
                (fun row =>
                   x ← index row x_idx;
                   match x with
                   | Some _ =>
                       y ← index row y_idx;
                       Return (Some (to_number float_of_string y))
                   | None => Return None
                   end) (row0 :: rows))
      as [(ys & -> & _ & _)|(-> & row & Hin & Hr)].
    + done.
    + cbn [mbind outcome_bind]. exists r, row.
      split; [done|]. split; [done|]. rewrite Hrows, Hcols. split; [done|].
      destruct (index row x_idx) as [[c|]|] eqn:Hix;
        cbn [mbind outcome_bind] in Hr.
      * destruct (index row y_idx) eqn:Hiy; [done|].
        apply index_Raise in Hiy. lia.
      * done.
      * apply index_Raise in Hix. lia.
  - cbn [mbind outcome_bind]. exists r, row.
    split; [done|]. split; [done|]. rewrite Hrows, Hcols. split; [done|].
    apply index_Raise in Hr. lia.
Qed.

(** X28.  The interactive chart page of a rectangular table.  The x
    column is the one the directive names, or the first column when it
    names none that exists; the y column is the one the directive
    names (the first item of a comma-separated value), or else the
    second column, or the first when there is only one.  Both indexes
    are valid, so the endpoint answers with status 200.  The page plots
    the rows whose x cell is not null: their x cells against their y
    cells made numeric, two series of the same length, and, given that
    [float] rejects the text [None], the same numbers [_to_numeric]
    gives the static chart. *)
Theorem interactive_chart_rectangular
    (float_of_string : string → option Q)
    (format_template :
       string → list string → list number → string → string → string → string)
    (result_id : string) (store : GenieBot) (r : QueryResult)
    (first : string) (others : list string) :
  result_id ≠ EmptyString →
  get_result result_id store = Some r →
  columns r = first :: others →
  data_rows r ≠ [] →
  Forall (fun row => length row = length (columns r)) (data_rows r) →
  let spec := default [] (viz_spec r) in
  let x_name := default first (dict_get "x_axis" spec) in
  let y_given := default (default first (head others)) (dict_get "y_axis" spec) in
  let y_name :=
    if contains_char "," y_given
    then strip (default EmptyString (head (split "," y_given)))
    else y_given in
  let x_idx := default 0%nat (_get_column_index (columns r) x_name) in
  let y_idx :=
    default (if others is [] then 0%nat else 1%nat)
            (_get_column_index (columns r) y_name) in
  let kept := List.filter (has_x x_idx) (data_rows r) in
  let x_data := omap (fun row : list cell => mjoin (row !! x_idx)) kept in
  let y_data :=
    (fun row : list cell => to_number float_of_string (mjoin (row !! y_idx)))
      <$> kept in
  (x_idx < length (columns r))%nat
  ∧ (y_idx < length (columns r))%nat
  ∧ length x_data = length y_data
  ∧ interactive_chart float_of_string format_template result_id store
    = Return {| status := 200;
                body :=
                  format_template
                    (default "Query Results" (dict_get "title" spec))
                    x_data y_data
                    (default "bar" (dict_get "chart_type" spec))
                    (default x_name (dict_get "x_label" spec))
                    (default y_name (dict_get "y_label" spec));
                content_type := Some "text/html"; headers := [] |}
  ∧ (float_of_string "None" = None →
     number_value <$> y_data
     = (fun row : list cell =>
          _to_numeric float_of_string (mjoin (row !! y_idx))) <$> kept).
Proof.
  intros Hne Hget Hcols Hrows Hrect.
  destruct r as [txt sq cols rows conv sugg vs err].
  cbv beta iota delta [columns data_rows viz_spec] in *. subst cols.
  intros spec x_name y_given y_name x_idx y_idx kept x_data y_data.
  unfold cell in *.
  assert (Hxl : (x_idx < length (first :: others))%nat).
  { subst x_idx. destruct (_get_column_index _ x_name) as [j|] eqn:Hj.
    - by apply _get_column_index_lt in Hj.
    - simpl. lia. }
  assert (Hyl : (y_idx < length (first :: others))%nat).
  { subst y_idx. destruct (_get_column_index _ y_name) as [j|] eqn:Hj.
    - by apply _get_column_index_lt in Hj.
    - destruct others; simpl; lia. }
  assert (Hcell : ∀ (i : nat) row, (i < length (first :: others))%nat →
            row ∈ rows → index row i = Return (mjoin (row !! i))).
  { intros i row Hi Hin. rewrite Forall_forall in Hrect.
    specialize (Hrect row Hin). cbv beta in Hrect. unfold index.
    assert (Hi' : (i < length row)%nat) by (unfold cell in *; lia).
    destruct (lookup_lt_is_Some_2 _ _ Hi') as [c Hc].
    revert Hc. unfold cell. by intros ->. }
  assert (Hlx : length x_data = length kept) by apply length_omap_has_x.
  assert (Hly : length y_data = length kept) by apply length_fmap.
  split; [done|]. split; [done|]. split; [by rewrite Hlx, Hly|]. split.
  - unfold interactive_chart. unfold get_result in Hget.
    destruct result_id as [|a rid]; [done|]. rewrite Hget.
    cbn [columns data_rows viz_spec].
    destruct rows as [|row0 rows]; [done|]. cbv zeta.
    assert (default (if 1 <? len (first :: others) then 1%nat else 0%nat)
                    (_get_column_index (first :: others) y_name) = y_idx) as Hy'.
    { subst y_idx. destruct (_get_column_index _ y_name); [done|].
      destruct others as [|second rest]; [done|].
      unfold len. cbn [from_option id length].
      destruct (Z.ltb_spec 1 (Z.of_nat (S (S (length rest))))); [done|lia]. }
    assert (match others with
            | [] => first
            | second :: _ => second
            end = default first (head others)) as Hsecond by (by destruct others).
    rewrite Hsecond. fold spec. fold x_name. fold y_given. fold y_name.
    fold x_idx. rewrite Hy'.
    rewrite (traverse_return (fun row : list (option string) => index row x_idx)
               (fun row => mjoin (row !! x_idx)))
      by (intros; by apply Hcell).
    cbn [mbind outcome_bind].
    rewrite (traverse_return
               (fun row : list (option string) =>
                  x ← index row x_idx;
                  match x with
                  | Some _ => y ← index row y_idx;
                              Return (Some (to_number float_of_string y))
                  | None => Return None
                  end)
               (fun row => match mjoin (row !! x_idx) with
                           | Some _ =>
                               Some (to_number float_of_string
                                               (mjoin (row !! y_idx)))
                           | None => None
                           end)).
    2:{ intros row Hin. cbv beta. rewrite (Hcell x_idx row Hxl Hin).
        cbn [mbind outcome_bind]. destruct (mjoin (row !! x_idx)); [|done].
        by rewrite (Hcell y_idx row Hyl Hin). }
    cbn [mbind outcome_bind].
    rewrite !omap_id_fmap.
    rewrite omap_filter_has_x.
    rewrite (omap_y_filter_has_x x_idx
               (fun row => to_number float_of_string (mjoin (row !! y_idx)))).
    done.
  - intros Hnone. unfold y_data. rewrite <- list_fmap_compose.
    apply list_fmap_ext. intros i row _. cbv beta delta [compose].
    unfold to_number, _to_numeric.
    destruct (mjoin (row !! y_idx)) as [s|]; cbn [from_option id].
    + set (cleaned := string_of_list_ascii _).
      destruct (float_of_string cleaned); reflexivity.
    + change (string_of_list_ascii _) with "None". rewrite Hnone. reflexivity.
Qed.

Lemma interactive_chart_rectangular_witness :
  let store := artifacts Examples.after_first_answer in
  let float_of_string := env_float Examples.granting_env in
  let format_template :=
    fun (title : string) (x : list string) (y : list number)
        (chart_type x_label y_label : string) =>
      title +:+ ": " +:+ x_label +:+ " / " +:+ y_label in
  interactive_chart float_of_string format_template "result_1" store
  = Return {| status := 200; body := "Sales: Region / Sales";
              content_type := Some "text/html"; headers := [] |}.
Proof.
  intros store float_of_string format_template.
  assert (get_result "result_1" store = Some Examples.stored_sales_answer)
    as Hget by (by vm_compute).
  destruct (interactive_chart_rectangular float_of_string format_template
              "result_1" store Examples.stored_sales_answer
              "Region" ["Sales"])
    as (_ & _ & _ & H & _);
    [done|exact Hget|done|done|by repeat constructor|].
  exact H.
Defined.

(** X29.  The chart endpoint.  A chart put in the store is served
    back, decoded, with status 200 while it is the most recent one,
    except that an empty image is reported as not found and an image
    that does not decode gives status 500.  The handlers of the bot
    never put a chart in the store, so in a bot that has handled any
    sequence of events the endpoint answers 400 for an empty id and 404
    for every other id. *)
Theorem serve_chart_outcomes
    (b64decode : string → option string) :
  (∀ (calls : list put_call) (chart_base64 : string),
     let '(chart_id, store) := store_chart chart_base64 (run calls init).2 in
     serve_chart b64decode chart_id store
     = match chart_base64, b64decode chart_base64 with
       | EmptyString, _ =>
           {| status := 404; body := "Chart not found";
              content_type := None; headers := [] |}
       | String _ _, Some chart_binary =>
           {| status := 200; body := chart_binary;
              content_type := Some "image/png";
              headers := [("Cache-Control", "public, max-age=3600")] |}
       | String _ _, None =>
           {| status := 500; body := "Error serving chart";
              content_type := None; headers := [] |}
       end)
  ∧ (∀ (configured : bool) (events : list event) (chart_id : string),
       serve_chart b64decode chart_id
                   (artifacts (after events (start configured)))
       = match chart_id with
         | EmptyString =>
             {| status := 400; body := "Missing chart_id";
                content_type := None; headers := [] |}
         | String _ _ =>
             {| status := 404; body := "Chart not found";
                content_type := None; headers := [] |}
         end).
Proof.
  split.
  - intros calls img.
    pose proof (run_snoc calls (PutChart img) init) as Hsnoc.
    pose proof (run_init_contents (calls ++ [PutChart img])) as [_ Hch].
    pose proof (run_ids (calls ++ [PutChart img]) init) as [_ [Hk _]].
    rewrite Hsnoc in Hch, Hk. destruct (run calls init) as [log bot].
    cbn [put snd] in *. destruct (store_chart img bot) as [cid store] eqn:Hst.
    cbn [fst snd] in Hch, Hk.
    assert (charts_put (log ++ [(PutChart img, cid)])
            = charts_put log ++ [(cid, img)]) as Hput.
    { unfold charts_put. rewrite omap_app. done. }
    rewrite Hput in Hch, Hk.
    assert (get_chart cid store = Some img) as Hget.
    { unfold get_chart. rewrite Hch.
      apply (retained_get_kept 100 (length (charts_put log))).
      - rewrite Hk. apply NoDup_chart_ids.
      - by rewrite lookup_app_r, Nat.sub_diag by done.
      - rewrite length_app. simpl. lia. }
    assert (cid ≠ EmptyString) as Hne.
    { unfold store_chart in Hst. by injection Hst as <- _. }
    unfold serve_chart. destruct cid as [|a cid]; [done|]. rewrite Hget.
    destruct img as [|b img]; [done|]. cbn [truthy].
    by destruct (b64decode _).
  - intros configured events chart_id.
    destruct (reachable_results configured events) as (Hch & _).
    unfold serve_chart, get_chart. rewrite Hch.
    by destruct chart_id.
Qed.

End WebFacts.

(** ** Page navigation *)

Module NavigationFacts.
Import Py ArtifactStore Pagination CardView Bot HandlerFacts PaginationFacts.

(** With the default page size the card always exists. *)
Lemma paginated_card_Some result page rid :
  create_paginated_card result page PAGE_SIZE rid
  = Some (paginated_card result page rid).
Proof.
  unfold paginated_card, create_paginated_card.
  change (PAGE_SIZE =? 0) with false. done.
Qed.




End NavigationFacts.
